(** * wiresocks: a shallow embedding of the forwarding plane

    The development follows the Go packages of the repository:
    - [socks4]    : [proxy/socks/socks4/common.go] (request parsing),
    - [socks5]    : [proxy/socks/socks5] (method negotiation, UDP relay),
    - [vtun], [config], [wireguard], [app] : the files of package
      [wiresocks]: the byte pump and forwarding handler, the
      configuration, the WireGuard driver and [Run].

    Go values are embedded as follows.  A [byte] is [Byte.byte]; a byte
    slice is [list byte]; a Go [string] is a [string] (a sequence of
    bytes); [int], [uint16], [uint32] are [Z] with the wrap-around written
    out where the source converts; [(T, error)] results are [result T].
    Functions of the Go standard library and of go-ini that the source
    calls are modelled in the modules [strconv], [strings], [hex],
    [base64], [net] and [ini]. *)

From Stdlib Require Import ZArith NArith List String Ascii Bool Lia.
From Stdlib Require Import Strings.Byte.
Import ListNotations.
Open Scope string_scope.
Open Scope Z_scope.

(** ** Errors and results *)

Inductive error : Type :=
| EOF                          (* io.EOF *)
| ErrUnexpectedEOF             (* io.ErrUnexpectedEOF *)
| ErrShortWrite                (* io.ErrShortWrite *)
| ECONNRESET                   (* syscall.ECONNRESET *)
| Errorf (msg : string)        (* errors.New / fmt.Errorf *)
| Panic (msg : string).        (* a run-time panic *)

Inductive result (A : Type) : Type :=
| Ok (a : A)
| Err (e : error).
Arguments Ok {A} a.
Arguments Err {A} e.

Definition bind {A B} (r : result A) (k : A -> result B) : result B :=
  match r with
  | Ok a => k a
  | Err e => Err e
  end.

Notation "'do' x <- r ; k" := (bind r (fun x => k))
  (at level 10, x pattern, r at level 100, k at level 200).

Definition error_eqb (e1 e2 : error) : bool :=
  match e1, e2 with
  | EOF, EOF | ErrUnexpectedEOF, ErrUnexpectedEOF
  | ErrShortWrite, ErrShortWrite | ECONNRESET, ECONNRESET => true
  | Errorf a, Errorf b | Panic a, Panic b => String.eqb a b
  | _, _ => false
  end.

(** ** Bytes and strings *)

Definition byteZ (b : byte) : Z := Z.of_N (Byte.to_N b).

(** [string(bs)] for a byte slice [bs], and [[]byte(s)]. *)
Definition string_of_bytes (bs : list byte) : string := string_of_list_byte bs.
Definition bytes_of_string (s : string) : list byte := list_byte_of_string s.

Fixpoint concat_str (l : list string) : string :=
  match l with
  | [] => ""
  | s :: r => s ++ concat_str r
  end.

Module strings.

(** [strings.Join]. *)
Fixpoint Join (l : list string) (sep : string) : string :=
  match l with
  | [] => ""
  | [s] => s
  | s :: r => s ++ sep ++ Join r sep
  end.

(** Whether every byte of [s] satisfies [p]. *)
Fixpoint All (p : ascii -> bool) (s : string) : bool :=
  match s with
  | EmptyString => true
  | String c r => p c && All p r
  end.

(** [strings.IndexByte(s, c) >= 0]. *)
Fixpoint ContainsByte (s : string) (c : ascii) : bool :=
  match s with
  | EmptyString => false
  | String a r => Ascii.eqb a c || ContainsByte r c
  end.

Definition lower (c : ascii) : ascii :=
  let n := N_of_ascii c in
  if ((65 <=? n) && (n <=? 90))%N then ascii_of_N (n + 32) else c.

Fixpoint ToLower (s : string) : string :=
  match s with
  | EmptyString => EmptyString
  | String c r => String (lower c) (ToLower r)
  end.

Definition isSpace (c : ascii) : bool :=
  let n := N_of_ascii c in (((9 <=? n) && (n <=? 13)) || (n =? 32))%N.

Fixpoint TrimLeft (s : string) : string :=
  match s with
  | EmptyString => EmptyString
  | String c r => if isSpace c then TrimLeft r else s
  end.

Fixpoint TrimRight (s : string) : string :=
  match s with
  | EmptyString => EmptyString
  | String c r =>
      match TrimRight r with
      | EmptyString => if isSpace c then EmptyString else String c EmptyString
      | r' => String c r'
      end
  end.

(** [strings.TrimSpace]. *)
Definition TrimSpace (s : string) : string := TrimRight (TrimLeft s).

Fixpoint trimBlankLeft (s : string) : string :=
  match s with
  | String " " r => trimBlankLeft r
  | _ => s
  end.

Fixpoint trimBlankRight (s : string) : string :=
  match s with
  | EmptyString => EmptyString
  | String c r =>
      match trimBlankRight r with
      | EmptyString => if Ascii.eqb c " " then EmptyString else String c EmptyString
      | r' => String c r'
      end
  end.

(** [strings.Trim(s, " ")]. *)
Definition TrimBlank (s : string) : string := trimBlankRight (trimBlankLeft s).

(** [strings.Split(s, sep)] for a separator of one byte. *)
Fixpoint Split (sep : ascii) (s : string) : list string :=
  match s with
  | EmptyString => [EmptyString]
  | String c r =>
      if Ascii.eqb c sep then EmptyString :: Split sep r
      else match Split sep r with
           | h :: t => String c h :: t
           | [] => [String c EmptyString]
           end
  end.

(** The text before and after the first byte of [s] that occurs in
    [cs]: [strings.IndexAny]. *)
Fixpoint cutAny (cs : string) (s : string) : option (string * string) :=
  match s with
  | EmptyString => None
  | String c r =>
      if strings.ContainsByte cs c then Some (EmptyString, r)
      else match cutAny cs r with
           | Some (a, b) => Some (String c a, b)
           | None => None
           end
  end.

(** The text before and after the last occurrence of [c]:
    [strings.LastIndexByte]. *)
Fixpoint cutLast (c : ascii) (s : string) : option (string * string) :=
  match s with
  | EmptyString => None
  | String a r =>
      match cutLast c r with
      | Some (x, y) => Some (String a x, y)
      | None => if Ascii.eqb a c then Some (EmptyString, r) else None
      end
  end.

Fixpoint lastChar (s : string) : option ascii :=
  match s with
  | EmptyString => None
  | String c EmptyString => Some c
  | String _ r => lastChar r
  end.

Fixpoint dropLast (s : string) : string :=
  match s with
  | EmptyString => EmptyString
  | String _ EmptyString => EmptyString
  | String c r => String c (dropLast r)
  end.

Fixpoint hasSub2 (a b : ascii) (s : string) : bool :=
  match s with
  | String x ((String y _) as r) => (Ascii.eqb x a && Ascii.eqb y b) || hasSub2 a b r
  | _ => false
  end.

End strings.

(** ** [strconv]: decimal rendering and parsing *)

Module strconv.

Definition digit (d : N) : ascii := ascii_of_N (48 + d).

Fixpoint utoa_aux (fuel : nat) (n : N) (acc : string) : string :=
  match fuel with
  | O => acc
  | S f =>
      let acc' := String (digit (n mod 10)) acc in
      if (n <? 10)%N then acc' else utoa_aux f (n / 10) acc'
  end.

(** Decimal digits of [n], most significant first, no leading zero. *)
Definition utoa (n : N) : string :=
  utoa_aux (S (N.to_nat (N.log2 n))) n "".

(** [strconv.Itoa], also the rendering of the verb [%d]. *)
Definition Itoa (z : Z) : string :=
  if z <? 0 then String "-" (utoa (Z.to_N (- z))) else utoa (Z.to_N z).

(** *** [strconv.ParseInt] *)

Definition isDigit (c : ascii) : bool :=
  let n := N_of_ascii c in ((48 <=? n) && (n <=? 57))%N.

(** The value of the digit [c], letters counting from ten. *)
Definition digitVal (c : ascii) : option Z :=
  let n := Z.of_N (N_of_ascii c) in
  let l := Z.of_N (N_of_ascii (strings.lower c)) in
  if isDigit c then Some (n - 48)
  else if (97 <=? l) && (l <=? 122) then Some (l - 97 + 10)
  else None.

Definition maxUint64 : Z := 18446744073709551615.

(** The digit loop of [ParseUint] for [bitSize = 64]: underscores are
    skipped when the base was inferred. *)
Fixpoint digits (base0 : bool) (base : Z) (s : string) (n : Z) : result Z :=
  match s with
  | EmptyString => Ok n
  | String c r =>
      if Ascii.eqb c "_" && base0 then digits base0 base r n
      else
        match digitVal c with
        | None => Err (Errorf "invalid syntax")
        | Some d =>
            if base <=? d then Err (Errorf "invalid syntax")
            else if maxUint64 / base + 1 <=? n then Err (Errorf "value out of range")
            else
              let n1 := n * base + d in
              if maxUint64 <? n1 then Err (Errorf "value out of range")
              else digits base0 base r n1
        end
  end.

(** [underscoreOK]: underscores only between digits or after a base
    prefix.  [saw] is the kind of the last character: [0] start, [1]
    digit or prefix, [2] underscore, [3] other. *)
Fixpoint underscoreScan (hex : bool) (s : string) (saw : nat) : bool :=
  match s with
  | EmptyString => negb (Nat.eqb saw 2)
  | String c r =>
      let l := Z.of_N (N_of_ascii (strings.lower c)) in
      if isDigit c || (hex && (97 <=? l) && (l <=? 102)) then underscoreScan hex r 1
      else if Ascii.eqb c "_" then
        if Nat.eqb saw 1 then underscoreScan hex r 2 else false
      else if Nat.eqb saw 2 then false
      else underscoreScan hex r 3
  end.

Definition underscoreOK (s : string) : bool :=
  let s := match s with
           | String "-" r | String "+" r => r
           | _ => s
           end in
  match s with
  | String "0" (String p r) =>
      let lp := strings.lower p in
      if Ascii.eqb lp "b" || Ascii.eqb lp "o" || Ascii.eqb lp "x"
      then underscoreScan (Ascii.eqb lp "x") r 1
      else underscoreScan false s 0
  | _ => underscoreScan false s 0
  end.

(** [strconv.ParseUint(s, 0, 64)]. *)
Definition ParseUint0 (s : string) : result Z :=
  match s with
  | EmptyString => Err (Errorf "invalid syntax")
  | String c r =>
      let (base, body) :=
        if Ascii.eqb c "0" then
          match r with
          | String p (String q r') =>
              let lp := strings.lower p in
              if Ascii.eqb lp "b" then (2, String q r')
              else if Ascii.eqb lp "o" then (8, String q r')
              else if Ascii.eqb lp "x" then (16, String q r')
              else (8, r)
          | _ => (8, r)
          end
        else (10, s) in
      do n <- digits true base body 0;
      if strings.ContainsByte body "_" && negb (underscoreOK s)
      then Err (Errorf "invalid syntax")
      else Ok n
  end.

(** [strconv.ParseInt(s, 0, 64)]. *)
Definition ParseInt0 (s : string) : result Z :=
  match s with
  | EmptyString => Err (Errorf "invalid syntax")
  | String c r =>
      let neg := Ascii.eqb c "-" in
      let body := if neg || Ascii.eqb c "+" then r else s in
      do un <- ParseUint0 body;
      let cutoff := 9223372036854775808 in
      if negb neg && (cutoff <=? un) then Err (Errorf "value out of range")
      else if neg && (cutoff <? un) then Err (Errorf "value out of range")
      else Ok (if neg then - un else un)
  end.

(** Decimal digits only, as [netip] reads octets and prefix lengths:
    no sign, no leading zero, at most [maxlen] digits. *)
Fixpoint decimal (s : string) (n : Z) : option Z :=
  match s with
  | EmptyString => Some n
  | String c r => if isDigit c then decimal r (n * 10 + (Z.of_N (N_of_ascii c) - 48)) else None
  end.

Definition plainDecimal (maxlen : nat) (s : string) : option Z :=
  match s with
  | EmptyString => None
  | String c r =>
      if Ascii.eqb c "0" && negb (String.eqb r "") then None
      else if Nat.leb (String.length s) maxlen then decimal s 0 else None
  end.

End strconv.

(** ** [net]: the parts of Go's [net] package the SOCKS code relies on *)

Module net.

(** [net.IP] is a byte slice of length 4 or 16. *)
Definition IP := list byte.

Definition v4InV6Prefix : list byte :=
  [x00; x00; x00; x00; x00; x00; x00; x00; x00; x00; xff; xff].

(** [net.IPv4(a, b, c, d)] allocates the 16-byte form: the IPv4 address
    sits in bytes 12..15 behind [v4InV6Prefix]. *)
Definition IPv4 (a b c d : byte) : IP := (v4InV6Prefix ++ [a; b; c; d])%list.

Definition allZero (l : list byte) : bool :=
  forallb (fun b => Byte.eqb b x00) l.

(** [ip.To4()]: the 4-byte form, or nil ([None]). *)
Definition To4 (ip : IP) : option (list byte) :=
  match ip with
  | [a; b; c; d] => Some [a; b; c; d]
  | [z0; z1; z2; z3; z4; z5; z6; z7; z8; z9; f0; f1; a; b; c; d] =>
      if allZero [z0; z1; z2; z3; z4; z5; z6; z7; z8; z9]
         && Byte.eqb f0 xff && Byte.eqb f1 xff
      then Some [a; b; c; d] else None
  | _ => None
  end.

Definition hexdigit (d : N) : ascii :=
  if (d <? 10)%N then ascii_of_N (48 + d) else ascii_of_N (87 + d).

Definition hexByte (b : byte) : string :=
  String (hexdigit (Byte.to_N b / 16)) (String (hexdigit (Byte.to_N b mod 16)) "").

(** Lower-case hexadecimal of a 16-bit group without leading zeros. *)
Definition hex16 (g : N) : string :=
  let d3 := (g / 4096)%N in
  let d2 := ((g / 256) mod 16)%N in
  let d1 := ((g / 16) mod 16)%N in
  let d0 := (g mod 16)%N in
  if (0 <? d3)%N then String (hexdigit d3) (String (hexdigit d2) (String (hexdigit d1) (String (hexdigit d0) "")))
  else if (0 <? d2)%N then String (hexdigit d2) (String (hexdigit d1) (String (hexdigit d0) ""))
  else if (0 <? d1)%N then String (hexdigit d1) (String (hexdigit d0) "")
  else String (hexdigit d0) "".

Fixpoint groups (ip : list byte) : list N :=
  match ip with
  | hi :: lo :: r => (Byte.to_N hi * 256 + Byte.to_N lo)%N :: groups r
  | _ => []
  end.

(** Length of the run of zero groups at the head of [gs]. *)
Fixpoint zeroRun (gs : list N) : nat :=
  match gs with
  | 0%N :: r => S (zeroRun r)
  | _ => O
  end.

(** The first longest run of at least two zero groups: [(start, end)]. *)
Fixpoint bestRun (gs : list N) (i : nat) (best : option (nat * nat)) : option (nat * nat) :=
  match gs with
  | [] => best
  | _ :: r =>
      let l := zeroRun gs in
      let better :=
        match best with
        | None => true
        | Some (s, e) => Nat.ltb (e - s) l
        end in
      bestRun r (S i) (if Nat.leb 2 l && better then Some (i, (i + l)%nat) else best)
  end.

Fixpoint string6_from (gs : list N) (i : nat) (run : option (nat * nat)) (skip : nat) : string :=
  match gs with
  | [] => ""
  | g :: r =>
      match skip with
      | S k => string6_from r (S i) run k
      | O =>
          match run with
          | Some (s, e) =>
              if Nat.eqb i s
              then "::" ++ string6_from r (S i) run (e - s - 1)
              else (if Nat.ltb 0 i && negb (Nat.eqb i e) then ":" else "")
                     ++ hex16 g ++ string6_from r (S i) run 0
          | None =>
              (if Nat.ltb 0 i then ":" else "") ++ hex16 g ++ string6_from r (S i) run 0
          end
      end
  end.

Definition string4 (a b c d : byte) : string :=
  strconv.utoa (Byte.to_N a) ++ "." ++ strconv.utoa (Byte.to_N b) ++ "."
    ++ strconv.utoa (Byte.to_N c) ++ "." ++ strconv.utoa (Byte.to_N d).

(** [ip.String()]. *)
Definition IP_String (ip : IP) : string :=
  match ip with
  | [] => "<nil>"
  | _ =>
      match To4 ip with
      | Some [a; b; c; d] => string4 a b c d
      | _ =>
          if Nat.eqb (List.length ip) 16
          then string6_from (groups ip) 0 (bestRun (groups ip) 0 None) 0
          else "?" ++ concat_str (map hexByte ip)
      end
  end.

(** [net.JoinHostPort]: brackets a host that holds a colon. *)
Definition JoinHostPort (host port : string) : string :=
  if strings.ContainsByte host ":"
  then "[" ++ host ++ "]:" ++ port
  else host ++ ":" ++ port.

End net.

(** ** Readers: a finite stream of bytes still to be delivered *)

Definition Reader := list byte.

(** [io.ReadFull(r, buf)] with [len(buf) = n]. *)
Definition ReadFull (n : nat) (r : Reader) : result (list byte * Reader) :=
  if Nat.leb n (List.length r) then Ok (firstn n r, skipn n r)
  else match r with
       | [] => Err EOF
       | _ => Err ErrUnexpectedEOF
       end.

(** ** Package socks4 *)

Module socks4.

Definition Socks4Version : byte := x04.
Definition ReplyVersion : byte := x00.

Definition Command := byte.
Definition ConnectCommand : Command := x01.
Definition BindCommand : Command := x02.

Record Address : Type := mkAddress {
  Name : string;
  IP : net.IP;
  Port : Z
}.

(** [Address.String] on a pointer receiver; [None] is the nil receiver. *)
Definition Address_String (a : option Address) : string :=
  match a with
  | None => "<nil>"
  | Some a =>
      let port := strconv.Itoa (Port a) in
      if Nat.ltb 0 (String.length (Name a))
      then net.JoinHostPort (Name a) port
      else net.JoinHostPort (net.IP_String (IP a)) port
  end.

Record Request : Type := mkRequest {
  Version : byte;
  Cmd : Command;
  DestAddr : Address;
  User : string
}.

Definition setName (req : Request) (n : string) : Request :=
  {| Version := Version req; Cmd := Cmd req; User := User req;
     DestAddr := {| Name := n; IP := IP (DestAddr req); Port := Port (DestAddr req) |} |}.

(** [ip[i]]; indexing outside the slice panics. *)
Definition index (ip : net.IP) (i : nat) : result byte :=
  match nth_error ip i with
  | Some b => Ok b
  | None => Err (Panic "index out of range")
  end.

(** [isSocks4a]: the conjunction is evaluated left to right and stops
    at the first false operand. *)
Definition isSocks4a (r : Request) : result bool :=
  let ip := IP (DestAddr r) in
  do b0 <- index ip 0;
  if negb (Byte.eqb b0 x00) then Ok false else
  do b1 <- index ip 1;
  if negb (Byte.eqb b1 x00) then Ok false else
  do b2 <- index ip 2;
  if negb (Byte.eqb b2 x00) then Ok false else
  do b3 <- index ip 3;
  Ok (negb (Byte.eqb b3 x00)).

(** [readUntilNull]: one byte per [Read] until a NUL; the bytes before
    it are returned, the NUL is consumed. *)
Fixpoint readUntilNull_from (r : Reader) (buf : list byte) : result (list byte * Reader) :=
  match r with
  | [] => Err EOF
  | b :: r' =>
      if Byte.eqb b x00 then Ok (buf, r')
      else readUntilNull_from r' (buf ++ [b])%list
  end.

Definition readUntilNull (r : Reader) : result (list byte * Reader) :=
  readUntilNull_from r [].

(** [binary.BigEndian.Uint16]. *)
Definition Uint16 (b0 b1 : byte) : Z :=
  Z.lor (Z.shiftl (byteZ b0) 8) (byteZ b1).

(** [NewRequest]: the request and the bytes left unread in the reader. *)
Definition NewRequest (r : Reader) : result (Request * Reader) :=
  do (header, r) <- ReadFull 2 r;
  match header with
  | [version; command] =>
      if negb (Byte.eqb version Socks4Version)
      then Err (Errorf ("unsupported SOCKS version: " ++ strconv.Itoa (byteZ version)))
      else
        do (addr, r) <- ReadFull 6 r;
        match addr with
        | [p0; p1; a; b; c; d] =>
            let port := Uint16 p0 p1 in
            let ip := net.IPv4 a b c d in
            do (user, r) <- readUntilNull r;
            let req := {| Version := version; Cmd := command;
                          User := string_of_bytes user;
                          DestAddr := {| Name := ""; IP := ip; Port := port |} |} in
            do is4a <- isSocks4a req;
            if is4a then
              do (domain, r) <- readUntilNull r;
              Ok (setName req (string_of_bytes domain), r)
            else Ok (req, r)
        | _ => Err (Panic "short address buffer")
        end
  | _ => Err (Panic "short header buffer")
  end.

(** The wire form of a SOCKS4a request as the protocol describes it. *)
Definition socks4aBytes (cmd p0 p1 x : byte) (user host : list byte) : list byte :=
  ([Socks4Version; cmd; p0; p1; x00; x00; x00; x] ++ user ++ [x00] ++ host ++ [x00])%list.

End socks4.

(** ** Package socks5 *)

Module socks5.

(** Modelled from the spec: the protocol constants of the package
    (declared in a file that is not part of the sources at hand).  The
    spec gives version [0x05] and the methods no-auth [0x00], GSSAPI
    [0x01], username/password [0x02], no acceptable method [0xFF]. *)
Definition socks5Version : byte := x05.
Definition noAuth : byte := x00.
Definition gssapiAuth : byte := x01.
Definition usernamePasswordAuth : byte := x02.
Definition noAcceptable : byte := xff.

Definition errNoSupportedAuth : error := Errorf "no supported authentication mechanism".

(** *** Connections

    A [net.Conn] seen from the server: the bytes the client still
    sends, the bytes written so far, and the error every [Write]
    returns when the peer is gone ([None]: writes succeed). *)
Record Conn : Type := mkConn {
  input : list byte;
  output : list byte;
  wfail : option error
}.

(** Computations over the connection that may fail. *)
Definition M (A : Type) : Type := Conn -> Conn * result A.

Definition ret {A} (a : A) : M A := fun c => (c, Ok a).
Definition fail {A} (e : error) : M A := fun c => (c, Err e).
Definition mbind {A B} (m : M A) (k : A -> M B) : M B :=
  fun c => match m c with
           | (c', Ok a) => k a c'
           | (c', Err e) => (c', Err e)
           end.

Notation "x <- m ;; k" := (mbind m (fun x => k))
  (at level 61, m at next level, right associativity).
Notation "m ;;; k" := (mbind m (fun _ => k))
  (at level 61, right associativity).

(** [conn.Write(bs)]. *)
Definition Write (bs : list byte) : M unit :=
  fun c => match wfail c with
           | Some e => (c, Err e)
           | None => ({| input := input c; output := (output c ++ bs)%list; wfail := None |}, Ok tt)
           end.

(** [io.ReadFull(conn, buf)] with [len(buf) = n]. *)
Definition readFull (n : nat) : M (list byte) :=
  fun c => match ReadFull n (input c) with
           | Ok (bs, rest) => ({| input := rest; output := output c; wfail := wfail c |}, Ok bs)
           | Err e => (c, Err e)
           end.

(** Modelled from the spec: [readByte] and [readBytes], the helpers
    that read one byte and one length-prefixed byte string (the file
    that defines them is not part of the sources at hand).  The spec
    gives the frames as [NMETHODS | METHODS], [ULEN | UNAME] and
    [PLEN | PASSWD]: a length byte followed by that many bytes. *)
Definition readByte : M byte :=
  bs <- readFull 1 ;;
  match bs with
  | [b] => ret b
  | _ => fail (Panic "short read")
  end.

Definition readBytes : M (list byte) :=
  n <- readByte ;;
  readFull (N.to_nat (Byte.to_N n)).

(** [bytes.IndexByte]. *)
Fixpoint IndexByte_from (b : list byte) (c : byte) (i : Z) : Z :=
  match b with
  | [] => -1
  | x :: r => if Byte.eqb x c then i else IndexByte_from r c (i + 1)
  end.
Definition IndexByte (b : list byte) (c : byte) : Z := IndexByte_from b c 0.

(** *** Credentials *)

(** The interface [CredentialStore] is its method [Valid]. *)
Definition CredentialStore := string -> string -> bool.

(** [StaticCredentials]: a map from user name to password. *)
Definition StaticCredentials := list (string * string).

Fixpoint lookup (s : StaticCredentials) (user : string) : option string :=
  match s with
  | [] => None
  | (u, p) :: r => if String.eqb u user then Some p else lookup r user
  end.

Definition StaticCredentials_Valid (s : StaticCredentials) : CredentialStore :=
  fun user password =>
    match lookup s user with
    | None => false
    | Some pass => String.eqb pass password
    end.

(** The fields of [Server] that negotiation reads. *)
Record Server : Type := mkServer {
  Credentials : option CredentialStore
}.

(** *** Method negotiation *)

Definition handleUsernamePasswordAuth (s : Server) : M unit :=
  version <- readByte ;;
  if negb (Byte.eqb version x01)
  then fail (Errorf ("unsupported auth version: " ++ strconv.Itoa (byteZ version)))
  else
    username <- readBytes ;;
    password <- readBytes ;;
    match Credentials s with
    | None => fail (Panic "nil pointer dereference")
    | Some valid =>
        if valid (string_of_bytes username) (string_of_bytes password)
        then Write [x01; x00]
        else Write [x01; x01] ;;; fail (Errorf "invalid username or password")
    end.

Definition has (methods : list byte) (m : byte) : bool :=
  negb (IndexByte methods m =? -1).

Definition isSome {A} (o : option A) : bool :=
  match o with Some _ => true | None => false end.

Definition authenticate (s : Server) : M unit :=
  methods <- readBytes ;;
  if has methods gssapiAuth then
    Write [socks5Version; gssapiAuth] ;;;
    fail (Errorf "GSSAPI authentication is not supported")
  else if isSome (Credentials s) && has methods usernamePasswordAuth then
    Write [socks5Version; usernamePasswordAuth] ;;;
    handleUsernamePasswordAuth s
  else if has methods noAuth then
    Write [socks5Version; noAuth]
  else
    Write [socks5Version; noAcceptable] ;;;
    fail errNoSupportedAuth.

(** *** The embedded UDP relay of [embedHandleAssociate] *)

(** Modelled from the spec: the type [address] of the package (declared
    in a file that is not part of the sources at hand); the sources use
    its fields [Name], [IP] and [Port]. *)
Record address : Type := mkAddr {
  Name : string;
  IP : net.IP;
  Port : Z
}.

(** [(&net.UDPAddr{IP: ip, Port: port}).String()]. *)
Definition UDPAddr_String (ip : net.IP) (port : Z) : string :=
  net.JoinHostPort (match ip with [] => "" | _ => net.IP_String ip end)
                   (strconv.Itoa port).

(** [copy(buf[off:off+len(src)], src)] on a buffer that is long enough. *)
Definition copyAt (buf : list byte) (off : nat) (src : list byte) : list byte :=
  (firstn off buf ++ src ++ skipn (off + List.length src) buf)%list.

Section Relay.

(** The sender addresses [ReadFrom] reports, with their [String]. *)
Variable NetAddr : Type.
Variable NetAddr_String : NetAddr -> string.

(** Helpers of the package defined outside the sources at hand:
    [readAddr] consumes an address from a buffer and leaves the unread
    bytes; [address.String]; [writeAddrWithStr] yields the bytes it
    appends for an address given as text. *)
Variable readAddr : list byte -> result (address * list byte).
Variable address_String : address -> string.
Variable writeAddrWithStr : string -> result (list byte).

(** The constant [maxUdpPacket], the size of the receive buffer. *)
Variable maxUdpPacket : nat.

Inductive dest : Type :=
| ToTarget (ip : net.IP) (port : Z)
| ToSource (a : NetAddr).

(** A call [udpConn.WriteTo(payload, dest)]. *)
Record write : Type := WriteTo { payload : list byte; to : dest }.

(** What [udpConn.ReadFrom] returns next, together with the result of
    the [WriteTo] the datagram gives rise to, if any. *)
Inductive event : Type :=
| Datagram (data : list byte) (from : NetAddr) (wres : option error)
| ReadError (e : error).

(** The local variables of the loop. *)
Record state : Type := mkState {
  sourceAddr : option NetAddr;
  wantSource : string;
  targetAddr : option (net.IP * Z);
  wantTarget : string;
  replyPrefix : option (list byte);
  buf : list byte
}.

Definition initial : state :=
  {| sourceAddr := None; wantSource := ""; targetAddr := None;
     wantTarget := ""; replyPrefix := None;
     buf := repeat x00 maxUdpPacket |}.

Inductive next : Type :=
| Continue (st : state)
| Return (e : error).

Definition setBuf (st : state) (b : list byte) : state :=
  {| sourceAddr := sourceAddr st; wantSource := wantSource st;
     targetAddr := targetAddr st; wantTarget := wantTarget st;
     replyPrefix := replyPrefix st; buf := b |}.

Definition setSource (st : state) (a : NetAddr) : state :=
  {| sourceAddr := Some a; wantSource := NetAddr_String a;
     targetAddr := targetAddr st; wantTarget := wantTarget st;
     replyPrefix := replyPrefix st; buf := buf st |}.

Definition setTarget (st : state) (ip : net.IP) (port : Z) : state :=
  {| sourceAddr := sourceAddr st; wantSource := wantSource st;
     targetAddr := Some (ip, port); wantTarget := UDPAddr_String ip port;
     replyPrefix := replyPrefix st; buf := buf st |}.

Definition setPrefix (st : state) (p : list byte) : state :=
  {| sourceAddr := sourceAddr st; wantSource := wantSource st;
     targetAddr := targetAddr st; wantTarget := wantTarget st;
     replyPrefix := Some p; buf := buf st |}.

(** After a write: go on, or return its error. *)
Definition after (st : state) (wres : option error) : next :=
  match wres with
  | None => Continue st
  | Some e => Return e
  end.

(** One iteration of the loop for a datagram [data0] from [from]. *)
Definition step (st : state) (data0 : list byte) (from : NetAddr)
           (wres : option error) : list write * next :=
  (* n, addr, err := udpConn.ReadFrom(buf[:]) *)
  let data := firstn maxUdpPacket data0 in
  let n := List.length data in
  let st := setBuf st (copyAt (buf st) 0 data) in
  let st := match sourceAddr st with
            | None => setSource st from
            | Some _ => st
            end in
  let gotAddr := NetAddr_String from in
  if String.eqb (wantSource st) gotAddr then
    (* packet from client to target *)
    if Nat.ltb n 3 then ([], Continue st)
    else
      (* reader := bytes.NewBuffer(buf[3:n]) *)
      match readAddr (skipn 3 (firstn n (buf st))) with
      | Err _ => ([], Continue st)
      | Ok (addr, unread) =>
          let st := match targetAddr st with
                    | None => setTarget st (IP addr) (Port addr)
                    | Some _ => st
                    end in
          if negb (String.eqb (address_String addr) (wantTarget st))
          then ([], Continue st)
          else
            match targetAddr st with
            | Some (ip, port) =>
                ([WriteTo unread (ToTarget ip port)], after st wres)
            | None => ([], Return (Panic "nil target"))
            end
      end
  else if isSome (targetAddr st) && String.eqb (wantTarget st) gotAddr then
    (* packet from target to client *)
    let mk :=
      match replyPrefix st with
      | Some p => Ok (st, p)
      | None =>
          match writeAddrWithStr (wantTarget st) with
          | Err e => Err e
          | Ok bs => let p := ([x00; x00; x00] ++ bs)%list in Ok (setPrefix st p, p)
          end
      end in
    match mk with
    | Err e => ([], Return e)
    | Ok (st, p) =>
        let lp := List.length p in
        if Nat.ltb maxUdpPacket (lp + n)
        then ([], Return (Panic "slice bounds out of range"))
        else
          (* copy(buf[lp:lp+n], buf[:n]); copy(buf[:lp], replyPrefix) *)
          let b1 := copyAt (buf st) lp (firstn n (buf st)) in
          let b2 := copyAt b1 0 p in
          let st := setBuf st b2 in
          match sourceAddr st with
          | Some src => ([WriteTo (firstn (lp + n) b2) (ToSource src)], after st wres)
          | None => ([], Return (Panic "nil source"))
          end
    end
  else ([], Continue st).

(** The loop over what the endpoint delivers.  The function returns
    only with an error; [None] when the events are used up and the
    loop is blocked in [ReadFrom].  Every [WriteTo] is logged with
    the datagram [buf[:n]] whose iteration made it. *)
Fixpoint relay (st : state) (evs : list event) : list (list byte * write) * option error :=
  match evs with
  | [] => ([], None)
  | ReadError e :: _ => ([], Some e)
  | Datagram data from wres :: rest =>
      let tag := map (fun w => (firstn maxUdpPacket data, w)) in
      match step st data from wres with
      | (ws, Return e) => (tag ws, Some e)
      | (ws, Continue st') =>
          let (ws', r) := relay st' rest in ((tag ws ++ ws')%list, r)
      end
  end.

Definition embedHandleAssociate (evs : list event) : list (list byte * write) * option error :=
  relay initial evs.

(** The state without the receive buffer. *)
Definition locals (nx : next) : next :=
  match nx with
  | Continue st => Continue (setBuf st [])
  | Return e => Return e
  end.

(** Whether the loop treats a datagram from [from] as coming from the
    client: it is the first datagram, or its sender prints as the
    fixed source. *)
Definition fromClient (st : state) (from : NetAddr) : bool :=
  match sourceAddr st with
  | None => true
  | Some _ => String.eqb (wantSource st) (NetAddr_String from)
  end.

End Relay.

(** The method the negotiation rule of the specification selects, the
    GSSAPI clause left aside: username/password when credentials are
    configured and it is offered, else no-auth when offered, else
    [0xFF]. *)
Definition specSelection (credentials : bool) (methods : list byte) : byte :=
  if credentials && existsb (Byte.eqb usernamePasswordAuth) methods then usernamePasswordAuth
  else if existsb (Byte.eqb noAuth) methods then noAuth
  else noAcceptable.

End socks5.



(** ** Package wiresocks, [vtun.go] *)

Module vtun.

(** *** The byte pump *)

(** What the two connections answer in one iteration of the loop of
    [copyConnTimeout]: the result of [src.SetReadDeadline], of
    [src.Read], and of [dst.Write] (consulted only when data was read). *)
Record iteration : Type := mkIter {
  deadlineErr : option error;
  nr : Z;
  er : option error;
  nw : Z;
  ew : option error
}.

Inductive outcome : Type :=
| Returned (written : Z) (err : option error)
| Panicked (msg : string)
| Blocked.                   (* the script is used up: the loop is still reading *)

Definition errInvalidWrite : error := Errorf "invalid write result".

(** The body of the [for] loop: [inl] to go round again with the new
    count, [inr] when the loop is left. *)
Definition copyIteration (it : iteration) (written : Z) : Z + (Z * option error) :=
  match deadlineErr it with
  | Some e => inr (written, Some e)
  | None =>
      let afterRead (written : Z) : Z + (Z * option error) :=
        match er it with
        | Some e =>
            if error_eqb e EOF then inr (written, None) else inr (written, Some e)
        | None => inl written
        end in
      if 0 <? nr it then
        let bad := (nw it <? 0) || (nr it <? nw it) in
        let nw' := if bad then 0 else nw it in
        let ew' := if bad then match ew it with
                               | None => Some errInvalidWrite
                               | Some e => Some e
                               end
                   else ew it in
        let written := written + nw' in
        match ew' with
        | Some e => inr (written, Some e)
        | None =>
            if negb (nr it =? nw') then inr (written, Some ErrShortWrite)
            else afterRead written
        end
      else afterRead written
  end.

Fixpoint copyLoop (script : list iteration) (written : Z) : outcome :=
  match script with
  | [] => Blocked
  | it :: rest =>
      match copyIteration it written with
      | inl written' => copyLoop rest written'
      | inr (w, e) => Returned w e
      end
  end.

(** [copyConnTimeout(dst, src, buf, timeout)]: [buflen] is [None] for a
    nil buffer, else the length of [buf]; the timeout only fixes the
    deadline handed to [SetReadDeadline]. *)
Definition copyConnTimeout (buflen : option Z) (timeout : Z)
           (script : list iteration) : outcome :=
  match buflen with
  | Some 0 => Panicked "empty buffer in CopyBuffer"
  | _ => copyLoop script 0
  end.

(** An iteration after which the loop goes round again. *)
Definition continues (it : iteration) : Prop :=
  deadlineErr it = None /\ er it = None /\
  (nr it <= 0 \/ (ew it = None /\ nw it = nr it)).

(** The bytes an iteration that read [nr] bytes and wrote them all adds
    to the count. *)
Definition moved (it : iteration) : Z := Z.max 0 (nr it).

Definition total (its : list iteration) : Z :=
  fold_right (fun it acc => moved it + acc) 0 its.

(** Why a copy ended with the error [e] in the iteration [it]. *)
Inductive cause (it : iteration) (e : error) : Prop :=
| DeadlineFailed : deadlineErr it = Some e -> cause it e
| WriteError : deadlineErr it = None -> 0 < nr it -> ew it = Some e -> cause it e
| InvalidWrite : deadlineErr it = None -> 0 < nr it -> ew it = None ->
                 (nw it < 0 \/ nr it < nw it) -> e = errInvalidWrite -> cause it e
| ShortWrite : deadlineErr it = None -> 0 < nr it -> ew it = None ->
               0 <= nw it < nr it -> e = ErrShortWrite -> cause it e
| ReadFailed : deadlineErr it = None -> er it = Some e -> error_eqb e EOF = false ->
               cause it e.

(** *** The forwarding handler *)

(** The fields of [statute.ProxyRequest] the handler reads. *)
Record ProxyRequest : Type := mkProxyRequest {
  Network : string;
  Destination : string
}.

(** What the handler meets: the result of the dial through the
    tunnel, what the connections answer to each copier, and which of
    the two copiers sends on [done] first. *)
Record world : Type := mkWorld {
  dial : option error;
  clientToTunnel : list iteration;
  tunnelToClient : list iteration;
  clientFirst : bool
}.

Inductive handled : Type :=
| Done (err : option error) (warnings : list error)
| Crashed (msg : string)
| Waiting.                   (* blocked on the channel [done] *)

Definition udpTimeout (network : string) : Z :=
  if String.eqb network "udp" || String.eqb network "udp4" || String.eqb network "udp6"
  then 15 else 0.

Definition BuffSize : Z := 65536.

(** The value a copier sends on [done]; the first copier turns
    [ECONNRESET] into nil. *)
Definition sent (suppressReset : bool) (o : outcome) : option (option error) :=
  match o with
  | Returned _ (Some e) =>
      if suppressReset && error_eqb e ECONNRESET then Some None else Some (Some e)
  | Returned _ None => Some None
  | _ => None
  end.

Definition crashed (o : outcome) : option string :=
  match o with Panicked m => Some m | _ => None end.

Definition handler (req : ProxyRequest) (w : world) : handled :=
  match dial w with
  | Some e => Done (Some e) []
  | None =>
      let timeout := udpTimeout (Network req) in
      let c1 := copyConnTimeout (Some BuffSize) timeout (clientToTunnel w) in
      let c2 := copyConnTimeout (Some BuffSize) timeout (tunnelToClient w) in
      match crashed c1, crashed c2 with
      | Some m, _ | _, Some m => Crashed m
      | None, None =>
          let (o1, o2) := if clientFirst w then (sent true c1, sent false c2)
                          else (sent false c2, sent true c1) in
          (* err = <-done *)
          match o1, o2 with
          | None, None => Waiting
          | Some v, second | second, Some v =>
              let warnings := match v with Some e => [e] | None => [] end in
              (* <-done *)
              match second with
              | None => Waiting
              | Some _ => Done None warnings
              end
          end
      end
  end.

(** The result the specification asks for once both copiers are back:
    the first non-nil error in the order of arrival, or nil. *)
Definition firstError (first second : option error) : option error :=
  match first with
  | Some e => Some e
  | None => second
  end.

End vtun.

(** ** [encoding/hex] and [encoding/base64] *)

Definition mkbyte (z : Z) : byte :=
  match Byte.of_N (Z.to_N z) with
  | Some b => b
  | None => x00
  end.

Module hex.

Definition hexdigit (d : Z) : ascii :=
  if d <? 10 then ascii_of_N (Z.to_N (48 + d)) else ascii_of_N (Z.to_N (87 + d)).

(** [hex.EncodeToString]: two lower-case digits per byte. *)
Fixpoint EncodeToString (bs : list byte) : string :=
  match bs with
  | [] => ""
  | b :: r => String (hexdigit (byteZ b / 16)) (String (hexdigit (byteZ b mod 16)) (EncodeToString r))
  end.

Definition fromHexChar (c : ascii) : option Z :=
  let n := Z.of_N (N_of_ascii c) in
  if (48 <=? n) && (n <=? 57) then Some (n - 48)
  else if (97 <=? n) && (n <=? 102) then Some (n - 97 + 10)
  else if (65 <=? n) && (n <=? 70) then Some (n - 65 + 10)
  else None.

(** [hex.DecodeString]. *)
Fixpoint DecodeString (s : string) : result (list byte) :=
  match s with
  | EmptyString => Ok []
  | String a (String b r) =>
      match fromHexChar a, fromHexChar b with
      | Some h, Some l =>
          do bs <- DecodeString r;
          Ok (mkbyte (h * 16 + l) :: bs)
      | _, _ => Err (Errorf "encoding/hex: invalid byte")
      end
  | String _ EmptyString => Err (Errorf "encoding/hex: odd length hex string")
  end.

End hex.

Module base64.

(** The alphabet of [base64.StdEncoding]. *)
Definition encodeStd : string :=
  "ABCDEFGHIJKLMNOPQRSTUVWXYZabcdefghijklmnopqrstuvwxyz0123456789+/".

Definition enc (i : Z) : ascii :=
  match String.get (Z.to_nat i) encodeStd with
  | Some c => c
  | None => "="%char
  end.

Fixpoint indexOf (c : ascii) (s : string) (i : Z) : option Z :=
  match s with
  | EmptyString => None
  | String a r => if Ascii.eqb a c then Some i else indexOf c r (i + 1)
  end.

Definition dec (c : ascii) : option Z := indexOf c encodeStd 0.

(** [StdEncoding.EncodeToString]: three bytes give four characters;
    the last group is padded with [=]. *)
Fixpoint EncodeToString (bs : list byte) : string :=
  match bs with
  | [] => ""
  | [b0] =>
      let v0 := byteZ b0 in
      String (enc (v0 / 4)) (String (enc (v0 mod 4 * 16)) "==")
  | [b0; b1] =>
      let v0 := byteZ b0 in let v1 := byteZ b1 in
      String (enc (v0 / 4)) (String (enc (v0 mod 4 * 16 + v1 / 16))
        (String (enc (v1 mod 16 * 4)) "="))
  | b0 :: b1 :: b2 :: r =>
      let v0 := byteZ b0 in let v1 := byteZ b1 in let v2 := byteZ b2 in
      String (enc (v0 / 4)) (String (enc (v0 mod 4 * 16 + v1 / 16))
        (String (enc (v1 mod 16 * 4 + v2 / 64)) (String (enc (v2 mod 64))
          (EncodeToString r))))
  end.

(** The decoder skips carriage returns and line feeds. *)
Fixpoint stripNewlines (s : string) : string :=
  match s with
  | EmptyString => EmptyString
  | String c r =>
      if Ascii.eqb c "010" || Ascii.eqb c "013" then stripNewlines r
      else String c (stripNewlines r)
  end.

Definition corrupt {A} : result A := Err (Errorf "illegal base64 data").

(** Groups of four characters; padding is accepted in the last group
    only, and the bits a padded group leaves over are not checked. *)
Fixpoint decodeQuanta (s : string) : result (list byte) :=
  match s with
  | EmptyString => Ok []
  | String c0 (String c1 (String c2 (String c3 r))) =>
      match dec c0, dec c1 with
      | Some s0, Some s1 =>
          let b0 := mkbyte (s0 * 4 + s1 / 16) in
          if Ascii.eqb c2 "=" then
            if Ascii.eqb c3 "=" then
              match r with EmptyString => Ok [b0] | _ => corrupt end
            else corrupt
          else
            match dec c2 with
            | None => corrupt
            | Some s2 =>
                let b1 := mkbyte (s1 mod 16 * 16 + s2 / 4) in
                if Ascii.eqb c3 "=" then
                  match r with EmptyString => Ok [b0; b1] | _ => corrupt end
                else
                  match dec c3 with
                  | None => corrupt
                  | Some s3 =>
                      let b2 := mkbyte (s2 mod 4 * 64 + s3) in
                      do bs <- decodeQuanta r;
                      Ok (b0 :: b1 :: b2 :: bs)
                  end
            end
      | _, _ => corrupt
      end
  | _ => corrupt
  end.

(** [StdEncoding.DecodeString]. *)
Definition DecodeString (s : string) : result (list byte) :=
  decodeQuanta (stripNewlines s).

End base64.

(** ** go-ini: the reader of configuration files

    A model of [ini.LoadSources] under the options the repository sets
    ([Insensitive], [AllowShadows], [AllowNonUniqueSections]) for the
    line-oriented syntax of wg-quick files: section headers, [key = value]
    and [key : value] lines, full-line and inline comments opened by [#]
    or [;], values in back quotes, removal of one pair of surrounding
    quotes, and ASCII white space.  Constructs of go-ini beyond that
    (quoted key names, values opened by three double quotes, continuation
    lines, unterminated back quotes, [%(name)s] references) are reported
    as errors by [unmodelled]. *)

Module ini.

Definition unmodelled {A} : result A :=
  Err (Errorf "ini: construct outside the modelled syntax").

(** [hasSurroundedQuote]: the quote opens and closes the text and does
    not occur in between. *)
Definition hasSurroundedQuote (s : string) (q : ascii) : bool :=
  match s with
  | String c r =>
      Ascii.eqb c q
      && match strings.lastChar r with Some l => Ascii.eqb l q | None => false end
      && negb (strings.ContainsByte (strings.dropLast r) q)
  | EmptyString => false
  end.

(** The value of a line that is not in back quotes: white space and an
    inline comment are cut off, then one pair of surrounding quotes. *)
Definition readUnquoted (line : string) : result string :=
  let line := strings.TrimSpace line in
  match strings.lastChar line with
  | Some c =>
      (* a line ending in a backslash is continued on the next one *)
      if Ascii.eqb c "\" then unmodelled
      else
        let line := match strings.cutAny "#;" line with
                    | Some (v, _) => strings.TrimSpace v
                    | None => line
                    end in
        if hasSurroundedQuote line "'" || hasSurroundedQuote line "034"
        then Ok (strings.dropLast (match line with String _ r => r | EmptyString => EmptyString end))
        else Ok line
  | None => Ok EmptyString
  end.

Definition opensTripleQuote (line : string) : bool :=
  match line with
  | String a (String b (String c (String _ _))) =>
      Ascii.eqb a "034" && Ascii.eqb b "034" && Ascii.eqb c "034"
  | _ => false
  end.

(** [parser.readValue] on the text after the delimiter. *)
Definition readValue (rest : string) : result string :=
  match strings.TrimLeft rest with
  | EmptyString => Ok EmptyString
  | String c body =>
      if Ascii.eqb c "`" then
        match strings.cutLast "`" body with
        | Some (v, _) => Ok v
        | None => unmodelled
        end
      else if opensTripleQuote (String c body) then unmodelled
      else readUnquoted (String c body)
  end.

Inductive item : Type :=
| Skip
| Header (name : string)
| KV (name value : string).

(** A line that is neither blank, a comment nor a header. *)
Definition keyValue (l : string) : result item :=
  match strings.cutAny "=:" l with
  | None => Err (Errorf "key-value delimiter not found")
  | Some (EmptyString, _) => Err (Errorf "empty key name")
  | Some (k, rest) =>
      do v <- readValue rest;
      if strings.hasSub2 "%" "(" v then unmodelled
      else Ok (KV (strings.TrimSpace k) v)
  end.

(** One line of the file. *)
Definition classify (line : string) : result item :=
  match strings.TrimLeft line with
  | EmptyString => Ok Skip
  | String c r =>
      if Ascii.eqb c "#" || Ascii.eqb c ";" then Ok Skip
      else if Ascii.eqb c "[" then
        match strings.cutLast "]" r with
        | Some (name, _) =>
            match name with
            | EmptyString => Err (Errorf "empty section name")
            | _ => Ok (Header name)
            end
        | None => Err (Errorf "unclosed section")
        end
      else if Ascii.eqb c "034" || Ascii.eqb c "`" then unmodelled
      else keyValue (String c r)
  end.

(** A key with its value and the shadows added by repeated lines. *)
Record Key : Type := mkKey {
  kname : string;
  value : string;
  shadows : list string
}.

Record Section : Type := mkSection {
  sname : string;
  keys : list Key
}.

Definition File := list Section.

Definition DefaultSection : string := "DEFAULT".

(** [Key.addShadow]: a value already present is not added again. *)
Definition addShadow (k : Key) (v : string) : Key :=
  if String.eqb (value k) v || existsb (String.eqb v) (shadows k) then k
  else {| kname := kname k; value := value k; shadows := (shadows k ++ [v])%list |}.

(** [Section.NewKey] with lower-cased names and shadows allowed. *)
Fixpoint newKeyIn (ks : list Key) (name v : string) : list Key :=
  match ks with
  | [] => [mkKey name v []]
  | k :: r =>
      if String.eqb (kname k) name then addShadow k v :: r
      else k :: newKeyIn r name v
  end.

Definition NewKey (s : Section) (name v : string) : Section :=
  {| sname := sname s; keys := newKeyIn (keys s) (strings.ToLower name) v |}.

(** [File.NewSection]: names are lower-cased, the default section
    apart; every header opens a section of its own. *)
Definition NewSection (name : string) : Section :=
  {| sname := if String.eqb name DefaultSection then name else strings.ToLower name;
     keys := [] |}.

(** The sections in file order: [cur] is the section being filled. *)
Fixpoint assemble (items : list item) (cur : Section) : File :=
  match items with
  | [] => [cur]
  | Skip :: r => assemble r cur
  | Header n :: r => cur :: assemble r (NewSection n)
  | KV k v :: r => assemble r (NewKey cur k v)
  end.

Fixpoint mapM {A B} (f : A -> result B) (l : list A) : result (list B) :=
  match l with
  | [] => Ok []
  | a :: r => do b <- f a; do bs <- mapM f r; Ok (b :: bs)
  end.

(** [ini.LoadSources(iniOpt, source)] on the content of the file. *)
Definition LoadSources (src : string) : result File :=
  do items <- mapM classify (strings.Split "010" src);
  Ok (assemble items (NewSection DefaultSection)).

(** [File.SectionsByName]: an error when there is none. *)
Definition SectionsByName (f : File) (name : string) : result (list Section) :=
  match filter (fun s => String.eqb (sname s) (strings.ToLower name)) f with
  | [] => Err (Errorf "section does not exist")
  | l => Ok l
  end.

(** [Section.GetKey]. *)
Definition GetKey (s : Section) (name : string) : result Key :=
  match find (fun k => String.eqb (kname k) (strings.ToLower name)) (keys s) with
  | Some k => Ok k
  | None => Err (Errorf "key not exists")
  end.

(** [Section.Key]: a missing key is created with an empty value. *)
Definition GetOrNew (s : Section) (name : string) : Key :=
  match GetKey s name with
  | Ok k => k
  | Err _ => mkKey (strings.ToLower name) "" []
  end.

(** [Key.String]. *)
Definition Key_String (k : Key) : string := value k.

(** [Key.ValueWithShadows]. *)
Definition ValueWithShadows (k : Key) : list string :=
  match shadows k with
  | [] => match value k with EmptyString => [] | v => [v] end
  | sh => value k :: sh
  end.

(** [Key.StringsWithShadows(",")]. *)
Definition StringsWithShadows (k : Key) : list string :=
  map strings.TrimBlank (flat_map (strings.Split ",") (ValueWithShadows k)).

(** [Key.Int]. *)
Definition Key_Int (k : Key) : result Z := strconv.ParseInt0 (Key_String k).

(** *** Values that survive being written to a file *)

Definition isAlnum (c : ascii) : bool :=
  let n := N_of_ascii c in
  (((48 <=? n) && (n <=? 57)) || ((65 <=? n) && (n <=? 90)) || ((97 <=? n) && (n <=? 122)))%N.

(** Letters, digits and the punctuation of keys, numbers and addresses. *)
Definition safeChar (c : ascii) : bool :=
  isAlnum c || strings.ContainsByte ".:/+=-_%" c.

(** An entry of a comma-separated list. *)
Definition token (s : string) : bool :=
  match s with
  | EmptyString => false
  | _ => strings.All safeChar s
  end.

(** A value [v] that [key = v] gives back: it holds no line feed, the
    reader returns it unchanged, and it holds no reference to another
    key. *)
Definition plainValue (v : string) : Prop :=
  strings.ContainsByte v "010" = false
  /\ readValue (String " " v) = Ok v
  /\ strings.hasSub2 "%" "(" v = false.

End ini.


(** ** [net/netip]: addresses and prefixes

    The configuration code uses [netip.Addr] and [netip.Prefix] through
    their parsing and printing functions only.  [Ops] is that interface;
    [ipv4] further down implements it for IPv4, and [ip6] for both
    families with zones. *)

Module netip.

Class Ops : Type := {
  Addr : Type;
  Prefix : Type;
  ParseAddr : string -> result Addr;
  ParsePrefix : string -> result Prefix;
  Addr_String : Addr -> string;
  Prefix_String : Prefix -> string;
  Addr_Is4 : Addr -> bool;
  Addr_IsValid : Addr -> bool;
  Prefix_IsValid : Prefix -> bool;
  PrefixFrom : Addr -> Z -> Prefix;
  Prefix_Addr : Prefix -> Addr
}.

(** What the configuration code relies on: values that come out of
    the parsers are valid; a valid value is read back from its text; and
    the text of a valid prefix is made of letters, digits, dots, colons
    and a slash. *)
Record Laws (O : Ops) : Prop := {
  ParsePrefix_valid : forall s p, ParsePrefix s = Ok p -> Prefix_IsValid p = true;
  ParseAddr_valid : forall s a, ParseAddr s = Ok a -> Addr_IsValid a = true;
  PrefixFrom_valid : forall a, Addr_IsValid a = true ->
    Prefix_IsValid (PrefixFrom a (if Addr_Is4 a then 32 else 128)) = true;
  ParsePrefix_String : forall p, Prefix_IsValid p = true -> ParsePrefix (Prefix_String p) = Ok p;
  ParseAddr_String : forall a, Addr_IsValid a = true -> ParseAddr (Addr_String a) = Ok a;
  Prefix_String_token : forall p, Prefix_IsValid p = true -> ini.token (Prefix_String p) = true
}.

End netip.

(** ** An implementation of the [netip] interface for IPv4 *)

Module ipv4.

Record Addr : Type := mkAddr4 { o0 : byte; o1 : byte; o2 : byte; o3 : byte }.

(** The address and the prefix length; [-1] marks the invalid prefix. *)
Record Prefix : Type := mkPrefix { paddr : Addr; bits : Z }.

(** One field of a dotted quad: decimal, no leading zero, at most 255. *)
Definition octet (s : string) : option byte :=
  match strconv.plainDecimal 3 s with
  | Some n => if n <=? 255 then Some (mkbyte n) else None
  | None => None
  end.

Definition ParseAddr (s : string) : result Addr :=
  match strings.Split "." s with
  | [a; b; c; d] =>
      match octet a, octet b, octet c, octet d with
      | Some a, Some b, Some c, Some d => Ok (mkAddr4 a b c d)
      | _, _, _, _ => Err (Errorf "ParseAddr: bad IPv4 field")
      end
  | _ => Err (Errorf "ParseAddr: unable to parse IP")
  end.

Definition Addr_String (a : Addr) : string :=
  net.string4 (o0 a) (o1 a) (o2 a) (o3 a).

Definition PrefixFrom (a : Addr) (b : Z) : Prefix :=
  mkPrefix a (if (0 <=? b) && (b <=? 32) then b else -1).

Definition ParsePrefix (s : string) : result Prefix :=
  match strings.cutLast "/" s with
  | None => Err (Errorf "ParsePrefix: no '/'")
  | Some (ip, bitsStr) =>
      do a <- ParseAddr ip;
      match strconv.plainDecimal 3 bitsStr with
      | None => Err (Errorf "ParsePrefix: bad bits after slash")
      | Some b =>
          if 32 <? b then Err (Errorf "ParsePrefix: prefix length out of range")
          else Ok (PrefixFrom a b)
      end
  end.

Definition Prefix_IsValid (p : Prefix) : bool := (0 <=? bits p) && (bits p <=? 32).

Definition Prefix_String (p : Prefix) : string :=
  if Prefix_IsValid p then Addr_String (paddr p) ++ "/" ++ strconv.Itoa (bits p)
  else "invalid Prefix".

Definition ops : netip.Ops :=
  {| netip.Addr := Addr;
     netip.Prefix := Prefix;
     netip.ParseAddr := ParseAddr;
     netip.ParsePrefix := ParsePrefix;
     netip.Addr_String := Addr_String;
     netip.Prefix_String := Prefix_String;
     netip.Addr_Is4 := fun _ => true;
     netip.Addr_IsValid := fun _ => true;
     netip.Prefix_IsValid := Prefix_IsValid;
     netip.PrefixFrom := PrefixFrom;
     netip.Prefix_Addr := paddr |}.

End ipv4.

(** ** An implementation of the [netip] interface with IPv6 and zones *)

Module ip6.

(** [netip.Addr]: the zero value, an IPv4 address, or the eight 16-bit
    groups of an IPv6 address with its zone, empty when it has none. *)
Inductive Addr : Type :=
| z0
| z4 (a : ipv4.Addr)
| z6 (groups : list Z) (zone : string).

(** The first of the bytes [.], [:] and [%] in [s]. *)
Fixpoint firstMark (s : string) : option ascii :=
  match s with
  | EmptyString => None
  | String c r =>
      if Ascii.eqb c "." || Ascii.eqb c ":" || Ascii.eqb c "%" then Some c
      else firstMark r
  end.

Definition hexVal (c : ascii) : option Z :=
  let n := Z.of_N (N_of_ascii c) in
  if (48 <=? n) && (n <=? 57) then Some (n - 48)
  else if (97 <=? n) && (n <=? 102) then Some (n - 97 + 10)
  else if (65 <=? n) && (n <=? 70) then Some (n - 65 + 10)
  else None.

(** The hex digits [s] starts with: how many, their value, and the
    text behind them. *)
Fixpoint hexRun (s : string) (off : nat) (acc : Z) : nat * Z * string :=
  match s with
  | EmptyString => (off, acc, s)
  | String c r =>
      match hexVal c with
      | Some v => hexRun r (S off) (acc * 16 + v)
      | None => (off, acc, s)
      end
  end.

(** The loop of [parseIPv6] over the groups; [missing] counts the
    groups not yet read, and the result is the text left over, the groups read
    and the place of the ellipsis. *)
Fixpoint groupLoop (missing : nat) (s : string) (ip : list Z) (ellipsis : option nat)
  : result (string * list Z * option nat) :=
  match missing with
  | O => Ok (s, ip, ellipsis)
  | S missing =>
      let '(off, acc, rest) := hexRun s 0 0 in
      if Nat.ltb 4 off then Err (Errorf "each group must have 4 or less digits")
      else if 65535 <? acc then Err (Errorf "IPv6 field has value >=2^16")
      else if Nat.eqb off 0
      then Err (Errorf "each colon-separated field must have at least one digit")
      else
        match rest with
        | String "." _ =>
            if match ellipsis with None => negb (Nat.eqb (List.length ip) 6) | Some _ => false end
            then Err (Errorf "embedded IPv4 address must replace the final 2 fields of the address")
            else if Nat.ltb 8 (List.length ip + 2)
            then Err (Errorf "too many hex fields to fit an embedded IPv4 at the end of the address")
            else
              do a <- ipv4.ParseAddr s;
              Ok (EmptyString,
                  (ip ++ [byteZ (ipv4.o0 a) * 256 + byteZ (ipv4.o1 a);
                          byteZ (ipv4.o2 a) * 256 + byteZ (ipv4.o3 a)])%list,
                  ellipsis)
        | EmptyString => Ok (EmptyString, (ip ++ [acc])%list, ellipsis)
        | String c EmptyString =>
            if Ascii.eqb c ":" then Err (Errorf "colon must be followed by more characters")
            else Err (Errorf "unexpected character, want colon")
        | String c (String d r) =>
            if negb (Ascii.eqb c ":") then Err (Errorf "unexpected character, want colon")
            else if Ascii.eqb d ":" then
              match ellipsis with
              | Some _ => Err (Errorf "multiple :: in address")
              | None =>
                  match r with
                  | EmptyString =>
                      Ok (EmptyString, (ip ++ [acc])%list, Some (S (List.length ip)))
                  | _ => groupLoop missing r (ip ++ [acc])%list (Some (S (List.length ip)))
                  end
              end
            else groupLoop missing (String d r) (ip ++ [acc])%list ellipsis
        end
  end.

Definition parseIPv6 (input : string) : result Addr :=
  let (s, zone) := match strings.cutAny "%" input with
                   | Some (s, zone) => (s, Some zone)
                   | None => (input, None)
                   end in
  match zone with
  | Some EmptyString => Err (Errorf "zone must be a non-empty string")
  | _ =>
      let zone := match zone with Some z => z | None => EmptyString end in
      let (s, ellipsis) := match s with
                           | String ":" (String ":" r) => (r, Some O)
                           | _ => (s, None)
                           end in
      match s, ellipsis with
      | EmptyString, Some _ => Ok (z6 (repeat 0 8) zone)
      | _, _ =>
          do r <- groupLoop 8 s [] ellipsis;
          let '(s, ip, ellipsis) := r in
          match s with
          | String _ _ => Err (Errorf "trailing garbage after address")
          | EmptyString =>
              if Nat.ltb (List.length ip) 8 then
                match ellipsis with
                | None => Err (Errorf "address string too short")
                | Some e =>
                    Ok (z6 (firstn e ip ++ repeat 0 (8 - List.length ip) ++ skipn e ip)%list zone)
                end
              else
                match ellipsis with
                | Some _ => Err (Errorf "the :: must expand to at least one field of zeros")
                | None => Ok (z6 ip zone)
                end
          end
      end
  end.

Definition ParseAddr (s : string) : result Addr :=
  match firstMark s with
  | Some "."%char => do a <- ipv4.ParseAddr s; Ok (z4 a)
  | Some ":"%char => parseIPv6 s
  | Some _ => Err (Errorf "missing IPv6 address")
  | None => Err (Errorf "unable to parse IP")
  end.

Definition hexDigit (v : Z) : string :=
  match String.get (Z.to_nat v) "0123456789abcdef" with
  | Some c => String c EmptyString
  | None => EmptyString
  end.

(** [appendHex]: lower case, no leading zero. *)
Definition appendHex (x : Z) : string :=
  (if 4096 <=? x then hexDigit (Z.shiftr x 12) else "")
  ++ (if 256 <=? x then hexDigit (Z.land (Z.shiftr x 8) 15) else "")
  ++ (if 16 <=? x then hexDigit (Z.land (Z.shiftr x 4) 15) else "")
  ++ hexDigit (Z.land x 15).

Fixpoint zerosFrom (gs : list Z) : nat :=
  match gs with
  | 0 :: r => S (zerosFrom r)
  | _ => O
  end.

(** The first longest run of two or more zero groups, from [i] on. *)
Fixpoint zeroRun (gs : list Z) (i : nat) (best : nat * nat) : nat * nat :=
  match gs with
  | [] => best
  | _ :: r =>
      let l := zerosFrom gs in
      zeroRun r (S i)
        (if Nat.leb 2 l && Nat.ltb (snd best - fst best) l then (i, (i + l)%nat) else best)
  end.

(** The loop of [appendTo6] from the group [i] on. *)
Fixpoint write6 (fuel i : nat) (gs : list Z) (zeroStart zeroEnd : nat) : string :=
  match fuel with
  | O => ""
  | S fuel =>
      if Nat.leb 8 i then ""
      else if Nat.eqb i zeroStart then
        "::" ++ (if Nat.leb 8 zeroEnd then ""
                 else appendHex (nth zeroEnd gs 0)
                      ++ write6 fuel (S zeroEnd) gs zeroStart zeroEnd)
      else (if Nat.ltb 0 i then ":" else "")
           ++ appendHex (nth i gs 0) ++ write6 fuel (S i) gs zeroStart zeroEnd
  end.

Definition withZone (s zone : string) : string :=
  match zone with
  | EmptyString => s
  | _ => s ++ "%" ++ zone
  end.

Definition string6 (gs : list Z) (zone : string) : string :=
  let (zeroStart, zeroEnd) := zeroRun gs 0 (255%nat, 255%nat) in
  withZone (write6 8 0 gs zeroStart zeroEnd) zone.

Definition Is4In6 (gs : list Z) : bool :=
  forallb (Z.eqb 0) (firstn 5 gs) && (nth 5 gs 0 =? 65535).

Definition string4In6 (gs : list Z) (zone : string) : string :=
  withZone ("::ffff:" ++ net.string4 (mkbyte (Z.shiftr (nth 6 gs 0) 8))
                           (mkbyte (Z.land (nth 6 gs 0) 255))
                           (mkbyte (Z.shiftr (nth 7 gs 0) 8))
                           (mkbyte (Z.land (nth 7 gs 0) 255))) zone.

Definition Addr_String (ip : Addr) : string :=
  match ip with
  | z0 => "invalid IP"
  | z4 a => ipv4.Addr_String a
  | z6 gs zone => if Is4In6 gs then string4In6 gs zone else string6 gs zone
  end.

Definition Addr_Is4 (ip : Addr) : bool :=
  match ip with z4 _ => true | _ => false end.

Definition Addr_IsValid (ip : Addr) : bool :=
  match ip with z0 => false | _ => true end.

Definition BitLen (ip : Addr) : Z :=
  match ip with z0 => 0 | z4 _ => 32 | z6 _ _ => 128 end.

Definition withoutZone (ip : Addr) : Addr :=
  match ip with z6 gs _ => z6 gs "" | _ => ip end.

Record Prefix : Type := mkPrefix { paddr : Addr; bitsPlusOne : Z }.

Definition PrefixFrom (ip : Addr) (bits : Z) : Prefix :=
  mkPrefix (withoutZone ip)
    (if Addr_IsValid ip && (0 <=? bits) && (bits <=? BitLen ip) then bits + 1 else 0).

Definition Prefix_IsValid (p : Prefix) : bool := 0 <? bitsPlusOne p.

Definition ParsePrefix (s : string) : result Prefix :=
  match strings.cutLast "/" s with
  | None => Err (Errorf "ParsePrefix: no '/'")
  | Some (ip, bitsStr) =>
      do a <- ParseAddr ip;
      match a with
      | z6 _ (String _ _) => Err (Errorf "ParsePrefix: IPv6 zones cannot be present in a prefix")
      | _ =>
          match strconv.plainDecimal 3 bitsStr with
          | None => Err (Errorf "ParsePrefix: bad bits after slash")
          | Some b =>
              if BitLen a <? b then Err (Errorf "ParsePrefix: prefix length out of range")
              else Ok (PrefixFrom a b)
          end
      end
  end.

Definition Prefix_String (p : Prefix) : string :=
  if Prefix_IsValid p then Addr_String (paddr p) ++ "/" ++ strconv.Itoa (bitsPlusOne p - 1)
  else "invalid Prefix".

Definition ops : netip.Ops :=
  {| netip.Addr := Addr;
     netip.Prefix := Prefix;
     netip.ParseAddr := ParseAddr;
     netip.ParsePrefix := ParsePrefix;
     netip.Addr_String := Addr_String;
     netip.Prefix_String := Prefix_String;
     netip.Addr_Is4 := Addr_Is4;
     netip.Addr_IsValid := Addr_IsValid;
     netip.Prefix_IsValid := Prefix_IsValid;
     netip.PrefixFrom := PrefixFrom;
     netip.Prefix_Addr := paddr |}.

End ip6.

(** ** Package wiresocks, [config.go] (the variant with prefixes) *)

Module config.

Section Netip.

Context {IP : netip.Ops}.

Record PeerConfig : Type := mkPeer {
  PublicKey : string;
  PreSharedKey : string;
  Endpoint : string;
  KeepAlive : Z;
  AllowedIPs : list netip.Prefix
}.

Record InterfaceConfig : Type := mkInterface {
  PrivateKey : string;
  Addresses : list netip.Prefix;
  DNS : list netip.Addr;
  MTU : Z;
  FwMark : Z
}.

Record Configuration : Type := mkConfiguration {
  Interface : InterfaceConfig;
  Peers : list PeerConfig
}.

Definition EncodeBase64ToHex (key : string) : result string :=
  match base64.DecodeString key with
  | Err _ => Err (Errorf ("invalid base64 string: " ++ key))
  | Ok decoded =>
      if negb (Nat.eqb (List.length decoded) 32)
      then Err (Errorf ("key should be 32 bytes: " ++ key))
      else Ok (hex.EncodeToString decoded)
  end.

(** Modelled from the spec: [EncodeHexToBase64], which [String] calls
    and which is defined outside the sources at hand.  The spec has
    keys kept as the hex of exactly 32 bytes and written to the file
    in base64; this is the inverse of [EncodeBase64ToHex]. *)
Definition EncodeHexToBase64 (key : string) : result string :=
  match hex.DecodeString key with
  | Err _ => Err (Errorf ("invalid hex string: " ++ key))
  | Ok decoded =>
      if negb (Nat.eqb (List.length decoded) 32)
      then Err (Errorf ("key should be 32 bytes: " ++ key))
      else Ok (base64.EncodeToString decoded)
  end.

Definition zeroKey : string :=
  "0000000000000000000000000000000000000000000000000000000000000000".

Definition nonEmpty (s : string) : bool :=
  match s with EmptyString => false | _ => true end.

Definition LF : string := String "010" EmptyString.

(** The [[Interface]] part of [Configuration.String], appended to the
    builder [b]. *)
Definition writeInterface (b : string) (i : InterfaceConfig) : result string :=
  let b := b ++ "[Interface]" ++ LF in
  do b <- (if nonEmpty (PrivateKey i)
           then do privKeyB64 <- EncodeHexToBase64 (PrivateKey i);
                Ok (b ++ "PrivateKey = " ++ privKeyB64 ++ LF)
           else Ok b);
  let b := if Nat.ltb 0 (List.length (Addresses i))
           then b ++ "Address = " ++ strings.Join (map netip.Prefix_String (Addresses i)) ", " ++ LF
           else b in
  let b := if Nat.ltb 0 (List.length (DNS i))
           then b ++ "DNS = " ++ strings.Join (map netip.Addr_String (DNS i)) ", " ++ LF
           else b in
  let b := if negb (MTU i =? 0)
           then b ++ "MTU = " ++ strconv.Itoa (MTU i) ++ LF
           else b in
  Ok b.

(** The body of the loop over the peers. *)
Definition writePeer (b : string) (peer : PeerConfig) : result string :=
  let b := b ++ LF ++ "[Peer]" ++ LF in
  do b <- (if nonEmpty (PublicKey peer)
           then do pubKeyB64 <- EncodeHexToBase64 (PublicKey peer);
                Ok (b ++ "PublicKey = " ++ pubKeyB64 ++ LF)
           else Ok b);
  do b <- (if nonEmpty (PreSharedKey peer) && negb (String.eqb (PreSharedKey peer) zeroKey)
           then do pskB64 <- EncodeHexToBase64 (PreSharedKey peer);
                Ok (b ++ "PresharedKey = " ++ pskB64 ++ LF)
           else Ok b);
  let b := if Nat.ltb 0 (List.length (AllowedIPs peer))
           then b ++ "AllowedIPs = " ++ strings.Join (map netip.Prefix_String (AllowedIPs peer)) ", " ++ LF
           else b in
  let b := if nonEmpty (Endpoint peer)
           then b ++ "Endpoint = " ++ Endpoint peer ++ LF
           else b in
  let b := if negb (KeepAlive peer =? 0)
           then b ++ "PersistentKeepalive = " ++ strconv.Itoa (KeepAlive peer) ++ LF
           else b in
  Ok b.

Fixpoint writePeers (b : string) (peers : list PeerConfig) : result string :=
  match peers with
  | [] => Ok b
  | peer :: rest => do b <- writePeer b peer; writePeers b rest
  end.

(** [Configuration.String]. *)
Definition String (c : Configuration) : result string :=
  do b <- writeInterface "" (Interface c);
  writePeers b (Peers c).

Definition emptyInterface : InterfaceConfig :=
  {| PrivateKey := ""; Addresses := []; DNS := []; MTU := 0; FwMark := 0 |}.

(** One entry of the [Address] key: a prefix, or a bare address that
    is widened to [/32] or [/128]. *)
Definition parseAddress (str : string) : result netip.Prefix :=
  let str := strings.TrimSpace str in
  match netip.ParsePrefix str with
  | Ok prefix => Ok prefix
  | Err err =>
      match netip.ParseAddr str with
      | Err _ => Err (Errorf ("address " ++ str ++ " is not a valid IP address or CIDR prefix"))
      | Ok addr =>
          if netip.Addr_Is4 addr then Ok (netip.PrefixFrom addr 32)
          else Ok (netip.PrefixFrom addr 128)
      end
  end.

(** [uint32(value)]. *)
Definition uint32 (v : Z) : Z := v mod 4294967296.

(** [ParseInterface]. *)
Definition ParseInterface (cfg : ini.File) : result InterfaceConfig :=
  match ini.SectionsByName cfg "Interface" with
  | Ok [iface] =>
      let key := ini.GetOrNew iface "Address" in
      do addresses <- ini.mapM parseAddress (ini.StringsWithShadows key);
      let key := ini.GetOrNew iface "PrivateKey" in
      do privateKeyHex <- EncodeBase64ToHex (ini.Key_String key);
      do dns <- match ini.GetKey iface "DNS" with
                | Ok sectionKey => ini.mapM netip.ParseAddr (ini.StringsWithShadows sectionKey)
                | Err _ => Ok []
                end;
      do mtu <- match ini.GetKey iface "MTU" with
                | Ok sectionKey => ini.Key_Int sectionKey
                | Err _ => Ok 0
                end;
      do fwmark <- match ini.GetKey iface "FwMark" with
                   | Ok sectionKey => do value <- ini.Key_Int sectionKey; Ok (uint32 value)
                   | Err _ => Ok 0
                   end;
      Ok {| PrivateKey := privateKeyHex; Addresses := addresses; DNS := dns;
            MTU := mtu; FwMark := fwmark |}
  | _ => Err (Errorf "only one [Interface] is expected")
  end.

(** The body of the loop of [ParsePeers] for one section. *)
Definition parsePeer (section : ini.Section) : result PeerConfig :=
  do publicKey <- match ini.GetKey section "PublicKey" with
                  | Ok sectionKey => EncodeBase64ToHex (ini.Key_String sectionKey)
                  | Err _ => Ok ""
                  end;
  do preSharedKey <- match ini.GetKey section "PreSharedKey" with
                     | Ok sectionKey => EncodeBase64ToHex (ini.Key_String sectionKey)
                     | Err _ => Ok zeroKey
                     end;
  do keepAlive <- match ini.GetKey section "PersistentKeepalive" with
                  | Ok sectionKey => ini.Key_Int sectionKey
                  | Err _ => Ok 0
                  end;
  do allowedIPs <- match ini.GetKey section "AllowedIPs" with
                   | Ok sectionKey => ini.mapM netip.ParsePrefix (ini.StringsWithShadows sectionKey)
                   | Err _ => Ok []
                   end;
  let endpoint := match ini.GetKey section "Endpoint" with
                  | Ok sectionKey => ini.Key_String sectionKey
                  | Err _ => ""
                  end in
  Ok {| PublicKey := publicKey; PreSharedKey := preSharedKey; Endpoint := endpoint;
        KeepAlive := keepAlive; AllowedIPs := allowedIPs |}.

(** [ParsePeers]. *)
Definition ParsePeers (cfg : ini.File) : result (list PeerConfig) :=
  match ini.SectionsByName cfg "Peer" with
  | Ok sections => ini.mapM parsePeer sections
  | Err _ => Err (Errorf "at least one [Peer] is expected")
  end.

(** [ParseConfig] on the content of the file at [path]. *)
Definition ParseConfig (content : string) : result Configuration :=
  do cfg <- ini.LoadSources content;
  do iface <- ParseInterface cfg;
  do peers <- ParsePeers cfg;
  Ok {| Interface := iface; Peers := peers |}.

Definition setFwMark (c : Configuration) (m : Z) : Configuration :=
  {| Interface := {| PrivateKey := PrivateKey (Interface c);
                     Addresses := Addresses (Interface c);
                     DNS := DNS (Interface c);
                     MTU := MTU (Interface c);
                     FwMark := m |};
     Peers := Peers c |}.

End Netip.

End config.

(** ** Package wiresocks, the WireGuard driver *)

Module wireguard.

Section Netip.

Context {IP : netip.Ops}.

(** [s[:8]]: slicing beyond the length panics. *)
Definition first8 (s : string) : result string :=
  if Nat.leb 8 (String.length s) then Ok (String.substring 0 8 s)
  else Err (Panic "slice bounds out of range").

(** The AmneziaWG parameters written after the key. *)
Definition obfuscation : string :=
  "jc=10" ++ config.LF ++ "jmin=50" ++ config.LF ++ "jmax=1000" ++ config.LF
  ++ "s1=0" ++ config.LF ++ "s2=0" ++ config.LF
  ++ "h1=1" ++ config.LF ++ "h2=2" ++ config.LF ++ "h3=3" ++ config.LF ++ "h4=4" ++ config.LF.

Definition allowedLine (cidr : netip.Prefix) : string :=
  "allowed_ip=" ++ netip.Prefix_String cidr ++ config.LF.

(** What the loop over the peers writes for one peer. *)
Definition peerLines (peer : config.PeerConfig) : string :=
  "public_key=" ++ config.PublicKey peer ++ config.LF
  ++ "persistent_keepalive_interval=" ++ strconv.Itoa (config.KeepAlive peer) ++ config.LF
  ++ "preshared_key=" ++ config.PreSharedKey peer ++ config.LF
  ++ "endpoint=" ++ config.Endpoint peer ++ config.LF
  ++ concat_str (map allowedLine (config.AllowedIPs peer)).

Fixpoint writePeers (request : string) (peers : list config.PeerConfig) : result string :=
  match peers with
  | [] => Ok request
  | peer :: rest =>
      (* the debug line slices the public key *)
      do _ <- first8 (config.PublicKey peer);
      writePeers (request ++ peerLines peer) rest
  end.

Definition keyLine (conf : config.Configuration) : string :=
  "private_key=" ++ config.PrivateKey (config.Interface conf) ++ config.LF.

(** The IPC document [establishWireguard] hands to [dev.IpcSet]. *)
Definition ipcRequest (conf : config.Configuration) (fwmark : Z) : result string :=
  (* the debug line slices the private key *)
  do _ <- first8 (config.PrivateKey (config.Interface conf));
  let request := "" in
  let request := request ++ keyLine conf in
  let request := request ++ keyLine conf in
  let request := if negb (fwmark =? 0)
                 then request ++ "fwmark=" ++ strconv.Itoa fwmark ++ config.LF
                 else request in
  let request := request ++ obfuscation in
  writePeers request (config.Peers conf).

(** The document the specification describes: the key once. *)
Definition specRequest (conf : config.Configuration) (fwmark : Z) : string :=
  keyLine conf
  ++ (if negb (fwmark =? 0) then "fwmark=" ++ strconv.Itoa fwmark ++ config.LF else "")
  ++ obfuscation
  ++ concat_str (map peerLines (config.Peers conf)).

(** The lines of a document that set the key [k]. *)
Definition linesFor (k : string) (doc : string) : list string :=
  filter (fun l => String.prefix (k ++ "=") l) (strings.Split "010" doc).

End Netip.

End wireguard.

(** ** Package wiresocks, [Run] *)

Module app.

Section Netip.

Context {IP : netip.Ops}.

(** [ParseResolveAddressPort(endpoint, true, resolver)] followed by
    [String] on the result; the function is defined outside the
    sources at hand. *)
Variable ParseResolveAddressPort : string -> bool -> string -> result string.

Definition resolver : string := "1.1.1.1".

(** The body of the loop over the peers in [Run]. *)
Definition preparePeer (peer : config.PeerConfig) : config.PeerConfig :=
  let keepAlive := 5 in
  let endpoint :=
    match ParseResolveAddressPort (config.Endpoint peer) true resolver with
    | Ok addr => addr
    | Err _ => config.Endpoint peer
    end in
  {| config.PublicKey := config.PublicKey peer;
     config.PreSharedKey := config.PreSharedKey peer;
     config.Endpoint := endpoint;
     config.KeepAlive := keepAlive;
     config.AllowedIPs := config.AllowedIPs peer |}.

(** The configuration [Run] holds when it creates the device. *)
Definition prepare (conf : config.Configuration) : result config.Configuration :=
  match netip.ParseAddr resolver with
  | Err _ => Err (Panic "MustParseAddr")
  | Ok dns =>
      Ok {| config.Interface :=
              {| config.PrivateKey := config.PrivateKey (config.Interface conf);
                 config.Addresses := config.Addresses (config.Interface conf);
                 config.DNS := [dns];
                 config.MTU := 1330;
                 config.FwMark := config.FwMark (config.Interface conf) |};
            config.Peers := map preparePeer (config.Peers conf) |}
  end.

(** The IPC document [Run] ends up writing for [conf]. *)
Definition deviceRequest (conf : config.Configuration) : result string :=
  do conf <- prepare conf;
  wireguard.ipcRequest conf (config.FwMark (config.Interface conf)).

End Netip.

End app.

(** ** The SOCKS5 address helpers, from the wire format *)

Module wire.

Definition errUnrecognizedAddrType : error := Errorf "unrecognized address type".

Definition port16 (hi lo : byte) : Z := byteZ hi * 256 + byteZ lo.

(** Modelled from the spec: [readAddr], defined outside the sources at
    hand.  The spec gives [ATYP | DST.ADDR | DST.PORT] with [ATYP]
    [0x01] for four bytes of IPv4, [0x03] for a length-prefixed domain
    name, [0x04] for sixteen bytes of IPv6, and a port of two bytes. *)
Definition readAddr (b : list byte) : result (socks5.address * list byte) :=
  match b with
  | [] => Err EOF
  | atyp :: r =>
      let body (n : nat) (r : list byte) (mk : list byte -> Z -> socks5.address) :=
        do (a, r) <- ReadFull n r;
        do (p, r) <- ReadFull 2 r;
        match p with
        | [hi; lo] => Ok (mk a (port16 hi lo), r)
        | _ => Err (Panic "short read")
        end in
      if Byte.eqb atyp x01 then body 4%nat r (fun a p => socks5.mkAddr "" a p)
      else if Byte.eqb atyp x04 then body 16%nat r (fun a p => socks5.mkAddr "" a p)
      else if Byte.eqb atyp x03 then
        match r with
        | [] => Err EOF
        | n :: r => body (N.to_nat (Byte.to_N n)) r
                      (fun a p => socks5.mkAddr (string_of_bytes a) [] p)
        end
      else Err errUnrecognizedAddrType
  end.

(** Modelled from the spec: [address.String], defined outside the
    sources at hand; the destination string is [host:port], the name
    when there is one and else the address. *)
Definition address_String (a : socks5.address) : string :=
  let port := strconv.Itoa (socks5.Port a) in
  match socks5.Name a with
  | EmptyString => net.JoinHostPort (match socks5.IP a with [] => "" | ip => net.IP_String ip end) port
  | name => net.JoinHostPort name port
  end.

(** Modelled from the spec: [writeAddrWithStr], defined outside the
    sources at hand, for a target given as a dotted quad or a name
    with its port: the reply prefix is [0,0,0 | ATYP | DST.ADDR |
    DST.PORT]. *)
Definition writeAddrWithStr (s : string) : result (list byte) :=
  match strings.cutLast ":" s with
  | None => Err (Errorf "missing port in address")
  | Some (host, port) =>
      match strconv.plainDecimal 5 port with
      | None => Err (Errorf "invalid port")
      | Some p =>
          if 65535 <? p then Err (Errorf "invalid port")
          else
            let pb := [mkbyte (p / 256); mkbyte (p mod 256)] in
            match ipv4.ParseAddr host with
            | Ok a => Ok ([x01; ipv4.o0 a; ipv4.o1 a; ipv4.o2 a; ipv4.o3 a] ++ pb)%list
            | Err _ =>
                if Nat.ltb 255 (String.length host) then Err (Errorf "name too long")
                else Ok ([x03; mkbyte (Z.of_nat (String.length host))]
                           ++ bytes_of_string host ++ pb)%list
            end
      end
  end.

(** The relay over these helpers, sender addresses given by their text. *)
Definition step :=
  socks5.step string (fun a => a) readAddr address_String writeAddrWithStr.
Definition embedHandleAssociate :=
  socks5.embedHandleAssociate string (fun a => a) readAddr address_String writeAddrWithStr.

(** The datagram of the specification's scenario: a query of two bytes
    for [8.8.8.8:53], and the same with [FRAG = 1]. *)
Definition query : list byte :=
  [x00; x00; x00; x01; x08; x08; x08; x08; x00; x35; xde; xad].
Definition fragment : list byte :=
  [x00; x00; x01; x01; x08; x08; x08; x08; x00; x35; xde; xad].
Definition client : string := "10.0.0.2:4000".

End wire.

(** ** Package socks4: replies and the server *)

Module socks4_server.

(** [Command.String]. *)
Definition Command_String (cmd : socks4.Command) : string :=
  if Byte.eqb cmd socks4.ConnectCommand then "CONNECT"
  else if Byte.eqb cmd socks4.BindCommand then "BIND"
  else "Unknown(" ++ strconv.Itoa (byteZ cmd) ++ ")".

Definition Reply := byte.
Definition GrantedReply : Reply := x5a.
Definition RejectedReply : Reply := x5b.
Definition NoIdentdReply : Reply := x5c.
Definition InvalidUserReply : Reply := x5d.

(** [Reply.String]. *)
Definition Reply_String (c : Reply) : string :=
  if Byte.eqb c GrantedReply then "request granted"
  else if Byte.eqb c RejectedReply then "request rejected or failed"
  else if Byte.eqb c NoIdentdReply
  then "request rejected because SOCKS server cannot connect to identd on the client"
  else if Byte.eqb c InvalidUserReply
  then "request rejected because the client program and identd report different user-ids"
  else "unknown code: " ++ strconv.Itoa (byteZ c).

(** [uint16(v)] for an [int]. *)
Definition uint16 (v : Z) : Z := v mod 65536.

(** [binary.BigEndian.PutUint16(b, v)] on a slice of two bytes. *)
Definition PutUint16 (v : Z) : list byte :=
  [mkbyte (Z.shiftr v 8); mkbyte (Z.land v 255)].

(** [net.IPv4zero]. *)
Definition IPv4zero : net.IP := net.IPv4 x00 x00 x00 x00.

(** [WriteReply]: the eight bytes handed to [w.Write], whose error is
    the result.  A nil address is the zero [Address]; a nil IP is
    [net.IPv4zero]; [copy] moves nothing when [To4] is nil. *)
Definition WriteReply (reply : Reply) (addr : option socks4.Address) : list byte :=
  let addr := match addr with
              | None => {| socks4.Name := ""; socks4.IP := []; socks4.Port := 0 |}
              | Some a => a
              end in
  let ip := match socks4.IP addr with
            | [] => IPv4zero
            | ip => ip
            end in
  ([socks4.ReplyVersion; reply] ++ PutUint16 (uint16 (socks4.Port addr))
   ++ match net.To4 ip with
      | Some b4 => b4
      | None => [x00; x00; x00; x00]
      end)%list.

Section Serve.

(** [handleConnect] and [handleBind], which dial, listen and tunnel:
    what they return for a request and the bytes left in the stream. *)
Variable handleConnect : socks4.Request -> Reader -> option error.
Variable handleBind : socks4.Request -> Reader -> option error.

(** [Server.ServeConn] on the bytes the client sends. *)
Definition ServeConn (conn : Reader) : option error :=
  match socks4.NewRequest conn with
  | Err err => Some err
  | Ok (req, conn) =>
      if Byte.eqb (socks4.Cmd req) socks4.ConnectCommand then handleConnect req conn
      else if Byte.eqb (socks4.Cmd req) socks4.BindCommand then handleBind req conn
      else Some (Errorf ("unsupported command: " ++ Command_String (socks4.Cmd req)))
  end.

End Serve.

(** The fixed part of a request on the wire. *)
Definition requestBytes (cmd p0 p1 a b c d : byte) (user : list byte) : list byte :=
  ([socks4.Socks4Version; cmd; p0; p1; a; b; c; d] ++ user ++ [x00])%list.

End socks4_server.

(** ** Package socks5: serving a connection *)

Module socks5_server.

Section Serve.

(** [handleRequest], which reads the request and runs the command. *)
Variable handleRequest : socks5.M unit.

(** [Server.ServeConn]. *)
Definition ServeConn (s : socks5.Server) : socks5.M unit :=
  socks5.mbind socks5.readByte (fun version =>
  if negb (Byte.eqb version socks5.socks5Version)
  then socks5.fail (Errorf ("unsupported SOCKS version: " ++ strconv.Itoa (byteZ version)))
  else socks5.mbind (socks5.authenticate s) (fun _ => handleRequest)).

End Serve.

(** The sub-negotiation of RFC 1929 as the client sends it. *)
Definition credentialBytes (user password : list byte) : list byte :=
  ([x01; mkbyte (Z.of_nat (List.length user))] ++ user
   ++ [mkbyte (Z.of_nat (List.length password))] ++ password)%list.

End socks5_server.

(** ** Package wiresocks: the proxy servers *)

Module proxy.

Section Start.

(** [netip.AddrPort] with its [String], the listeners, and
    [net.Listen("tcp", address)]. *)
Variable AddrPort : Type.
Variable AddrPort_String : AddrPort -> string.
Variable Listener : Type.
Variable Listen : string -> result Listener.

Record ProxyOptions : Type := mkProxyOptions {
  SocksBindAddress : option AddrPort;
  HttpBindAddress : option AddrPort
}.

(** The listeners of a [ProxyServer], those [Start] closed again, and
    the proxies it started. *)
Record ProxyServer : Type := mkProxyServer {
  socksLn : option Listener;
  httpLn : option Listener;
  closed : list Listener;
  socksProxy : bool;
  httpProxy : bool
}.

Definition isSome {A} (o : option A) : bool :=
  match o with Some _ => true | None => false end.

(** [ProxyServer.Start] on a server fresh from [NewProxyServer]. *)
Definition Start (opts : ProxyOptions) : ProxyServer * option error :=
  let listen (a : option AddrPort) : result (option Listener) :=
    match a with
    | Some a => do ln <- Listen (AddrPort_String a); Ok (Some ln)
    | None => Ok None
    end in
  match listen (SocksBindAddress opts) with
  | Err err => (mkProxyServer None None [] false false, Some err)
  | Ok socks =>
      match listen (HttpBindAddress opts) with
      | Err err =>
          (mkProxyServer socks None
             (match socks with Some ln => [ln] | None => [] end) false false,
           Some err)
      | Ok http =>
          if negb (isSome socks) && negb (isSome http)
          then (mkProxyServer socks http [] false false,
                Some (Errorf "no proxy listeners configured"))
          else (mkProxyServer socks http [] (isSome socks) (isSome http), None)
      end
  end.

(** The listeners the server holds when [Start] is back. *)
Definition open (s : ProxyServer) : list Listener :=
  ((match socksLn s with Some ln => [ln] | None => [] end)
   ++ (match httpLn s with Some ln => [ln] | None => [] end))%list.

End Start.

End proxy.

(** * The vocabulary of the statements *)

(** The shape of the digits [utoa_aux] puts in front of [acc]. *)
Record rendering (n : Z) (s : string) : Prop := {
  r_digits : strings.All strconv.isDigit s = true;
  r_nonempty : s <> "";
  r_value : forall a, strconv.decimal s a = Some (a * 10 ^ Z.of_nat (String.length s) + n);
  r_canonical : (n = 0 /\ s = "0") \/
                (0 < n /\ 10 ^ (Z.of_nat (String.length s) - 1) <= n /\
                 exists c r, s = String c r /\ c <> "0"%char)
}.

Definition dottedChar (c : ascii) : bool := strconv.isDigit c || Ascii.eqb c ".".

(** The computations of the package only append to what was written. *)
Definition extends {A} (m : socks5.M A) : Prop :=
  forall c c' r, m c = (c', r) ->
    exists tail, socks5.output c' = (socks5.output c ++ tail)%list.

Definition anyPassword : socks5.CredentialStore := fun _ _ => true.

Definition resetByTunnel : vtun.world :=
  {| vtun.dial := None;
     vtun.clientToTunnel := [vtun.mkIter None 0 (Some EOF) 0 None];
     vtun.tunnelToClient := [vtun.mkIter None 0 (Some (Errorf "i/o timeout")) 0 None];
     vtun.clientFirst := false |}.

Definition int64 (z : Z) : Prop := - 9223372036854775808 <= z < 9223372036854775808.

(** The bytes of a list value: those of its entries, blanks and commas. *)
Definition valueChar (c : ascii) : bool :=
  ini.safeChar c || Ascii.eqb c " " || Ascii.eqb c ",".

(** A text that starts and ends with a safe byte and holds safe bytes,
    blanks and commas only. *)
Definition softValue (v : string) : Prop :=
  strings.All valueChar v = true
  /\ (exists c r, v = String c r /\ ini.safeChar c = true)
  /\ (exists l, strings.lastChar v = Some l /\ ini.safeChar l = true).

Definition unlines (ls : list string) : string :=
  concat_str (map (fun l => l ++ config.LF) ls).

(** A key name made of letters and digits. *)
Definition keyName (k : string) : Prop :=
  strings.All ini.isAlnum k = true /\ k <> "".

(** The text of an item of a file. *)
Definition render (it : ini.item) : string :=
  match it with
  | ini.Skip => ""
  | ini.Header n => "[" ++ n ++ "]"
  | ini.KV k v => k ++ " = " ++ v
  end.

Definition goodItem (it : ini.item) : Prop :=
  match it with
  | ini.Skip => True
  | ini.Header n => n = "Interface" \/ n = "Peer"
  | ini.KV k v => keyName k /\ ini.plainValue v
  end.

Definition optKV (k : string) (v : option string) : list (string * string) :=
  match v with
  | Some v => [(k, v)]
  | None => []
  end.

Definition toKV (kv : string * string) : ini.item := ini.KV (fst kv) (snd kv).

Definition addKV (s : ini.Section) (kv : string * string) : ini.Section :=
  ini.NewKey s (fst kv) (snd kv).

(** The section a header and its key lines give. *)
Definition sectionOf (name : string) (kvs : list (string * string)) : ini.Section :=
  fold_left addKV kvs (ini.NewSection name).

(** The items of a [[Peer]] section with the key lines [kvs]. *)
Definition peerItems (kvs : list (string * string)) : list ini.item :=
  ini.Skip :: ini.Header "Peer" :: map toKV kvs.

(** The lower-case hexadecimal text of exactly 32 bytes. *)
Definition hexKey (s : string) : Prop :=
  exists bs, List.length bs = 32%nat /\ s = hex.EncodeToString bs.

(** The value of a list key: absent for the empty list. *)
Definition listValue (l : list string) : option string :=
  match l with
  | [] => None
  | _ => Some (strings.Join l ", ")
  end.

(** The value of a number key: absent for zero. *)
Definition intValue (z : Z) : option string :=
  if z =? 0 then None else Some (strconv.Itoa z).

(** The entries read from a list key. *)
Definition entries (name : string) (v : option string) : list string :=
  match v with
  | Some v => ini.StringsWithShadows (ini.mkKey name v [])
  | None => []
  end.

(** The number read from a number key. *)
Definition number (v : option string) : result Z :=
  match v with
  | Some v => strconv.ParseInt0 v
  | None => Ok 0
  end.

(** A resolver that knows no name. *)
Definition noResolver (endpoint : string) (_ : bool) (_ : string) : result string :=
  Err (Errorf "no such host").

(** ** The relay *)

Section RelayTerms.

Variable NetAddr : Type.
Variable readAddr : list byte -> result (socks5.address * list byte).
Variable maxUdpPacket : nat.

Local Abbreviation state := (socks5.state NetAddr).

(** What a logged write owes to the datagram [data] it answers: towards
    the target, the bytes [readAddr] leaves unread behind the three
    bytes [RSV | FRAG]; towards the client, [prefix] and the datagram. *)
Definition framed (prefix : list byte) (entry : list byte * socks5.write NetAddr) : Prop :=
  let (data, w) := entry in
  match socks5.to NetAddr w with
  | socks5.ToTarget _ _ _ =>
      (3 <= List.length data)%nat /\
      exists addr, readAddr (skipn 3 data) = Ok (addr, socks5.payload NetAddr w)
  | socks5.ToSource _ _ => socks5.payload NetAddr w = (prefix ++ data)%list
  end.

(** The buffer keeps its size, and a cached prefix stays. *)
Definition sized (st : state) : Prop :=
  List.length (socks5.buf NetAddr st) = maxUdpPacket.

Definition keepsPrefix (st st' : state) : Prop :=
  forall p, socks5.replyPrefix NetAddr st = Some p -> socks5.replyPrefix NetAddr st' = Some p.

(** The target, or the client, a write goes to. *)
Definition toTarget (w : socks5.write NetAddr) : option (net.IP * Z) :=
  match socks5.to NetAddr w with
  | socks5.ToTarget _ ip port => Some (ip, port)
  | socks5.ToSource _ _ => None
  end.

Definition toSource (w : socks5.write NetAddr) : option NetAddr :=
  match socks5.to NetAddr w with
  | socks5.ToTarget _ _ _ => None
  | socks5.ToSource _ a => Some a
  end.

End RelayTerms.

(** ** Configurations *)

Section ConfigTerms.

Context {IP : netip.Ops}.

(** The base64 text [String] writes for the key [h]. *)
Definition toB64 (h : string) : string :=
  match config.EncodeHexToBase64 h with
  | Ok s => s
  | Err _ => ""
  end.

(** The key lines [String] writes for the interface. *)
Definition interfaceKVs (i : config.InterfaceConfig) : list (string * string) :=
  (("PrivateKey", toB64 (config.PrivateKey i))
   :: optKV "Address" (listValue (map netip.Prefix_String (config.Addresses i)))
   ++ optKV "DNS" (listValue (map netip.Addr_String (config.DNS i)))
   ++ optKV "MTU" (intValue (config.MTU i)))%list.

(** The key lines [String] writes for a peer. *)
Definition peerKVs (p : config.PeerConfig) : list (string * string) :=
  (optKV "PublicKey"
     (if config.nonEmpty (config.PublicKey p) then Some (toB64 (config.PublicKey p)) else None)
   ++ optKV "PresharedKey"
        (if String.eqb (config.PreSharedKey p) config.zeroKey then None
         else Some (toB64 (config.PreSharedKey p)))
   ++ optKV "AllowedIPs" (listValue (map netip.Prefix_String (config.AllowedIPs p)))
   ++ optKV "Endpoint"
        (if config.nonEmpty (config.Endpoint p) then Some (config.Endpoint p) else None)
   ++ optKV "PersistentKeepalive" (intValue (config.KeepAlive p)))%list.

(** The lines of the text of a configuration. *)
Definition docItems (c : config.Configuration) : list ini.item :=
  (ini.Header "Interface" :: map toKV (interfaceKVs (config.Interface c))
   ++ flat_map (fun p => peerItems (peerKVs p)) (config.Peers c))%list.

(** The keys are the hex of 32 bytes, the numbers fit 64 bits, and the
    addresses and prefixes are valid. *)
Definition wfInterface (i : config.InterfaceConfig) : Prop :=
  hexKey (config.PrivateKey i)
  /\ Forall (fun p => netip.Prefix_IsValid p = true) (config.Addresses i)
  /\ Forall (fun a => netip.Addr_IsValid a = true) (config.DNS i)
  /\ int64 (config.MTU i).

Definition wfPeer (p : config.PeerConfig) : Prop :=
  (config.PublicKey p = "" \/ hexKey (config.PublicKey p))
  /\ hexKey (config.PreSharedKey p)
  /\ int64 (config.KeepAlive p)
  /\ Forall (fun x => netip.Prefix_IsValid x = true) (config.AllowedIPs p).

Definition wf (c : config.Configuration) : Prop :=
  wfInterface (config.Interface c)
  /\ Forall wfPeer (config.Peers c)
  /\ config.Peers c <> [].

(** A configuration [ParseConfig] returns for some file. *)
Definition Accepted (c : config.Configuration) : Prop :=
  exists content, config.ParseConfig content = Ok c.

(** The texts of the name servers are list entries, and an endpoint is
    a value that a key line gives back. *)
Definition Plain (c : config.Configuration) : Prop :=
  Forall (fun a => ini.token (netip.Addr_String a) = true) (config.DNS (config.Interface c))
  /\ Forall (fun p => config.Endpoint p = "" \/ ini.plainValue (config.Endpoint p))
       (config.Peers c).

End ConfigTerms.

(** ** Sample files and configurations *)

Definition sampleText : string :=
  "[Interface]" ++ config.LF
  ++ "PrivateKey = aK8FWhiV1CtKFbKUPssL13P+Tv+c5owmYcU5PCP6yFw=" ++ config.LF
  ++ "Address = 10.0.0.2/32, 10.0.1.2" ++ config.LF
  ++ "DNS = 1.1.1.1" ++ config.LF
  ++ "MTU = 1280" ++ config.LF
  ++ config.LF
  ++ "[Peer]" ++ config.LF
  ++ "PublicKey = mNb7OIIXTdgW4khM7OFlzJ+UPs7lmcWHV7xjPgakMkQ=" ++ config.LF
  ++ "AllowedIPs = 0.0.0.0/0" ++ config.LF
  ++ "Endpoint = 162.159.192.1:2408" ++ config.LF
  ++ "PersistentKeepalive = 25" ++ config.LF.

Definition sampleInterface (fwmark : Z) : @config.InterfaceConfig ipv4.ops :=
  @config.mkInterface ipv4.ops
    "68af055a1895d42b4a15b2943ecb0bd773fe4eff9ce68c2661c5393c23fac85c"
    [ipv4.mkPrefix (ipv4.mkAddr4 x0a x00 x00 x02) 32;
     ipv4.mkPrefix (ipv4.mkAddr4 x0a x00 x01 x02) 32]
    [ipv4.mkAddr4 x01 x01 x01 x01]
    1280
    fwmark.

Definition samplePeer : @config.PeerConfig ipv4.ops :=
  @config.mkPeer ipv4.ops
    "98d6fb3882174dd816e2484cece165cc9f943ecee599c58757bc633e06a43244"
    config.zeroKey
    "162.159.192.1:2408"
    25
    [ipv4.mkPrefix (ipv4.mkAddr4 x00 x00 x00 x00) 0].

Definition sampleConfig : @config.Configuration ipv4.ops :=
  {| config.Interface := sampleInterface 0; config.Peers := [samplePeer] |}.

(** The same file with a firewall mark. *)
Definition markedText : string :=
  "[Interface]" ++ config.LF
  ++ "PrivateKey = aK8FWhiV1CtKFbKUPssL13P+Tv+c5owmYcU5PCP6yFw=" ++ config.LF
  ++ "Address = 10.0.0.2/32, 10.0.1.2" ++ config.LF
  ++ "DNS = 1.1.1.1" ++ config.LF
  ++ "MTU = 1280" ++ config.LF
  ++ "FwMark = 51820" ++ config.LF
  ++ config.LF
  ++ "[Peer]" ++ config.LF
  ++ "PublicKey = mNb7OIIXTdgW4khM7OFlzJ+UPs7lmcWHV7xjPgakMkQ=" ++ config.LF
  ++ "AllowedIPs = 0.0.0.0/0" ++ config.LF
  ++ "Endpoint = 162.159.192.1:2408" ++ config.LF
  ++ "PersistentKeepalive = 25" ++ config.LF.

Definition markedConfig : @config.Configuration ipv4.ops :=
  {| config.Interface := sampleInterface 51820; config.Peers := [samplePeer] |}.

Definition keylessText : string :=
  "[Interface]" ++ config.LF
  ++ "PrivateKey = aK8FWhiV1CtKFbKUPssL13P+Tv+c5owmYcU5PCP6yFw=" ++ config.LF
  ++ "Address = 10.0.0.2/32" ++ config.LF
  ++ config.LF
  ++ "[Peer]" ++ config.LF
  ++ "AllowedIPs = 0.0.0.0/0" ++ config.LF
  ++ "Endpoint = 162.159.192.1:2408" ++ config.LF.

Definition keylessConfig : @config.Configuration ipv4.ops :=
  {| config.Interface :=
       @config.mkInterface ipv4.ops
         "68af055a1895d42b4a15b2943ecb0bd773fe4eff9ce68c2661c5393c23fac85c"
         [ipv4.mkPrefix (ipv4.mkAddr4 x0a x00 x00 x02) 32] [] 0 0;
     config.Peers :=
       [@config.mkPeer ipv4.ops "" config.zeroKey "162.159.192.1:2408" 0
          [ipv4.mkPrefix (ipv4.mkAddr4 x00 x00 x00 x00) 0]] |}.

(** A file whose endpoint is written in back quotes, what it is parsed
    to, and what the text [String] writes for it is parsed to. *)
Definition hashText : string :=
  "[Interface]" ++ config.LF
  ++ "PrivateKey = aK8FWhiV1CtKFbKUPssL13P+Tv+c5owmYcU5PCP6yFw=" ++ config.LF
  ++ "Address = 10.0.0.2/32" ++ config.LF
  ++ config.LF
  ++ "[Peer]" ++ config.LF
  ++ "PublicKey = mNb7OIIXTdgW4khM7OFlzJ+UPs7lmcWHV7xjPgakMkQ=" ++ config.LF
  ++ "AllowedIPs = 0.0.0.0/0" ++ config.LF
  ++ "Endpoint = `host#1:2408`" ++ config.LF.

Definition hostConfig (endpoint : string) : @config.Configuration ipv4.ops :=
  {| config.Interface :=
       @config.mkInterface ipv4.ops
         "68af055a1895d42b4a15b2943ecb0bd773fe4eff9ce68c2661c5393c23fac85c"
         [ipv4.mkPrefix (ipv4.mkAddr4 x0a x00 x00 x02) 32] [] 0 0;
     config.Peers :=
       [@config.mkPeer ipv4.ops
          "98d6fb3882174dd816e2484cece165cc9f943ecee599c58757bc633e06a43244"
          config.zeroKey endpoint 0
          [ipv4.mkPrefix (ipv4.mkAddr4 x00 x00 x00 x00) 0]] |}.

(** A file whose name server has a zone, written in back quotes, and
    the configuration with the name server [fe80::1] in the zone [zone]. *)
Definition zoneText : string :=
  "[Interface]" ++ config.LF
  ++ "PrivateKey = aK8FWhiV1CtKFbKUPssL13P+Tv+c5owmYcU5PCP6yFw=" ++ config.LF
  ++ "Address = 10.0.0.2/32" ++ config.LF
  ++ "DNS = `fe80::1%e#0`" ++ config.LF
  ++ config.LF
  ++ "[Peer]" ++ config.LF
  ++ "PublicKey = mNb7OIIXTdgW4khM7OFlzJ+UPs7lmcWHV7xjPgakMkQ=" ++ config.LF
  ++ "AllowedIPs = 0.0.0.0/0" ++ config.LF
  ++ "Endpoint = 162.159.192.1:2408" ++ config.LF.

Definition zoneConfig (zone : string) : @config.Configuration ip6.ops :=
  {| config.Interface :=
       @config.mkInterface ip6.ops
         "68af055a1895d42b4a15b2943ecb0bd773fe4eff9ce68c2661c5393c23fac85c"
         [ip6.mkPrefix (ip6.z4 (ipv4.mkAddr4 x0a x00 x00 x02)) 33]
         [ip6.z6 [65152; 0; 0; 0; 0; 0; 0; 1] zone] 0 0;
     config.Peers :=
       [@config.mkPeer ip6.ops
          "98d6fb3882174dd816e2484cece165cc9f943ecee599c58757bc633e06a43244"
          config.zeroKey "162.159.192.1:2408" 0
          [ip6.mkPrefix (ip6.z4 (ipv4.mkAddr4 x00 x00 x00 x00)) 1]] |}.

(** A server that knows the user [jo] with the password [pw]. *)
Definition joServer : socks5.Server :=
  {| socks5.Credentials := Some (socks5.StaticCredentials_Valid [("jo", "pw")]) |}.

(** A connection on which [input] is still to be read, nothing was
    written after [output], and writes succeed. *)
Definition pending (input output : list byte) : socks5.Conn :=
  {| socks5.input := input; socks5.output := output; socks5.wfail := None |}.

(** A run of the relay: a query of the client for [8.8.8.8:53], the
    answer of that server, a second query, and a datagram of a stranger. *)
Definition sampleRun : list (socks5.event string) :=
  [socks5.Datagram string wire.query wire.client None;
   socks5.Datagram string [xbe; xef] "8.8.8.8:53" None;
   socks5.Datagram string [x00; x00; x00; x01; x08; x08; x08; x08; x00; x35; xca; xfe]
     wire.client None;
   socks5.Datagram string wire.query "10.0.0.9:4000" None].

Definition sampleLog : list (list byte * socks5.write string) :=
  fst (wire.embedHandleAssociate 2048 sampleRun).

(** The state of the relay after the first query of the client. *)
Definition busy : socks5.state string :=
  match snd (wire.step 2048 (socks5.initial string 2048) wire.query wire.client None) with
  | socks5.Continue _ st => st
  | socks5.Return _ _ => socks5.initial string 2048
  end.

(** A datagram for the name [ex.com], port 53. *)
Definition nameQuery : list byte :=
  [x00; x00; x00; x03; x06; x65; x78; x2e; x63; x6f; x6d; x00; x35; xde; xad].

(** The sections of the sample file, and of the same text with a second
    [[Interface]] header. *)
Definition sampleFile : ini.File :=
  match ini.LoadSources sampleText with
  | Ok f => f
  | Err _ => []
  end.

Definition doubledFile : ini.File :=
  match ini.LoadSources (sampleText ++ "[Interface]" ++ config.LF) with
  | Ok f => f
  | Err _ => []
  end.

(** The panic of a slice expression out of range. *)
Definition panicSlice : error := Panic "slice bounds out of range".

(** A host on which port 8118 is taken: listeners are named by their
    address. *)
Definition listenButBusy (address : string) : result string :=
  if String.eqb address "127.0.0.1:8118" then Err (Errorf "address already in use")
  else Ok address.

(** * Theorems *)

(** ** Strings *)

Lemma append_nil_r (s : string) : s ++ "" = s.
Proof. induction s; simpl; congruence. Qed.

Lemma append_assoc (a b c : string) : (a ++ b) ++ c = a ++ (b ++ c).
Proof. induction a; simpl; congruence. Qed.

Lemma strAll_app p a b : strings.All p (a ++ b) = strings.All p a && strings.All p b.
Proof. induction a; simpl; [reflexivity|]. rewrite IHa. apply andb_assoc. Qed.

Lemma strlen_app (a b : string) : String.length (a ++ b) = (String.length a + String.length b)%nat.
Proof. induction a; simpl; congruence. Qed.

Lemma strAll_impl (p q : ascii -> bool) s :
  (forall c, p c = true -> q c = true) -> strings.All p s = true -> strings.All q s = true.
Proof.
  intros H. induction s; simpl; [reflexivity|].
  intros E. apply andb_true_iff in E as [E1 E2].
  rewrite (H _ E1), (IHs E2). reflexivity.
Qed.

Lemma ContainsByte_false p s c :
  strings.All p s = true -> p c = false -> strings.ContainsByte s c = false.
Proof.
  intros Hs Hc. induction s; simpl in *; [reflexivity|].
  apply andb_true_iff in Hs as [H1 H2].
  rewrite (IHs H2), orb_false_r.
  destruct (Ascii.eqb_spec a c); [congruence | reflexivity].
Qed.

Lemma ContainsByte_app a b c :
  strings.ContainsByte (a ++ b) c = strings.ContainsByte a c || strings.ContainsByte b c.
Proof. induction a; simpl; [reflexivity|]. rewrite IHa. apply orb_assoc. Qed.

(** ** Decimal rendering *)

Lemma N_of_digit d : (d < 10)%N -> N_of_ascii (strconv.digit d) = (48 + d)%N.
Proof. intros H. unfold strconv.digit. apply N_ascii_embedding. lia. Qed.

Lemma isDigit_digit d : (d < 10)%N -> strconv.isDigit (strconv.digit d) = true.
Proof.
  intros H. unfold strconv.isDigit. rewrite N_of_digit by assumption.
  apply andb_true_iff. split; apply N.leb_le; lia.
Qed.

Lemma decimal_app s t a :
  strconv.decimal (s ++ t) a =
  match strconv.decimal s a with
  | Some v => strconv.decimal t v
  | None => None
  end.
Proof.
  revert a. induction s; intros; simpl; [reflexivity|].
  destruct (strconv.isDigit a); [apply IHs | reflexivity].
Qed.

Lemma pow10_step (x q d n : Z) : x <= q -> n = 10 * q + d -> 0 <= d -> x * 10 <= n.
Proof. lia. Qed.

Lemma log2_div10 n : (10 <= n)%N -> (N.log2 (n / 10) < N.log2 n)%N.
Proof.
  intros H.
  assert (0 < n / 10)%N by (apply N.div_str_pos; lia).
  apply N.log2_lt_pow2; [assumption|].
  assert (2 ^ N.log2 n <= n)%N by (apply N.log2_spec; lia).
  assert (n < 2 ^ N.succ (N.log2 n))%N by (apply N.log2_spec; lia).
  rewrite N.pow_succ_r' in *.
  apply N.Div0.div_lt_upper_bound. lia.
Qed.

Lemma utoa_aux_rendering fuel : forall n acc,
  (N.to_nat (N.log2 n) < fuel)%nat ->
  exists s, strconv.utoa_aux fuel n acc = s ++ acc /\ rendering (Z.of_N n) s.
Proof.
  induction fuel as [|fuel IH]; intros n acc Hf; [lia|].
  simpl. destruct (N.ltb_spec n 10) as [Hlt|Hge].
  - exists (String (strconv.digit n) "").
    rewrite N.mod_small by assumption. split; [reflexivity|].
    split.
    + simpl. rewrite isDigit_digit by assumption. reflexivity.
    + discriminate.
    + intros a. cbn [strconv.decimal String.length].
      rewrite isDigit_digit, N_of_digit by assumption.
      f_equal. lia.
    + destruct (N.eq_dec n 0) as [->|Hn]; [left; split; reflexivity|].
      right. split; [lia|]. split; [simpl; lia|].
      exists (strconv.digit n), "". split; [reflexivity|].
      intros E. apply (f_equal N_of_ascii) in E.
      rewrite N_of_digit in E by assumption.
      change (N_of_ascii "0") with 48%N in E. lia.
  - assert (Hlog := log2_div10 n Hge).
    destruct (IH (n / 10)%N (String (strconv.digit (n mod 10)) acc)) as [s [Hs R]]; [lia|].
    assert (Hd : (n mod 10 < 10)%N) by (apply N.mod_lt; lia).
    exists (s ++ String (strconv.digit (n mod 10)) "").
    rewrite Hs, append_assoc. split; [reflexivity|].
    destruct R as [R1 R2 R3 R4].
    assert (Hdiv : Z.of_N n = 10 * Z.of_N (n / 10) + Z.of_N (n mod 10)).
    { rewrite <- N2Z.inj_mul with (n := 10%N), <- N2Z.inj_add.
      f_equal. apply N.div_mod. lia. }
    assert (Hq : 0 < Z.of_N (n / 10)).
    { assert (0 < n / 10)%N by (apply N.div_str_pos; lia). lia. }
    split.
    + rewrite strAll_app, R1. simpl. rewrite isDigit_digit by assumption. reflexivity.
    + destruct s; [congruence | discriminate].
    + intros a. rewrite decimal_app, R3. cbn [strconv.decimal].
      rewrite isDigit_digit, N_of_digit by assumption. f_equal.
      rewrite strlen_app. cbn [String.length].
      replace (Z.of_nat (String.length s + 1)) with (Z.of_nat (String.length s) + 1) by lia.
      rewrite Z.pow_add_r by lia. change (10 ^ 1) with 10. lia.
    + right. split; [lia|].
      destruct R4 as [[H0 _]|[_ [Hp [c [r [Es Hc]]]]]]; [lia|].
      split.
      * rewrite strlen_app. cbn [String.length].
        replace (Z.of_nat (String.length s + 1) - 1) with ((Z.of_nat (String.length s) - 1) + 1) by lia.
        assert (0 <= Z.of_nat (String.length s) - 1) by (subst s; cbn [String.length]; lia).
        rewrite Z.pow_add_r by lia. change (10 ^ 1) with 10.
        apply (pow10_step _ _ _ _ Hp Hdiv), N2Z.is_nonneg.
      * exists c, (r ++ String (strconv.digit (n mod 10)) ""). subst s. split; [reflexivity | assumption].
Qed.

Lemma utoa_rendering n : rendering (Z.of_N n) (strconv.utoa n).
Proof.
  unfold strconv.utoa.
  destruct (utoa_aux_rendering (S (N.to_nat (N.log2 n))) n "") as [s [E R]]; [lia|].
  rewrite E, append_nil_r. exact R.
Qed.

Lemma utoa_dotted n : strings.All dottedChar (strconv.utoa n) = true.
Proof.
  apply strAll_impl with (p := strconv.isDigit).
  - intros c H. unfold dottedChar. rewrite H. reflexivity.
  - apply (r_digits _ _ (utoa_rendering n)).
Qed.

Lemma string4_dotted a b c d : strings.All dottedChar (net.string4 a b c d) = true.
Proof.
  unfold net.string4. rewrite !strAll_app, !utoa_dotted. reflexivity.
Qed.

Lemma JoinHostPort_plain host port :
  strings.ContainsByte host ":" = false ->
  net.JoinHostPort host port = host ++ ":" ++ port.
Proof. intros H. unfold net.JoinHostPort. rewrite H. reflexivity. Qed.

Lemma JoinHostPort_string4 a b c d port :
  net.JoinHostPort (net.string4 a b c d) port = net.string4 a b c d ++ ":" ++ port.
Proof.
  apply JoinHostPort_plain.
  apply ContainsByte_false with (p := dottedChar);
    auto using string4_dotted.
Qed.

(** ** SOCKS4 requests *)

Lemma readUntilNull_from_app (s rest buf : list byte) :
  Forall (fun b => b <> x00) s ->
  socks4.readUntilNull_from (s ++ x00 :: rest)%list buf = Ok ((buf ++ s)%list, rest).
Proof.
  intros H. revert buf. induction H as [|b s Hb _ IH]; intros buf; simpl.
  - rewrite app_nil_r. reflexivity.
  - destruct (Byte.eqb b x00) eqn:E.
    + apply Byte.byte_dec_bl in E. contradiction.
    + rewrite IH, <- app_assoc. reflexivity.
Qed.

(** A request built by [NewRequest] never passes the SOCKS4a test: the
    address it stores comes from [net.IPv4], whose first four bytes are
    zero whatever the destination is. *)
Lemma isSocks4a_IPv4 version cmd user name port a b c d :
  socks4.isSocks4a
    {| socks4.Version := version; socks4.Cmd := cmd; socks4.User := user;
       socks4.DestAddr := {| socks4.Name := name; socks4.IP := net.IPv4 a b c d;
                             socks4.Port := port |} |} = Ok false.
Proof. reflexivity. Qed.

Lemma Address_String_IPv4 a b c d port :
  socks4.Address_String
    (Some {| socks4.Name := ""; socks4.IP := net.IPv4 a b c d; socks4.Port := port |})
  = net.string4 a b c d ++ ":" ++ strconv.Itoa port.
Proof.
  unfold socks4.Address_String. cbn [socks4.Name socks4.IP socks4.Port String.length Nat.ltb Nat.leb].
  change (net.IP_String (net.IPv4 a b c d)) with (net.string4 a b c d).
  apply JoinHostPort_string4.
Qed.

(** Every request [NewRequest] accepts has an empty destination name:
    the branch that reads the SOCKS4a domain is never taken. *)
Lemma NewRequest_never_names (r : Reader) req rest :
  socks4.NewRequest r = Ok (req, rest) ->
  socks4.Name (socks4.DestAddr req) = "" /\ socks4.isSocks4a req = Ok false.
Proof.
  unfold socks4.NewRequest. intros H.
  destruct (ReadFull 2 r) as [[header r1]|]; cbn [bind] in H; [|discriminate].
  destruct header as [|version [|command [|]]]; try discriminate.
  destruct (negb (Byte.eqb version socks4.Socks4Version)); [discriminate|].
  destruct (ReadFull 6 r1) as [[addr r2]|]; cbn [bind] in H; [|discriminate].
  destruct addr as [|p0 [|p1 [|a [|b [|c [|d [|]]]]]]]; try discriminate.
  destruct (socks4.readUntilNull r2) as [[user r3]|]; cbn [bind] in H; [|discriminate].
  rewrite isSocks4a_IPv4 in H. cbn [bind] in H.
  injection H as <- <-. split; reflexivity.
Qed.

(** C1.  [NewRequest] on the SOCKS4a wire form [0x04 | cmd | port |
    0.0.0.x | user | 0 | host | 0] succeeds, but as a plain SOCKS4
    request: the SOCKS4a test fails, the destination name stays empty,
    the bytes of [host] are left unread in the stream, and the destination
    string is [0.0.0.x:port] instead of [host:port]. *)
Theorem NewRequest_socks4a_domain_unread :
  forall (cmd p0 p1 x : byte) (user host : list byte),
    Forall (fun b => b <> x00) user ->
    exists req,
      socks4.NewRequest (socks4.socks4aBytes cmd p0 p1 x user host)
        = Ok (req, (host ++ [x00])%list)
      /\ socks4.Cmd req = cmd
      /\ socks4.isSocks4a req = Ok false
      /\ socks4.Name (socks4.DestAddr req) = ""
      /\ socks4.Address_String (Some (socks4.DestAddr req))
         = net.string4 x00 x00 x00 x ++ ":" ++ strconv.Itoa (socks4.Uint16 p0 p1).
Proof.
  intros cmd p0 p1 x user host Hu.
  eexists. split.
  - unfold socks4.NewRequest, socks4.socks4aBytes.
    cbn [app ReadFull List.length Nat.leb firstn skipn bind].
    change (negb (Byte.eqb socks4.Socks4Version socks4.Socks4Version)) with false.
    cbv iota.
    cbn [app ReadFull List.length Nat.leb firstn skipn bind].
    unfold socks4.readUntilNull.
    rewrite readUntilNull_from_app by assumption.
    cbn [bind app]. rewrite isSocks4a_IPv4. cbn [bind]. reflexivity.
  - repeat split. apply Address_String_IPv4.
Qed.

Lemma NewRequest_socks4a_domain_unread_witness :
  Forall (fun b => b <> x00) (@nil byte) /\
  exists req,
    socks4.NewRequest
      [x04; x01; x00; x50; x00; x00; x00; x01; x00;
       x65; x78; x2e; x63; x6f; x6d; x00]
      = Ok (req, [x65; x78; x2e; x63; x6f; x6d; x00])
    /\ socks4.Cmd req = socks4.ConnectCommand
    /\ socks4.isSocks4a req = Ok false
    /\ socks4.Name (socks4.DestAddr req) = ""
    /\ socks4.Address_String (Some (socks4.DestAddr req)) = "0.0.0.1:80".
Proof.
  split; [constructor|].
  exact (NewRequest_socks4a_domain_unread x01 x00 x50 x01 []
           [x65; x78; x2e; x63; x6f; x6d] (Forall_nil _)).
Defined.

(** ** SOCKS5 method negotiation *)

Lemma Byte_eqb_refl b : Byte.eqb b b = true.
Proof. apply Byte.byte_dec_lb. reflexivity. Qed.

Lemma Byte_eqb_sym a b : Byte.eqb a b = Byte.eqb b a.
Proof.
  destruct (Byte.eqb a b) eqn:E1, (Byte.eqb b a) eqn:E2; try reflexivity.
  - apply Byte.byte_dec_bl in E1. subst. rewrite Byte_eqb_refl in E2. discriminate.
  - apply Byte.byte_dec_bl in E2. subst. rewrite Byte_eqb_refl in E1. discriminate.
Qed.

Lemma IndexByte_from_range b c i :
  socks5.IndexByte_from b c i = -1 \/ i <= socks5.IndexByte_from b c i.
Proof.
  revert i. induction b as [|x r IH]; intros i; simpl; [left; reflexivity|].
  destruct (Byte.eqb x c); [right; lia|].
  destruct (IH (i + 1)); [left; assumption | right; lia].
Qed.

Lemma IndexByte_from_found b c i :
  0 <= i -> (socks5.IndexByte_from b c i =? -1) = negb (existsb (Byte.eqb c) b).
Proof.
  revert i. induction b as [|x r IH]; intros i Hi; simpl; [reflexivity|].
  rewrite (Byte_eqb_sym c x).
  destruct (Byte.eqb x c); simpl.
  - apply Z.eqb_neq. lia.
  - apply IH. lia.
Qed.

Lemma has_existsb methods m : socks5.has methods m = existsb (Byte.eqb m) methods.
Proof.
  unfold socks5.has, socks5.IndexByte.
  rewrite IndexByte_from_found by lia. apply negb_involutive.
Qed.

Lemma ReadFull_app (l rest : list byte) :
  ReadFull (List.length l) (l ++ rest)%list = Ok (l, rest).
Proof.
  unfold ReadFull.
  rewrite List.length_app.
  replace (Nat.leb (List.length l) (List.length l + List.length rest)) with true
    by (symmetry; apply Nat.leb_le; lia).
  rewrite firstn_app, Nat.sub_diag, firstn_all, skipn_app, Nat.sub_diag, skipn_all.
  simpl. rewrite app_nil_r. reflexivity.
Qed.

(** Reading a length-prefixed byte string that is there in full. *)
Lemma readBytes_ok (c : socks5.Conn) n l rest :
  socks5.input c = n :: (l ++ rest)%list ->
  N.to_nat (Byte.to_N n) = List.length l ->
  socks5.readBytes c =
    ({| socks5.input := rest; socks5.output := socks5.output c;
        socks5.wfail := socks5.wfail c |}, Ok l).
Proof.
  intros Hi Hn.
  unfold socks5.readBytes, socks5.readByte, socks5.mbind, socks5.readFull.
  rewrite Hi. cbn -[ReadFull].
  change (ReadFull 1 (n :: (l ++ rest)%list)) with (Ok ([n], (l ++ rest)%list)).
  cbn -[ReadFull]. rewrite Hn, ReadFull_app. reflexivity.
Qed.

Lemma Write_ok (c : socks5.Conn) bs :
  socks5.wfail c = None ->
  socks5.Write bs c =
    ({| socks5.input := socks5.input c; socks5.output := (socks5.output c ++ bs)%list;
        socks5.wfail := None |}, Ok tt).
Proof. intros H. unfold socks5.Write. rewrite H. reflexivity. Qed.

Lemma extends_ret {A} (a : A) : extends (socks5.ret a).
Proof. intros c c' r H. injection H as <- _. exists []. rewrite app_nil_r. reflexivity. Qed.

Lemma extends_fail {A} e : extends (@socks5.fail A e).
Proof. intros c c' r H. injection H as <- _. exists []. rewrite app_nil_r. reflexivity. Qed.

Lemma extends_bind {A B} (m : socks5.M A) (k : A -> socks5.M B) :
  extends m -> (forall a, extends (k a)) -> extends (socks5.mbind m k).
Proof.
  intros Hm Hk c c' r H. unfold socks5.mbind in H.
  destruct (m c) as [c1 [a|e]] eqn:E.
  - destruct (Hm _ _ _ E) as [t1 H1]. destruct (Hk a _ _ _ H) as [t2 H2].
    exists (t1 ++ t2)%list. rewrite H2, H1, app_assoc. reflexivity.
  - injection H as <- _. exact (Hm _ _ _ E).
Qed.

Lemma extends_Write bs : extends (socks5.Write bs).
Proof.
  intros c c' r H. unfold socks5.Write in H.
  destruct (socks5.wfail c); injection H as <- _.
  - exists []. rewrite app_nil_r. reflexivity.
  - exists bs. reflexivity.
Qed.

Lemma extends_readFull n : extends (socks5.readFull n).
Proof.
  intros c c' r H. unfold socks5.readFull in H.
  destruct (ReadFull n (socks5.input c)) as [[bs rest]|]; injection H as <- _;
    exists []; rewrite app_nil_r; reflexivity.
Qed.

Lemma extends_readByte : extends socks5.readByte.
Proof.
  apply extends_bind; [apply extends_readFull|].
  intros [|b [|]]; auto using extends_ret, extends_fail.
Qed.

Lemma extends_readBytes : extends socks5.readBytes.
Proof. apply extends_bind; [apply extends_readByte | intros; apply extends_readFull]. Qed.

Lemma extends_handleUsernamePasswordAuth s : extends (socks5.handleUsernamePasswordAuth s).
Proof.
  unfold socks5.handleUsernamePasswordAuth.
  apply extends_bind; [apply extends_readByte | intros version].
  destruct (negb (Byte.eqb version x01)); [apply extends_fail|].
  apply extends_bind; [apply extends_readBytes | intros username].
  apply extends_bind; [apply extends_readBytes | intros password].
  destruct (socks5.Credentials s) as [valid|]; [|apply extends_fail].
  destruct (valid _ _); [apply extends_Write|].
  apply extends_bind; [apply extends_Write | intros; apply extends_fail].
Qed.

(** When GSSAPI is among the offered methods the server answers with
    GSSAPI and gives up, whatever else is offered. *)
Lemma authenticate_gssapi s (c : socks5.Conn) n methods rest :
  socks5.input c = n :: (methods ++ rest)%list ->
  N.to_nat (Byte.to_N n) = List.length methods ->
  socks5.wfail c = None ->
  existsb (Byte.eqb socks5.gssapiAuth) methods = true ->
  socks5.authenticate s c =
    ({| socks5.input := rest;
        socks5.output := (socks5.output c ++ [socks5.socks5Version; socks5.gssapiAuth])%list;
        socks5.wfail := None |},
     Err (Errorf "GSSAPI authentication is not supported")).
Proof.
  intros Hi Hn Hw Hg.
  unfold socks5.authenticate, socks5.mbind at 1.
  rewrite (readBytes_ok c n methods rest Hi Hn), has_existsb, Hg.
  unfold socks5.mbind. rewrite Write_ok by exact Hw. reflexivity.
Qed.

(** C4, as amended.  For every offered list without GSSAPI the first
    reply is the version byte followed by the method of the
    specification's rule: [0x02] when credentials are configured and it
    is offered, else [0x00] when offered, else [0xFF].  With [0x00] the
    negotiation succeeds with nothing more written; with [0xFF] it fails
    with [errNoSupportedAuth], upon which the serving goroutine closes
    the connection. *)
Theorem authenticate_selection :
  forall (s : socks5.Server) (c : socks5.Conn) (n : byte) (methods rest : list byte),
    socks5.input c = n :: (methods ++ rest)%list ->
    N.to_nat (Byte.to_N n) = List.length methods ->
    socks5.wfail c = None ->
    existsb (Byte.eqb socks5.gssapiAuth) methods = false ->
    let m := socks5.specSelection (socks5.isSome (socks5.Credentials s)) methods in
    exists c' r tail,
      socks5.authenticate s c = (c', r)
      /\ socks5.output c' = (socks5.output c ++ [socks5.socks5Version; m] ++ tail)%list
      /\ (m = socks5.noAuth -> r = Ok tt /\ tail = [] /\ socks5.input c' = rest)
      /\ (m = socks5.noAcceptable -> r = Err socks5.errNoSupportedAuth /\ tail = []).
Proof.
  intros s c n methods rest Hi Hn Hw Hg m. subst m.
  unfold socks5.authenticate, socks5.mbind at 1.
  rewrite (readBytes_ok c n methods rest Hi Hn), !has_existsb, Hg.
  unfold socks5.specSelection.
  set (c1 := {| socks5.input := rest; socks5.output := socks5.output c;
                socks5.wfail := socks5.wfail c |}).
  assert (Hw1 : socks5.wfail c1 = None) by exact Hw.
  destruct (socks5.isSome (socks5.Credentials s)
            && existsb (Byte.eqb socks5.usernamePasswordAuth) methods) eqn:E2.
  - unfold socks5.mbind at 1. rewrite Write_ok by exact Hw1.
    destruct (socks5.handleUsernamePasswordAuth s
                {| socks5.input := socks5.input c1;
                   socks5.output := (socks5.output c1 ++ [socks5.socks5Version; socks5.usernamePasswordAuth])%list;
                   socks5.wfail := None |}) as [c' r] eqn:E.
    destruct (extends_handleUsernamePasswordAuth s _ _ _ E) as [tail Ht].
    exists c', r, tail. split; [reflexivity|]. split.
    + rewrite Ht. simpl. rewrite <- app_assoc. reflexivity.
    + split; discriminate.
  - destruct (existsb (Byte.eqb socks5.noAuth) methods) eqn:E0.
    + rewrite Write_ok by exact Hw1.
      eexists _, _, []. split; [reflexivity|]. split; [reflexivity|].
      split; [intros _; repeat split | discriminate].
    + unfold socks5.mbind. rewrite Write_ok by exact Hw1.
      eexists _, _, []. split; [reflexivity|]. split; [reflexivity|].
      split; [discriminate | intros _; split; reflexivity].
Qed.

Lemma authenticate_selection_witness :
  exists c' r tail,
    socks5.authenticate {| socks5.Credentials := None |}
      {| socks5.input := [x02; x00; x02]; socks5.output := []; socks5.wfail := None |}
      = (c', r)
    /\ socks5.output c' = ([] ++ [x05; x00] ++ tail)%list
    /\ (socks5.noAuth = socks5.noAuth -> r = Ok tt /\ tail = [] /\ socks5.input c' = [])
    /\ (socks5.noAuth = socks5.noAcceptable -> r = Err socks5.errNoSupportedAuth /\ tail = []).
Proof.
  exact (authenticate_selection {| socks5.Credentials := None |}
           {| socks5.input := [x02; x00; x02]; socks5.output := []; socks5.wfail := None |}
           x02 [x00; x02] [] eq_refl eq_refl eq_refl eq_refl).
Defined.

(** C4 as stated fails on a list that offers GSSAPI next to
    username/password: with credentials configured the rule of the claim
    selects [0x02], but the server answers [0x05 0x01] and fails. *)
Lemma authenticate_gssapi_counterexample :
  socks5.specSelection true [x01; x02] = x02 /\
  socks5.authenticate {| socks5.Credentials := Some anyPassword |}
    {| socks5.input := [x02; x01; x02]; socks5.output := []; socks5.wfail := None |}
  = ({| socks5.input := []; socks5.output := [x05; x01]; socks5.wfail := None |},
     Err (Errorf "GSSAPI authentication is not supported")).
Proof. split; reflexivity. Qed.

(** ** The SOCKS5 UDP relay *)

Lemma firstn_copyAt0 (buf src : list byte) :
  firstn (List.length src) (socks5.copyAt buf 0 src) = src.
Proof.
  unfold socks5.copyAt. simpl.
  rewrite firstn_app, Nat.sub_diag, firstn_all. simpl. apply app_nil_r.
Qed.

Lemma length_copyAt (buf src : list byte) off :
  (off + List.length src <= List.length buf)%nat ->
  List.length (socks5.copyAt buf off src) = List.length buf.
Proof.
  intros H. unfold socks5.copyAt.
  rewrite !List.length_app, length_firstn, length_skipn. lia.
Qed.

(** The two [copy] calls in the branch from the target to the client
    leave the prefix followed by the datagram at the head of the buffer. *)
Lemma prefix_then_data (buf p data : list byte) :
  firstn (List.length data) buf = data ->
  (List.length p + List.length data <= List.length buf)%nat ->
  firstn (List.length p + List.length data)
    (socks5.copyAt (socks5.copyAt buf (List.length p) data) 0 p) = (p ++ data)%list.
Proof.
  intros Hd Hl. unfold socks5.copyAt. simpl.
  rewrite firstn_app.
  replace (List.length p + List.length data - List.length p)%nat with (List.length data) by lia.
  rewrite firstn_all2 by lia. f_equal.
  rewrite skipn_app, length_firstn.
  replace (Nat.min (List.length p) (List.length buf)) with (List.length p) by lia.
  rewrite Nat.sub_diag, skipn_all2 by (rewrite length_firstn; lia).
  simpl. rewrite firstn_app, Nat.sub_diag, firstn_all. simpl. apply app_nil_r.
Qed.

Section RelayFacts.

Variable NetAddr : Type.
Variable NetAddr_String : NetAddr -> string.
Variable readAddr : list byte -> result (socks5.address * list byte).
Variable address_String : socks5.address -> string.
Variable writeAddrWithStr : string -> result (list byte).
Variable maxUdpPacket : nat.

Local Abbreviation state := (socks5.state NetAddr).
Local Abbreviation step := (socks5.step NetAddr NetAddr_String readAddr address_String
                    writeAddrWithStr maxUdpPacket).
Local Abbreviation relay := (socks5.relay NetAddr NetAddr_String readAddr address_String
                     writeAddrWithStr maxUdpPacket).
Local Abbreviation framed := (framed NetAddr readAddr).
Local Abbreviation sized := (sized NetAddr maxUdpPacket).
Local Abbreviation keepsPrefix := (keepsPrefix NetAddr).

Lemma step_spec (st : state) data from wres :
  sized st ->
  let data' := firstn maxUdpPacket data in
  let (ws, nx) := step st data from wres in
  (forall st', nx = socks5.Continue NetAddr st' -> sized st' /\ keepsPrefix st st')
  /\ (ws = [] \/
      exists w, ws = [w] /\
        match socks5.to NetAddr w with
        | socks5.ToTarget _ _ _ => framed [] (data', w)
        | socks5.ToSource _ _ =>
            exists p, framed p (data', w) /\
              (forall q, socks5.replyPrefix NetAddr st = Some q -> q = p) /\
              (forall st', nx = socks5.Continue NetAddr st' ->
                           socks5.replyPrefix NetAddr st' = Some p)
        end).
Proof.
  intros Hsz data'.
  assert (Hlen : (List.length data' <= maxUdpPacket)%nat)
    by (unfold data'; rewrite length_firstn; lia).
  assert (Hb : List.length (socks5.copyAt (socks5.buf NetAddr st) 0 data') = maxUdpPacket)
    by (rewrite length_copyAt; [exact Hsz | unfold sized in Hsz; simpl; lia]).
  assert (Hf := firstn_copyAt0 (socks5.buf NetAddr st) data').
  unfold socks5.step. fold data'.
  set (b0 := socks5.copyAt (socks5.buf NetAddr st) 0 data') in *.
  set (st0 := socks5.setBuf NetAddr st b0).
  set (st1 := match socks5.sourceAddr NetAddr st0 with
              | None => socks5.setSource NetAddr NetAddr_String st0 from
              | Some _ => st0
              end).
  assert (Hb1 : socks5.buf NetAddr st1 = b0)
    by (unfold st1; destruct (socks5.sourceAddr NetAddr st0); reflexivity).
  assert (Hp1 : socks5.replyPrefix NetAddr st1 = socks5.replyPrefix NetAddr st)
    by (unfold st1; destruct (socks5.sourceAddr NetAddr st0); reflexivity).
  assert (K1 : sized st1 /\ keepsPrefix st st1)
    by (split; [unfold sized; rewrite Hb1; exact Hb | intros p Hp; rewrite Hp1; exact Hp]).
  destruct (String.eqb (socks5.wantSource NetAddr st1) (NetAddr_String from)).
  - (* from the client *)
    destruct (Nat.ltb_spec (List.length data') 3) as [Hshort|Hlong].
    + split; [intros st' E; injection E as <-; exact K1 | left; reflexivity].
    + rewrite Hb1, Hf.
      destruct (readAddr (skipn 3 data')) as [[addr unread]|] eqn:Er.
      2:{ split; [intros st' E; injection E as <-; exact K1 | left; reflexivity]. }
      set (st2 := match socks5.targetAddr NetAddr st1 with
                  | None => socks5.setTarget NetAddr st1 (socks5.IP addr) (socks5.Port addr)
                  | Some _ => st1
                  end).
      assert (K2 : sized st2 /\ keepsPrefix st st2).
      { unfold st2. destruct (socks5.targetAddr NetAddr st1); [exact K1|].
        destruct K1 as [S1 P1]. split; [exact S1 | exact P1]. }
      destruct (negb (String.eqb (address_String addr) (socks5.wantTarget NetAddr st2))).
      * split; [intros st' E; injection E as <-; exact K2 | left; reflexivity].
      * destruct (socks5.targetAddr NetAddr st2) as [[ip port]|].
        -- split.
           ++ intros st' E. destruct wres; [discriminate|]. injection E as <-. exact K2.
           ++ right. eexists. split; [reflexivity|]. simpl.
              split; [exact Hlong | exists addr; exact Er].
        -- split; [intros st' E; discriminate | left; reflexivity].
  - destruct (socks5.isSome (socks5.targetAddr NetAddr st1)
              && String.eqb (socks5.wantTarget NetAddr st1) (NetAddr_String from)).
    2:{ split; [intros st' E; injection E as <-; exact K1 | left; reflexivity]. }
    (* from the target *)
    set (mk := match socks5.replyPrefix NetAddr st1 with
               | Some p => Ok (st1, p)
               | None =>
                   match writeAddrWithStr (socks5.wantTarget NetAddr st1) with
                   | Err e => Err e
                   | Ok bs => Ok (socks5.setPrefix NetAddr st1 ([x00; x00; x00] ++ bs)%list,
                                  ([x00; x00; x00] ++ bs)%list)
                   end
               end).
    assert (Hmk : match mk with
                  | Err _ => True
                  | Ok (st2, p) =>
                      socks5.buf NetAddr st2 = b0 /\
                      socks5.replyPrefix NetAddr st2 = Some p /\
                      (forall q, socks5.replyPrefix NetAddr st = Some q -> q = p)
                  end).
    { unfold mk. rewrite Hp1.
      destruct (socks5.replyPrefix NetAddr st) as [p|].
      - repeat split; [exact Hb1 | exact Hp1 | intros q E; injection E as <-; reflexivity].
      - destruct (writeAddrWithStr (socks5.wantTarget NetAddr st1)); [|exact I].
        repeat split; [exact Hb1 | discriminate]. }
    destruct mk as [[st2 p]|e]; [|split; [intros st' E; discriminate | left; reflexivity]].
    destruct Hmk as [Hb2 [Hp2 Hq]].
    destruct (Nat.ltb_spec maxUdpPacket (List.length p + List.length data')) as [Hbig|Hfit];
      [split; [intros st' E; discriminate | left; reflexivity]|].
    rewrite Hb2, Hf.
    set (b2 := socks5.copyAt (socks5.copyAt b0 (List.length p) data') 0 p).
    assert (Hb2' : List.length b2 = maxUdpPacket).
    { unfold b2. rewrite !length_copyAt; [exact Hb | lia | rewrite length_copyAt; lia]. }
    destruct (socks5.sourceAddr NetAddr (socks5.setBuf NetAddr st2 b2)) as [src|];
      [|split; [intros st' E; discriminate | left; reflexivity]].
    split.
    + intros st' E. destruct wres; [discriminate|]. injection E as <-.
      split; [exact Hb2'|]. intros q Eq. simpl. rewrite Hp2. f_equal. symmetry. exact (Hq q Eq).
    + right. eexists. split; [reflexivity|]. simpl.
      exists p. split; [|split].
      * unfold b2. apply prefix_then_data; [exact Hf | lia].
      * exact Hq.
      * intros st' E. destruct wres; [discriminate|]. injection E as <-. exact Hp2.
Qed.

Lemma relay_framed (evs : list (socks5.event NetAddr)) : forall st : state,
  sized st ->
  exists prefix,
    (forall q, socks5.replyPrefix NetAddr st = Some q -> q = prefix)
    /\ Forall (framed prefix) (fst (relay st evs)).
Proof.
  induction evs as [|ev rest IH]; intros st Hsz.
  - exists (match socks5.replyPrefix NetAddr st with Some q => q | None => [] end).
    split; [intros q ->; reflexivity | constructor].
  - destruct ev as [data from wres|e].
    2:{ exists (match socks5.replyPrefix NetAddr st with Some q => q | None => [] end).
        split; [intros q ->; reflexivity | constructor]. }
    cbn [socks5.relay].
    pose proof (step_spec st data from wres Hsz) as Hs. cbv zeta in Hs.
    destruct (step st data from wres) as [ws nx].
    destruct Hs as [Hnx Hws].
    destruct nx as [st'|e].
    + destruct (Hnx st' eq_refl) as [Hsz' Hkeep].
      destruct (IH st' Hsz') as [prefix [Hpre Hall]].
      destruct (relay st' rest) as [ws' r]. cbn [fst] in *.
      exists prefix. split.
      * intros q Hq. apply Hpre, Hkeep, Hq.
      * apply Forall_app. split; [|exact Hall].
        destruct Hws as [->|[w [-> Hw]]]; [constructor|].
        constructor; [|constructor]. unfold framed at 1.
        destruct (socks5.to NetAddr w) eqn:Et.
        -- unfold framed in Hw. rewrite Et in Hw. exact Hw.
        -- destruct Hw as [p [Hf [_ Hp]]].
           unfold framed in Hf. rewrite Et in Hf.
           rewrite Hf. f_equal. apply Hpre, Hp. reflexivity.
    + cbn [fst].
      destruct Hws as [->|[w [-> Hw]]].
      * exists (match socks5.replyPrefix NetAddr st with Some q => q | None => [] end).
        split; [intros q ->; reflexivity | constructor].
      * destruct (socks5.to NetAddr w) eqn:Et.
        -- exists (match socks5.replyPrefix NetAddr st with Some q => q | None => [] end).
           split; [intros q ->; reflexivity|].
           constructor; [|constructor]. unfold framed in *. rewrite Et in *. exact Hw.
        -- destruct Hw as [p [Hf [Hq _]]]. exists p. split; [exact Hq|].
           constructor; [exact Hf | constructor].
Qed.

Lemma sized_initial : sized (socks5.initial NetAddr maxUdpPacket).
Proof. unfold sized. simpl. apply repeat_length. Qed.


(** C8, as amended.  The loop never looks at the bytes [RSV | FRAG] of
    a datagram from the client: two datagrams that differ in their
    first three bytes only give rise to the same writes and leave the
    same addresses and prefix behind. *)
Theorem step_ignores_frag (st : state) (h h' body : list byte) from wres :
  List.length h = 3%nat -> List.length h' = 3%nat ->
  socks5.fromClient NetAddr NetAddr_String st from = true ->
  fst (step st (h ++ body)%list from wres) = fst (step st (h' ++ body)%list from wres)
  /\ socks5.locals NetAddr (snd (step st (h ++ body)%list from wres))
     = socks5.locals NetAddr (snd (step st (h' ++ body)%list from wres)).
Proof.
  intros Hh Hh' Hc.
  assert (Hd : forall x : list byte, List.length x = 3%nat ->
            List.length (firstn maxUdpPacket (x ++ body)%list)
            = Nat.min maxUdpPacket (3 + List.length body)
            /\ skipn 3 (firstn maxUdpPacket (x ++ body)%list)
               = firstn (maxUdpPacket - 3) body).
  { intros x Hx. split.
    - rewrite length_firstn, List.length_app, Hx. reflexivity.
    - rewrite firstn_app, Hx, skipn_app, length_firstn, Hx.
      destruct (Nat.le_gt_cases 3 maxUdpPacket).
      + rewrite skipn_all2 by (rewrite length_firstn; lia).
        replace (3 - Nat.min maxUdpPacket 3)%nat with 0%nat by lia. reflexivity.
      + replace (maxUdpPacket - 3)%nat with 0%nat by lia.
        rewrite (skipn_all2 (firstn maxUdpPacket x)) by (rewrite length_firstn; lia).
        simpl. apply skipn_nil. }
  destruct (Hd h Hh) as [L1 S1]. destruct (Hd h' Hh') as [L2 S2].
  unfold socks5.step. cbv zeta.
  unfold socks5.fromClient in Hc.
  cbn [socks5.setBuf socks5.sourceAddr].
  destruct (socks5.sourceAddr NetAddr st) as [src|] eqn:Es;
    cbn [socks5.setBuf socks5.setSource socks5.setTarget socks5.sourceAddr
         socks5.wantSource socks5.buf socks5.targetAddr socks5.wantTarget
         socks5.replyPrefix];
    rewrite ?Hc, ?String.eqb_refl, !firstn_copyAt0, L1, L2, S1, S2;
    (destruct (Nat.ltb (Nat.min maxUdpPacket (3 + List.length body)) 3);
     [split; reflexivity|]);
    (destruct (readAddr (firstn (maxUdpPacket - 3) body)) as [[addr unread]|];
     [|split; reflexivity]);
    destruct (socks5.targetAddr NetAddr st) as [[ip port]|] eqn:Et;
    cbn [socks5.setBuf socks5.setSource socks5.setTarget socks5.sourceAddr
         socks5.wantSource socks5.buf socks5.targetAddr socks5.wantTarget
         socks5.replyPrefix];
    match goal with
    | |- context [negb ?b] => destruct b
    end;
    cbn [negb]; try (split; reflexivity);
    rewrite ?Et;
    cbn [socks5.setBuf socks5.setSource socks5.setTarget socks5.sourceAddr
         socks5.wantSource socks5.buf socks5.targetAddr socks5.wantTarget
         socks5.replyPrefix];
    destruct wres; split; reflexivity.
Qed.

End RelayFacts.


Lemma step_ignores_frag_witness :
  List.length [x00; x00; x00] = 3%nat /\ List.length [x00; x00; x01] = 3%nat /\
  socks5.fromClient string (fun a => a) (socks5.initial string 2048) wire.client = true /\
  fst (wire.step 2048 (socks5.initial string 2048) wire.query wire.client None)
  = fst (wire.step 2048 (socks5.initial string 2048) wire.fragment wire.client None)
  /\ socks5.locals string (snd (wire.step 2048 (socks5.initial string 2048) wire.query wire.client None))
     = socks5.locals string (snd (wire.step 2048 (socks5.initial string 2048) wire.fragment wire.client None)).
Proof.
  split; [reflexivity|]. split; [reflexivity|]. split; [reflexivity|].
  exact (step_ignores_frag string (fun a => a) wire.readAddr wire.address_String
           wire.writeAddrWithStr 2048 (socks5.initial string 2048)
           [x00; x00; x00] [x00; x00; x01]
           [x01; x08; x08; x08; x08; x00; x35; xde; xad]
           wire.client None eq_refl eq_refl eq_refl).
Defined.

(** C8 as stated fails: a datagram from the client whose FRAG byte is 1
    and whose header names the target is forwarded like any other. *)
Lemma relay_forwards_fragment_counterexample :
  nth_error wire.fragment 2 = Some x01 /\
  fst (wire.embedHandleAssociate 2048
         [socks5.Datagram string wire.fragment wire.client None])
  = [(wire.fragment,
      socks5.WriteTo string [xde; xad] (socks5.ToTarget string [x08; x08; x08; x08] 53))].
Proof. split; [reflexivity | vm_compute; reflexivity]. Qed.

(** ** The byte pump *)

Lemma copyIteration_continues it w :
  vtun.continues it -> vtun.copyIteration it w = inl (w + vtun.moved it).
Proof.
  intros [Hd [Hr Hw]]. unfold vtun.copyIteration, vtun.moved. rewrite Hd, Hr.
  destruct (Z.ltb_spec 0 (vtun.nr it)) as [Hpos|Hnon].
  - destruct Hw as [Hw|[Hw Hn]]; [lia|]. rewrite Hw, Hn.
    replace (vtun.nr it <? 0) with false by (symmetry; apply Z.ltb_ge; lia).
    rewrite Z.ltb_irrefl, Z.eqb_refl. simpl. f_equal. lia.
  - f_equal. lia.
Qed.

Lemma copyIteration_inl it w w' :
  vtun.copyIteration it w = inl w' -> vtun.continues it.
Proof.
  unfold vtun.copyIteration, vtun.continues.
  destruct (vtun.deadlineErr it); [discriminate|].
  destruct (Z.ltb_spec 0 (vtun.nr it)) as [Hpos|Hnon].
  - destruct (Z.ltb_spec (vtun.nw it) 0) as [Hneg|Hnn]; simpl.
    + destruct (vtun.ew it); discriminate.
    + destruct (Z.ltb_spec (vtun.nr it) (vtun.nw it)) as [Hover|Hle]; simpl.
      * destruct (vtun.ew it); discriminate.
      * destruct (vtun.ew it); [discriminate|].
        destruct (Z.eqb_spec (vtun.nr it) (vtun.nw it)) as [Heq|Hne]; simpl; [|discriminate].
        destruct (vtun.er it) as [e|]; [destruct (error_eqb e EOF); discriminate|].
        intros _. repeat split. right. split; [reflexivity | lia].
  - destruct (vtun.er it) as [e|]; [destruct (error_eqb e EOF); discriminate|].
    intros _. repeat split. left. exact Hnon.
Qed.

Lemma copyIteration_error it w w' e :
  vtun.copyIteration it w = inr (w', Some e) -> vtun.cause it e.
Proof.
  unfold vtun.copyIteration.
  destruct (vtun.deadlineErr it) as [d|] eqn:Hd.
  { intros H. injection H as _ <-. apply vtun.DeadlineFailed. exact Hd. }
  assert (Hread : forall x,
            match vtun.er it with
            | Some e0 => if error_eqb e0 EOF then inr (x, None) else inr (x, Some e0)
            | None => inl x
            end = (inr (w', Some e) : Z + Z * option error) -> vtun.cause it e).
  { intros x. destruct (vtun.er it) as [e0|] eqn:Hr; [|discriminate].
    destruct (error_eqb e0 EOF) eqn:He; [discriminate|].
    intros H. injection H as _ <-. apply vtun.ReadFailed; assumption. }
  destruct (Z.ltb_spec 0 (vtun.nr it)) as [Hpos|Hnon]; [|apply Hread].
  destruct (Z.ltb_spec (vtun.nw it) 0) as [Hneg|Hnn]; simpl.
  { destruct (vtun.ew it) as [x|] eqn:Hw; intros H; injection H as _ <-.
    - apply vtun.WriteError; assumption.
    - apply vtun.InvalidWrite; auto. }
  destruct (Z.ltb_spec (vtun.nr it) (vtun.nw it)) as [Hover|Hle]; simpl.
  { destruct (vtun.ew it) as [x|] eqn:Hw; intros H; injection H as _ <-.
    - apply vtun.WriteError; assumption.
    - apply vtun.InvalidWrite; auto. }
  destruct (vtun.ew it) as [x|] eqn:Hw.
  { intros H; injection H as _ <-. apply vtun.WriteError; assumption. }
  destruct (Z.eqb_spec (vtun.nr it) (vtun.nw it)) as [Heq|Hne]; simpl; [apply Hread|].
  intros H; injection H as _ <-. apply vtun.ShortWrite; auto. lia.
Qed.

Lemma copyLoop_continues pre rest w :
  Forall vtun.continues pre ->
  vtun.copyLoop (pre ++ rest)%list w = vtun.copyLoop rest (w + vtun.total pre).
Proof.
  intros H. revert w. induction H as [|it pre Hit _ IH]; intros w; simpl.
  - f_equal. lia.
  - rewrite (copyIteration_continues it w Hit), IH. f_equal. lia.
Qed.

Lemma copyLoop_error script : forall w w' e,
  vtun.copyLoop script w = vtun.Returned w' (Some e) ->
  exists pre it post,
    script = (pre ++ it :: post)%list /\ Forall vtun.continues pre /\ vtun.cause it e.
Proof.
  induction script as [|it rest IH]; intros w w' e H; simpl in H; [discriminate|].
  destruct (vtun.copyIteration it w) as [w1|[w1 e1]] eqn:E.
  - destruct (IH _ _ _ H) as [pre [it' [post [-> [Hp Hc]]]]].
    exists (it :: pre), it', post. split; [reflexivity|]. split; [|exact Hc].
    constructor; [exact (copyIteration_inl _ _ _ E) | exact Hp].
  - injection H as -> ->. exists [], it, rest.
    split; [reflexivity|]. split; [constructor | exact (copyIteration_error _ _ _ _ E)].
Qed.

(** C10.  With a usable buffer: when, after iterations that each moved
    their data in full, a read returns [io.EOF] (with no data, or with
    data that is then written in full), [copyConnTimeout] returns at once
    with a nil error and the count of all bytes written; and whenever it
    returns a non-nil error, that error is the failure to set the read
    deadline, a write error (an invalid write count included), a short
    write, or a read error other than [io.EOF]. *)
Theorem copyConnTimeout_clean_eof :
  forall (buflen : option Z) (timeout : Z),
    buflen <> Some 0 ->
    (forall pre it post,
        Forall vtun.continues pre ->
        vtun.deadlineErr it = None ->
        vtun.er it = Some EOF ->
        (vtun.nr it <= 0 \/ (vtun.ew it = None /\ vtun.nw it = vtun.nr it)) ->
        vtun.copyConnTimeout buflen timeout (pre ++ it :: post)%list
        = vtun.Returned (vtun.total pre + vtun.moved it) None)
    /\ (forall script written e,
           vtun.copyConnTimeout buflen timeout script = vtun.Returned written (Some e) ->
           exists pre it post,
             script = (pre ++ it :: post)%list /\ Forall vtun.continues pre /\ vtun.cause it e).
Proof.
  intros buflen timeout Hb.
  assert (Hc : forall script, vtun.copyConnTimeout buflen timeout script = vtun.copyLoop script 0).
  { intros script. unfold vtun.copyConnTimeout.
    destruct buflen as [[| |]|]; try reflexivity. congruence. }
  split.
  - intros pre it post Hpre Hd Hr Hw.
    rewrite Hc, copyLoop_continues by exact Hpre. cbn [vtun.copyLoop].
    assert (E : vtun.copyIteration it (0 + vtun.total pre)
                = inr (vtun.total pre + vtun.moved it, None)).
    { unfold vtun.copyIteration, vtun.moved. rewrite Hd, Hr. simpl.
      destruct (Z.ltb_spec 0 (vtun.nr it)) as [Hpos|Hnon].
      - destruct Hw as [Hw|[Hw Hn]]; [lia|]. rewrite Hw, Hn.
        replace (vtun.nr it <? 0) with false by (symmetry; apply Z.ltb_ge; lia).
        rewrite Z.ltb_irrefl, Z.eqb_refl. simpl. do 2 f_equal. lia.
      - do 2 f_equal. lia. }
    rewrite E. reflexivity.
  - intros script written e H. rewrite Hc in H. exact (copyLoop_error _ _ _ _ H).
Qed.

Lemma copyConnTimeout_clean_eof_witness :
  Some vtun.BuffSize <> Some 0 /\
  vtun.copyConnTimeout (Some vtun.BuffSize) 0
    [vtun.mkIter None 5 None 5 None; vtun.mkIter None 3 (Some EOF) 3 None;
     vtun.mkIter None 9 None 9 None]
  = vtun.Returned 8 None.
Proof.
  split; [discriminate|].
  refine (proj1 (copyConnTimeout_clean_eof (Some vtun.BuffSize) 0 _)
            [vtun.mkIter None 5 None 5 None] (vtun.mkIter None 3 (Some EOF) 3 None)
            [vtun.mkIter None 9 None 9 None] _ eq_refl eq_refl _).
  - discriminate.
  - constructor; [|constructor]. repeat split. right. split; reflexivity.
  - right. split; reflexivity.
Defined.

(** ** The forwarding handler *)

(** C2.  Once the dial through the tunnel has succeeded, whatever the
    handler returns is nil: the error of a copier is logged and
    dropped.  (The claim asks for the first non-nil copier error.) *)
Theorem handler_discards_copy_errors :
  forall (req : vtun.ProxyRequest) (w : vtun.world) err warnings,
    vtun.dial w = None ->
    vtun.handler req w = vtun.Done err warnings ->
    err = None.
Proof.
  intros req w err warnings Hd. unfold vtun.handler. rewrite Hd.
  destruct (vtun.crashed _); [discriminate|].
  destruct (vtun.crashed _); [discriminate|].
  destruct (if vtun.clientFirst w then _ else _) as [o1 o2].
  destruct o1 as [v1|], o2 as [v2|]; try discriminate;
    intros H; injection H as <- _; reflexivity.
Qed.

Lemma handler_discards_copy_errors_witness :
  vtun.dial resetByTunnel = None /\
  vtun.handler (vtun.mkProxyRequest "tcp" "ex.com:80") resetByTunnel
    = vtun.Done None [Errorf "i/o timeout"] /\
  vtun.firstError (Some (Errorf "i/o timeout")) None = Some (Errorf "i/o timeout") /\
  (None : option error) = None.
Proof.
  split; [reflexivity|]. split; [reflexivity|]. split; [reflexivity|].
  exact (handler_discards_copy_errors (vtun.mkProxyRequest "tcp" "ex.com:80")
           resetByTunnel None [Errorf "i/o timeout"] eq_refl eq_refl).
Defined.

(** ** Hexadecimal and base64 *)

Lemma byteZ_range b : 0 <= byteZ b < 256.
Proof.
  unfold byteZ. pose proof (Byte.to_N_bounded b). lia.
Qed.

Lemma mkbyte_byteZ b : mkbyte (byteZ b) = b.
Proof.
  unfold mkbyte, byteZ. rewrite N2Z.id, Byte.of_to_N. reflexivity.
Qed.

Lemma byteZ_mkbyte z : 0 <= z < 256 -> byteZ (mkbyte z) = z.
Proof.
  intros H. unfold mkbyte, byteZ.
  destruct (Byte.of_N (Z.to_N z)) as [b|] eqn:E.
  - apply Byte.to_of_N in E. rewrite E. lia.
  - apply Byte.of_N_None_iff in E. lia.
Qed.

(** Checking a property of the numbers below [n] by running it. *)
Lemma bounded_check (P : Z -> bool) (n : nat) :
  forallb P (map Z.of_nat (seq 0 n)) = true ->
  forall d, 0 <= d < Z.of_nat n -> P d = true.
Proof.
  intros H d Hd. rewrite forallb_forall in H. apply H.
  apply in_map_iff. exists (Z.to_nat d). split; [lia|].
  apply in_seq. lia.
Qed.

Lemma fromHexChar_hexdigit d :
  0 <= d < 16 -> hex.fromHexChar (hex.hexdigit d) = Some d.
Proof.
  intros H.
  pose proof (bounded_check
    (fun d => match hex.fromHexChar (hex.hexdigit d) with
              | Some x => x =? d
              | None => false
              end) 16 eq_refl d H) as K.
  cbv beta in K. destruct (hex.fromHexChar (hex.hexdigit d)); [|discriminate].
  apply Z.eqb_eq in K. congruence.
Qed.

Lemma hex_roundtrip bs : hex.DecodeString (hex.EncodeToString bs) = Ok bs.
Proof.
  induction bs as [|b r IH]; [reflexivity|].
  pose proof (byteZ_range b).
  cbn [hex.EncodeToString hex.DecodeString].
  rewrite !fromHexChar_hexdigit, IH
    by (try apply Z.mod_pos_bound; try (split; [apply Z.div_pos | apply Z.div_lt_upper_bound]); lia).
  cbn [bind]. do 2 f_equal.
  rewrite <- (mkbyte_byteZ b) at 3. f_equal.
  pose proof (Z.div_mod (byteZ b) 16). lia.
Qed.

Lemma hex_length bs : String.length (hex.EncodeToString bs) = (2 * List.length bs)%nat.
Proof. induction bs; simpl; [reflexivity|]. rewrite IHbs. lia. Qed.

Lemma dec_enc i : 0 <= i < 64 ->
  base64.dec (base64.enc i) = Some i
  /\ Ascii.eqb (base64.enc i) "=" = false
  /\ Ascii.eqb (base64.enc i) "010" = false
  /\ Ascii.eqb (base64.enc i) "013" = false.
Proof.
  intros H.
  pose proof (bounded_check
    (fun i => match base64.dec (base64.enc i) with
              | Some x => (x =? i) && negb (Ascii.eqb (base64.enc i) "=")
                          && negb (Ascii.eqb (base64.enc i) "010")
                          && negb (Ascii.eqb (base64.enc i) "013")
              | None => false
              end) 64 eq_refl i H) as K.
  cbv beta in K. destruct (base64.dec (base64.enc i)); [|discriminate].
  repeat (apply andb_true_iff in K; destruct K as [K ?]).
  apply Z.eqb_eq in K. subst.
  repeat split; try reflexivity; apply negb_true_iff; assumption.
Qed.

Lemma list_ind3 {A} (P : list A -> Prop) :
  P [] -> (forall a, P [a]) -> (forall a b, P [a; b]) ->
  (forall a b c l, P l -> P (a :: b :: c :: l)) ->
  forall l, P l.
Proof.
  intros H0 H1 H2 H3.
  assert (K : forall l, P l /\ (forall a, P (a :: l)) /\ (forall a b, P (a :: b :: l))).
  { induction l as [|x l [K0 [K1 K2]]].
    - repeat split; auto.
    - repeat split; auto. }
  intros l. apply K.
Qed.

Ltac sextet :=
  match goal with
  | |- 0 <= ?e < 64 =>
      repeat match goal with
             | |- context [?a / ?b] =>
                 lazymatch goal with
                 | _ : a = b * (a / b) + a mod b |- _ => fail
                 | _ => pose proof (Z.div_mod a b ltac:(lia));
                        pose proof (Z.mod_pos_bound a b ltac:(lia))
                 end
             | |- context [?a mod ?b] =>
                 lazymatch goal with
                 | _ : a = b * (a / b) + a mod b |- _ => fail
                 | _ => pose proof (Z.div_mod a b ltac:(lia));
                        pose proof (Z.mod_pos_bound a b ltac:(lia))
                 end
             end; lia
  end.

Lemma stripNewlines_encode bs :
  base64.stripNewlines (base64.EncodeToString bs) = base64.EncodeToString bs.
Proof.
  induction bs as [|a|a b|a b c l IH] using list_ind3; [reflexivity| | |];
    pose proof (byteZ_range a); try pose proof (byteZ_range b); try pose proof (byteZ_range c);
    cbn [base64.EncodeToString base64.stripNewlines]; cbv zeta;
    repeat match goal with
           | |- context [Ascii.eqb (base64.enc ?i) "010"] =>
               let H := fresh in
               destruct (dec_enc i) as [_ [_ [H ?]]]; [sextet|]; rewrite H; clear H
           | |- context [Ascii.eqb (base64.enc ?i) "013"] =>
               let H := fresh in
               destruct (dec_enc i) as [_ [_ [_ H]]]; [sextet|]; rewrite H; clear H
           end;
    cbn [orb]; try rewrite IH; reflexivity.
Qed.

Lemma decodeQuanta_encode bs :
  base64.decodeQuanta (base64.EncodeToString bs) = Ok bs.
Proof.
  induction bs as [|a|a b|a b c l IH] using list_ind3; [reflexivity| | |];
    pose proof (byteZ_range a); try pose proof (byteZ_range b); try pose proof (byteZ_range c);
    cbn [base64.EncodeToString base64.decodeQuanta]; cbv zeta;
    repeat match goal with
           | |- context [base64.dec (base64.enc ?i)] =>
               let H := fresh in let H' := fresh in
               destruct (dec_enc i) as [H [H' _]]; [sextet|]; rewrite ?H, ?H'; clear H H'
           end;
    change (Ascii.eqb "=" "=") with true; cbv iota; try rewrite IH; cbn [bind];
    repeat f_equal;
    match goal with
    | |- mkbyte ?e = ?x => transitivity (mkbyte (byteZ x)); [f_equal | apply mkbyte_byteZ]
    end;
    Z.div_mod_to_equations; lia.
Qed.

Lemma base64_roundtrip bs :
  base64.DecodeString (base64.EncodeToString bs) = Ok bs.
Proof.
  unfold base64.DecodeString. rewrite stripNewlines_encode. apply decodeQuanta_encode.
Qed.

(** ** Reading numbers back *)

Lemma isDigit_val c :
  strconv.isDigit c = true -> 0 <= Z.of_N (N_of_ascii c) - 48 <= 9.
Proof.
  unfold strconv.isDigit. intros H.
  apply andb_true_iff in H as [H1 H2].
  apply N.leb_le in H1, H2. lia.
Qed.

Lemma decimal_ge s : forall a v,
  strconv.decimal s a = Some v -> 0 <= a -> a <= v.
Proof.
  induction s as [|c r IH]; intros a v H Ha; cbn [strconv.decimal] in H.
  - injection H as <-. lia.
  - destruct (strconv.isDigit c) eqn:Hc; [|discriminate].
    pose proof (isDigit_val c Hc).
    apply IH in H; lia.
Qed.

Lemma digit_not_underscore c : strconv.isDigit c = true -> Ascii.eqb c "_" = false.
Proof.
  intros H. destruct (Ascii.eqb_spec c "_"); [subst; discriminate | reflexivity].
Qed.

Lemma digitVal_digit c :
  strconv.isDigit c = true -> strconv.digitVal c = Some (Z.of_N (N_of_ascii c) - 48).
Proof. intros H. unfold strconv.digitVal. rewrite H. reflexivity. Qed.

Lemma digits_decimal s : forall a v,
  strconv.decimal s a = Some v -> 0 <= a -> v <= strconv.maxUint64 ->
  strconv.digits true 10 s a = Ok v.
Proof.
  induction s as [|c r IH]; intros a v H Ha Hv;
    cbn [strconv.decimal strconv.digits] in *.
  - injection H as <-. reflexivity.
  - destruct (strconv.isDigit c) eqn:Hc; [|discriminate].
    pose proof (isDigit_val c Hc) as Hd.
    rewrite digit_not_underscore, digitVal_digit by assumption. cbn [andb].
    pose proof (decimal_ge _ _ _ H ltac:(lia)) as Hge.
    unfold strconv.maxUint64 in *.
    change (18446744073709551615 / 10 + 1) with 1844674407370955162.
    replace (10 <=? Z.of_N (N_of_ascii c) - 48) with false by (symmetry; apply Z.leb_gt; lia).
    replace (1844674407370955162 <=? a) with false by (symmetry; apply Z.leb_gt; lia).
    replace (18446744073709551615 <? a * 10 + (Z.of_N (N_of_ascii c) - 48)) with false
      by (symmetry; apply Z.ltb_ge; lia).
    apply IH; [exact H | lia | exact Hv].
Qed.

Lemma digits_no_underscore s :
  strings.All strconv.isDigit s = true -> strings.ContainsByte s "_" = false.
Proof. intros H. apply ContainsByte_false with (p := strconv.isDigit); [exact H | reflexivity]. Qed.

Lemma ParseUint0_utoa n :
  Z.of_N n <= strconv.maxUint64 -> strconv.ParseUint0 (strconv.utoa n) = Ok (Z.of_N n).
Proof.
  intros Hn. destruct (utoa_rendering n) as [R1 R2 R3 R4].
  destruct R4 as [[H0 ->]|[Hpos [_ [c [r [Es Hc]]]]]].
  - rewrite H0. reflexivity.
  - rewrite Es in *. unfold strconv.ParseUint0.
    replace (Ascii.eqb c "0") with false
      by (symmetry; destruct (Ascii.eqb_spec c "0"); [contradiction | reflexivity]).
    pose proof (R3 0) as Hv. rewrite Z.mul_0_l, Z.add_0_l in Hv.
    rewrite (digits_decimal _ _ _ Hv ltac:(lia) Hn). cbn [bind].
    rewrite digits_no_underscore by exact R1. reflexivity.
Qed.

Lemma utoa_head n : exists c r, strconv.utoa n = String c r /\ strconv.isDigit c = true.
Proof.
  destruct (utoa_rendering n) as [R1 R2 _ _].
  destruct (strconv.utoa n) as [|c r]; [congruence|].
  exists c, r. split; [reflexivity|].
  cbn [strings.All] in R1. apply andb_true_iff in R1. apply R1.
Qed.

Lemma ParseInt0_Itoa z : int64 z -> strconv.ParseInt0 (strconv.Itoa z) = Ok z.
Proof.
  unfold int64. intros Hz. unfold strconv.Itoa.
  destruct (Z.ltb_spec z 0) as [Hneg|Hpos].
  - unfold strconv.ParseInt0. change (Ascii.eqb "-" "-") with true. cbn [orb andb negb].
    rewrite ParseUint0_utoa by (unfold strconv.maxUint64; lia).
    cbn [bind]. rewrite Z2N.id by lia.
    replace (9223372036854775808 <? - z) with false by (symmetry; apply Z.ltb_ge; lia).
    f_equal. lia.
  - destruct (utoa_head (Z.to_N z)) as [c [r [E Hc]]].
    pose proof (ParseUint0_utoa (Z.to_N z) ltac:(unfold strconv.maxUint64; lia)) as Hu.
    rewrite E in *. unfold strconv.ParseInt0.
    replace (Ascii.eqb c "-") with false
      by (symmetry; destruct (Ascii.eqb_spec c "-"); [subst; discriminate | reflexivity]).
    replace (Ascii.eqb c "+") with false
      by (symmetry; destruct (Ascii.eqb_spec c "+"); [subst; discriminate | reflexivity]).
    cbn [orb andb negb]. rewrite Hu. cbn [bind]. rewrite Z2N.id by lia.
    replace (9223372036854775808 <=? z) with false by (symmetry; apply Z.leb_gt; lia).
    reflexivity.
Qed.

Lemma plainDecimal_utoa (m : nat) n :
  (1 <= m)%nat ->
  Z.of_N n < 10 ^ Z.of_nat m -> strconv.plainDecimal m (strconv.utoa n) = Some (Z.of_N n).
Proof.
  intros Hm Hn. destruct (utoa_rendering n) as [R1 R2 R3 R4].
  pose proof (R3 0) as Hv. rewrite Z.mul_0_l, Z.add_0_l in Hv.
  destruct R4 as [[H0 E]|[Hpos [Hlen [c [r [Es Hc]]]]]].
  - rewrite E, H0 in *. unfold strconv.plainDecimal. cbn [String.eqb negb andb String.length].
    destruct m as [|m]; [lia|]. reflexivity.
  - rewrite Es in *. unfold strconv.plainDecimal.
    replace (Ascii.eqb c "0") with false
      by (symmetry; destruct (Ascii.eqb_spec c "0"); [contradiction | reflexivity]).
    cbn [andb].
    replace (Nat.leb (String.length (String c r)) m) with true; [exact Hv|].
    symmetry. apply Nat.leb_le.
    assert (Z.of_nat (String.length (String c r)) - 1 < Z.of_nat m); [|lia].
    apply (Z.pow_lt_mono_r_iff 10); lia.
Qed.

Lemma digits_decimal_digits s a v :
  strconv.decimal s a = Some v -> strings.All strconv.isDigit s = true.
Proof.
  revert a. induction s as [|c r IH]; intros a H; cbn [strconv.decimal strings.All] in *; [reflexivity|].
  destruct (strconv.isDigit c); [|discriminate]. exact (IH _ H).
Qed.

(** [ParseInt] never yields a value outside [int64]. *)
Lemma digits_nonneg base0 base s : forall n v,
  strconv.digits base0 base s n = Ok v -> 0 <= n -> 0 <= base -> 0 <= v.
Proof.
  induction s as [|c r IH]; intros n v H Hn Hb; cbn [strconv.digits] in H.
  - injection H as <-. exact Hn.
  - destruct (Ascii.eqb c "_" && base0); [exact (IH _ _ H Hn Hb)|].
    destruct (strconv.digitVal c) as [d|] eqn:Hd; [|discriminate].
    destruct (base <=? d); [discriminate|].
    destruct (strconv.maxUint64 / base + 1 <=? n); [discriminate|].
    destruct (strconv.maxUint64 <? n * base + d); [discriminate|].
    apply (IH _ _ H); [|exact Hb].
    assert (0 <= d); [|nia].
    unfold strconv.digitVal in Hd.
    destruct (strconv.isDigit c) eqn:Hc.
    + injection Hd as <-. pose proof (isDigit_val c Hc). lia.
    + destruct ((97 <=? Z.of_N (N_of_ascii (strings.lower c)))
                && (Z.of_N (N_of_ascii (strings.lower c)) <=? 122)) eqn:Hl; [|discriminate].
      injection Hd as <-. apply andb_true_iff in Hl as [Hl _]. apply Z.leb_le in Hl. lia.
Qed.

Lemma ParseUint0_nonneg s v : strconv.ParseUint0 s = Ok v -> 0 <= v.
Proof.
  unfold strconv.ParseUint0. destruct s as [|c r]; [discriminate|].
  destruct (if Ascii.eqb c "0" then _ else _) as [base body] eqn:Eb.
  assert (Hb : 0 <= base).
  { destruct (Ascii.eqb c "0"); [|injection Eb as <- _; lia].
    destruct r as [|p [|q r']]; try (injection Eb as <- _; lia).
    destruct (Ascii.eqb (strings.lower p) "b"); [injection Eb as <- _; lia|].
    destruct (Ascii.eqb (strings.lower p) "o"); [injection Eb as <- _; lia|].
    destruct (Ascii.eqb (strings.lower p) "x"); injection Eb as <- _; lia. }
  destruct (strconv.digits true base body 0) as [n|] eqn:En; cbn [bind]; [|discriminate].
  destruct (_ && _); [discriminate|]. intros H. injection H as <-.
  exact (digits_nonneg _ _ _ _ _ En ltac:(lia) Hb).
Qed.

Lemma ParseInt0_int64 s z : strconv.ParseInt0 s = Ok z -> int64 z.
Proof.
  unfold strconv.ParseInt0, int64. destruct s as [|c r]; [discriminate|].
  destruct (strconv.ParseUint0 _) as [un|] eqn:Eu; cbn [bind]; [|discriminate].
  apply ParseUint0_nonneg in Eu.
  destruct (Ascii.eqb c "-"); cbn [negb andb].
  - destruct (Z.ltb_spec 9223372036854775808 un) as [Hbig|Hfit]; [discriminate|].
    intros E. injection E as <-. lia.
  - destruct (Z.leb_spec 9223372036854775808 un) as [Hbig|Hfit]; [discriminate|].
    intros E. injection E as <-. lia.
Qed.

(** ** Reading configuration lines back *)

Ltac by_bits c :=
  destruct c as [[] [] [] [] [] [] [] []];
  intros H; try (vm_compute in H; discriminate H); vm_compute; repeat split; reflexivity.

Lemma safeChar_facts c :
  ini.safeChar c = true ->
  strings.isSpace c = false
  /\ strings.ContainsByte "#;" c = false
  /\ Ascii.eqb c "`" = false
  /\ Ascii.eqb c "034" = false
  /\ Ascii.eqb c "'" = false
  /\ Ascii.eqb c "\" = false
  /\ Ascii.eqb c "(" = false
  /\ Ascii.eqb c "," = false
  /\ Ascii.eqb c " " = false
  /\ Ascii.eqb c "010" = false.
Proof. by_bits c. Qed.

Lemma isAlnum_facts c :
  ini.isAlnum c = true ->
  ini.safeChar c = true
  /\ strings.ContainsByte "=:" c = false
  /\ Ascii.eqb c "#" || Ascii.eqb c ";" = false
  /\ Ascii.eqb c "[" = false
  /\ Ascii.eqb c "034" || Ascii.eqb c "`" = false.
Proof. by_bits c. Qed.

Lemma valueChar_facts c :
  valueChar c = true ->
  strings.ContainsByte "#;" c = false
  /\ Ascii.eqb c "(" = false
  /\ Ascii.eqb c "010" = false.
Proof. by_bits c. Qed.

Lemma safe_valueChar c : ini.safeChar c = true -> valueChar c = true.
Proof. intros H. unfold valueChar. rewrite H. reflexivity. Qed.

Lemma TrimRight_keep s l :
  strings.lastChar s = Some l -> strings.isSpace l = false -> strings.TrimRight s = s.
Proof.
  induction s as [|c r IH]; [discriminate|]. intros Hl Hs.
  cbn [strings.TrimRight]. destruct r as [|c' r'].
  - cbn in Hl. injection Hl as ->. cbn [strings.TrimRight]. rewrite Hs. reflexivity.
  - rewrite IH by assumption. reflexivity.
Qed.

Lemma TrimRight_blank s : strings.TrimRight (s ++ " ") = strings.TrimRight s.
Proof.
  induction s as [|c r IH]; [reflexivity|].
  cbn [append strings.TrimRight]. rewrite IH. reflexivity.
Qed.

Lemma lastChar_app a c r : strings.lastChar (a ++ String c r) = strings.lastChar (String c r).
Proof.
  induction a as [|x a IH]; [reflexivity|].
  cbn [append]. destruct a as [|y a']; cbn [append] in *; exact IH.
Qed.

Lemma cutAny_none cs s :
  strings.All (fun c => negb (strings.ContainsByte cs c)) s = true ->
  strings.cutAny cs s = None.
Proof.
  induction s as [|c r IH]; [reflexivity|]. cbn [strings.All strings.cutAny].
  intros H. apply andb_true_iff in H as [H1 H2].
  apply negb_true_iff in H1. rewrite H1, (IH H2). reflexivity.
Qed.

Lemma cutAny_first cs a d b :
  strings.All (fun c => negb (strings.ContainsByte cs c)) a = true ->
  strings.ContainsByte cs d = true ->
  strings.cutAny cs (a ++ String d b) = Some (a, b).
Proof.
  intros Ha Hd. induction a as [|c r IH]; cbn [append strings.All strings.cutAny] in *.
  - rewrite Hd. reflexivity.
  - apply andb_true_iff in Ha as [H1 H2]. apply negb_true_iff in H1.
    rewrite H1, (IH H2). reflexivity.
Qed.

Lemma hasSub2_none a b s :
  strings.ContainsByte s b = false -> strings.hasSub2 a b s = false.
Proof.
  induction s as [|c r IH]; [reflexivity|]. cbn [strings.ContainsByte].
  intros H. apply orb_false_iff in H as [H1 H2].
  cbn [strings.hasSub2]. destruct r as [|c' r']; [reflexivity|].
  rewrite (IH H2). cbn [strings.ContainsByte] in H2.
  apply orb_false_iff in H2 as [H3 _]. rewrite H3, andb_false_r. reflexivity.
Qed.

Lemma All_ContainsByte p s c :
  strings.All p s = true -> (forall x, p x = true -> Ascii.eqb x c = false) ->
  strings.ContainsByte s c = false.
Proof.
  intros Hs Hp. induction s as [|x r IH]; [reflexivity|].
  cbn [strings.All strings.ContainsByte] in *.
  apply andb_true_iff in Hs as [H1 H2]. rewrite (Hp _ H1), (IH H2). reflexivity.
Qed.

Lemma readUnquoted_soft v : softValue v -> ini.readUnquoted v = Ok v.
Proof.
  intros [Hall [[c [r [-> Hc]]] [l [Hl Hsl]]]].
  destruct (safeChar_facts c Hc) as [Hsp [_ [_ [Hq2 [Hq1 _]]]]].
  destruct (safeChar_facts l Hsl) as [Hlsp [_ [_ [_ [_ [Hbs _]]]]]].
  unfold ini.readUnquoted, strings.TrimSpace.
  cbn [strings.TrimLeft]. rewrite Hsp.
  rewrite (TrimRight_keep _ _ Hl Hlsp), Hl, Hbs.
  rewrite cutAny_none.
  - unfold ini.hasSurroundedQuote. rewrite Hq1, Hq2. reflexivity.
  - apply strAll_impl with (p := valueChar); [|exact Hall].
    intros x Hx. destruct (valueChar_facts x Hx) as [-> _]. reflexivity.
Qed.

Lemma soft_plainValue v : softValue v -> ini.plainValue v.
Proof.
  intros Hv. pose proof (readUnquoted_soft v Hv) as Hr.
  destruct Hv as [Hall [[c [r [-> Hc]]] _]].
  destruct (safeChar_facts c Hc) as [Hsp [_ [Hbq [Hq2 _]]]].
  split; [|split].
  - apply All_ContainsByte with (p := valueChar); [exact Hall|].
    intros x Hx. apply (valueChar_facts x Hx).
  - unfold ini.readValue. cbn [strings.TrimLeft].
    change (strings.isSpace " ") with true. cbv iota. rewrite Hsp, Hbq.
    unfold ini.opensTripleQuote. rewrite Hq2.
    destruct r as [|? [|? [|? ?]]]; exact Hr.
  - apply hasSub2_none. apply All_ContainsByte with (p := valueChar); [exact Hall|].
    intros x Hx. apply (valueChar_facts x Hx).
Qed.

Lemma token_soft t : ini.token t = true -> softValue t.
Proof.
  unfold ini.token. destruct t as [|c r]; [discriminate|]. intros H.
  split; [|split].
  - apply strAll_impl with (p := ini.safeChar); [exact safe_valueChar | exact H].
  - exists c, r. split; [reflexivity|].
    cbn [strings.All] in H. apply andb_true_iff in H. apply H.
  - revert c H. induction r as [|c' r' IH]; intros c H.
    + exists c. split; [reflexivity|]. cbn [strings.All] in H.
      apply andb_true_iff in H. apply H.
    + cbn [strings.All] in H. apply andb_true_iff in H as [_ H].
      destruct (IH c' H) as [l [Hl Hs]]. exists l. split; [exact Hl | exact Hs].
Qed.

(** A comma-separated list of tokens is a value the reader gives back. *)
Lemma Join_soft ts :
  ts <> [] -> Forall (fun t => ini.token t = true) ts -> softValue (strings.Join ts ", ").
Proof.
  intros Hne H. induction H as [|t ts Ht Hts IH]; [congruence|].
  destruct ts as [|t' ts']; [exact (token_soft t Ht)|].
  destruct (token_soft t Ht) as [A1 [[c [r [E1 Hc]]] _]].
  destruct (IH ltac:(discriminate)) as [B1 [[c' [r' [E2 _]]] [l [Hl Hsl]]]].
  change (strings.Join (t :: t' :: ts') ", ")
    with (t ++ String "," (String " " (strings.Join (t' :: ts') ", "))).
  split; [|split].
  - rewrite strAll_app, A1. cbn [strings.All]. rewrite B1. reflexivity.
  - exists c, (r ++ String "," (String " " (strings.Join (t' :: ts') ", "))).
    rewrite E1. split; [reflexivity | exact Hc].
  - exists l. split; [|exact Hsl].
    rewrite lastChar_app. rewrite E2 in *. exact Hl.
Qed.

Lemma Split_whole sep s :
  strings.ContainsByte s sep = false -> strings.Split sep s = [s].
Proof.
  induction s as [|c r IH]; [reflexivity|]. cbn [strings.ContainsByte strings.Split].
  intros H. apply orb_false_iff in H as [H1 H2]. rewrite H1, (IH H2). reflexivity.
Qed.

Lemma Split_first sep a b :
  strings.ContainsByte a sep = false ->
  strings.Split sep (a ++ String sep b) = a :: strings.Split sep b.
Proof.
  induction a as [|c r IH]; cbn [append strings.ContainsByte strings.Split].
  - intros _. rewrite Ascii.eqb_refl. reflexivity.
  - intros H. apply orb_false_iff in H as [H1 H2]. rewrite H1, (IH H2). reflexivity.
Qed.

Lemma Split_nonnil sep s : strings.Split sep s <> [].
Proof.
  destruct s as [|c r]; cbn [strings.Split]; [discriminate|].
  destruct (Ascii.eqb c sep); [discriminate|].
  destruct (strings.Split sep r); discriminate.
Qed.

Lemma token_no_comma t : ini.token t = true -> strings.ContainsByte t "," = false.
Proof.
  intros H. destruct (token_soft t H) as [_ [[c [r [-> _]]] _]].
  apply All_ContainsByte with (p := ini.safeChar); [exact H|].
  intros x Hx. apply (safeChar_facts x Hx).
Qed.

Lemma token_no_blank t : ini.token t = true -> strings.ContainsByte t " " = false.
Proof.
  intros H. destruct (token_soft t H) as [_ [[c [r [-> _]]] _]].
  apply All_ContainsByte with (p := ini.safeChar); [exact H|].
  intros x Hx. apply (safeChar_facts x Hx).
Qed.

Lemma trimBlankRight_keep s :
  strings.ContainsByte s " " = false -> strings.trimBlankRight s = s.
Proof.
  induction s as [|c r IH]; [reflexivity|]. cbn [strings.ContainsByte strings.trimBlankRight].
  intros H. apply orb_false_iff in H as [H1 H2]. rewrite (IH H2), H1.
  destruct r; reflexivity.
Qed.

Lemma TrimBlank_token t : ini.token t = true -> strings.TrimBlank t = t.
Proof.
  intros H. pose proof (token_no_blank t H) as Hb.
  unfold strings.TrimBlank.
  destruct t as [|c r]; [reflexivity|].
  cbn [strings.ContainsByte] in Hb. apply orb_false_iff in Hb as [H1 H2].
  assert (E : strings.trimBlankLeft (String c r) = String c r).
  { destruct (Ascii.eqb_spec c " ") as [->|Hc]; [discriminate|].
    cbn [strings.trimBlankLeft].
    destruct c as [[] [] [] [] [] [] [] []]; try reflexivity. contradiction Hc. reflexivity. }
  rewrite E. apply trimBlankRight_keep. cbn [strings.ContainsByte]. rewrite H1, H2. reflexivity.
Qed.

Lemma TrimBlank_blank_token t : ini.token t = true -> strings.TrimBlank (String " " t) = t.
Proof. intros H. exact (TrimBlank_token t H). Qed.

(** Splitting a comma-separated list of tokens at the commas and trimming
    the blanks gives the tokens back. *)
Lemma Split_Join ts :
  Forall (fun t => ini.token t = true) ts -> ts <> [] ->
  map strings.TrimBlank (strings.Split "," (strings.Join ts ", ")) = ts.
Proof.
  intros H. induction H as [|t ts Ht Hts IH]; [congruence|]. intros _.
  destruct ts as [|t' ts'].
  - cbn [strings.Join]. rewrite Split_whole by exact (token_no_comma t Ht).
    cbn [map]. rewrite TrimBlank_token by exact Ht. reflexivity.
  - change (strings.Join (t :: t' :: ts') ", ")
      with (t ++ String "," (String " " (strings.Join (t' :: ts') ", "))).
    rewrite Split_first by exact (token_no_comma t Ht).
    cbn [map]. rewrite TrimBlank_token by exact Ht. f_equal.
    specialize (IH ltac:(discriminate)).
    assert (Hsp : forall s, map strings.TrimBlank (strings.Split "," (String " " s))
                            = map strings.TrimBlank (strings.Split "," s)).
    { intros s. cbn [strings.Split]. change (Ascii.eqb " " ",") with false. cbv iota.
      pose proof (Split_nonnil "," s) as Hn.
      destruct (strings.Split "," s) as [|h tl]; [congruence|].
      cbn [map]. f_equal. }
    rewrite Hsp. exact IH.
Qed.

Lemma Join_nonempty ts :
  Forall (fun t => ini.token t = true) ts -> ts <> [] -> strings.Join ts ", " <> "".
Proof.
  intros H Hne. destruct (Join_soft ts Hne H) as [_ [[c [r [E _]]] _]].
  rewrite E. discriminate.
Qed.

Lemma StringsWithShadows_Join name ts :
  Forall (fun t => ini.token t = true) ts -> ts <> [] ->
  ini.StringsWithShadows (ini.mkKey name (strings.Join ts ", ") []) = ts.
Proof.
  intros H Hne. unfold ini.StringsWithShadows, ini.ValueWithShadows.
  cbn [ini.shadows ini.value].
  pose proof (Join_nonempty ts H Hne) as Hj.
  destruct (strings.Join ts ", ") as [|c r] eqn:E; [congruence|].
  cbn [flat_map]. rewrite app_nil_r, <- E. apply Split_Join; assumption.
Qed.

Lemma StringsWithShadows_empty name :
  ini.StringsWithShadows (ini.mkKey name "" []) = [].
Proof. reflexivity. Qed.

(** *** Lines *)

Lemma unlines_app a b : unlines (a ++ b)%list = unlines a ++ unlines b.
Proof.
  unfold unlines. induction a as [|l a IH]; [reflexivity|].
  cbn [app map concat_str]. rewrite IH, !append_assoc. reflexivity.
Qed.

Lemma Split_unlines ls :
  Forall (fun l => strings.ContainsByte l "010" = false) ls ->
  strings.Split "010" (unlines ls) = (ls ++ [""])%list.
Proof.
  intros H. induction H as [|l ls Hl _ IH]; [reflexivity|].
  unfold unlines in *. cbn [map concat_str app].
  unfold config.LF at 1. rewrite append_assoc. cbn [append].
  rewrite Split_first by exact Hl. rewrite IH. reflexivity.
Qed.

Lemma mapM_app {A B} (f : A -> result B) l1 l2 r1 r2 :
  ini.mapM f l1 = Ok r1 -> ini.mapM f l2 = Ok r2 ->
  ini.mapM f (l1 ++ l2)%list = Ok (r1 ++ r2)%list.
Proof.
  revert r1. induction l1 as [|a l1 IH]; intros r1 H1 H2; cbn [ini.mapM app] in *.
  - injection H1 as <-. exact H2.
  - destruct (f a) as [b|]; cbn [bind] in *; [|discriminate].
    destruct (ini.mapM f l1) as [bs|]; cbn [bind] in *; [|discriminate].
    injection H1 as <-. rewrite (IH bs eq_refl H2). reflexivity.
Qed.

Lemma mapM_id {A B} (f : A -> result B) (g : B -> A) l :
  Forall (fun b => f (g b) = Ok b) l -> ini.mapM f (map g l) = Ok l.
Proof.
  intros H. induction H as [|b l Hb _ IH]; [reflexivity|].
  cbn [map ini.mapM]. rewrite Hb, IH. reflexivity.
Qed.

Lemma TrimRight_alnum k : strings.All ini.isAlnum k = true -> strings.TrimRight k = k.
Proof.
  induction k as [|c r IH]; [reflexivity|]. cbn [strings.All strings.TrimRight].
  intros H. apply andb_true_iff in H as [H1 H2]. rewrite (IH H2).
  destruct (isAlnum_facts c H1) as [Hs _]. destruct (safeChar_facts c Hs) as [-> _].
  destruct r; reflexivity.
Qed.

(** The line [k = v] is read as the key [k] with the value [v]. *)
Lemma classify_line k v :
  keyName k -> ini.plainValue v ->
  ini.classify (k ++ " = " ++ v) = Ok (ini.KV k v).
Proof.
  intros [Hk Hne] [_ [Hv Hsub]].
  destruct k as [|c r]; [congruence|].
  pose proof Hk as Hk'. cbn [strings.All] in Hk'. apply andb_true_iff in Hk' as [Hc Hr].
  destruct (isAlnum_facts c Hc) as [Hs [Hd [Hcm [Hbr Hq]]]].
  destruct (safeChar_facts c Hs) as [Hsp _].
  unfold ini.classify. cbn [append strings.TrimLeft]. rewrite Hsp, Hcm, Hbr, Hq.
  unfold ini.keyValue.
  replace (String c (r ++ String " " (String "=" (String " " v))))
    with ((String c r ++ " ") ++ String "=" (String " " v))
    by (cbn [append]; rewrite append_assoc; reflexivity).
  rewrite cutAny_first.
  - cbn [append]. rewrite Hv. cbn [bind]. rewrite Hsub.
    change (String c (r ++ " ")) with (String c r ++ " ").
    unfold strings.TrimSpace.
    replace (strings.TrimLeft (String c r ++ " ")) with (String c r ++ " ")
      by (cbn [append strings.TrimLeft]; rewrite Hsp; reflexivity).
    rewrite TrimRight_blank, TrimRight_alnum by exact Hk. reflexivity.
  - rewrite strAll_app. apply andb_true_iff. split; [|reflexivity].
    apply strAll_impl with (p := ini.isAlnum); [|exact Hk].
    intros x Hx. destruct (isAlnum_facts x Hx) as [_ [-> _]]. reflexivity.
  - reflexivity.
Qed.

(** ** The shape of a rendered configuration *)

Lemma classify_render it : goodItem it -> ini.classify (render it) = Ok it.
Proof.
  destruct it as [|n|k v]; cbn [goodItem render].
  - reflexivity.
  - intros [->| ->]; reflexivity.
  - intros [Hk Hv]. apply classify_line; assumption.
Qed.

Lemma render_no_LF it : goodItem it -> strings.ContainsByte (render it) "010" = false.
Proof.
  destruct it as [|n|k v]; cbn [goodItem render].
  - reflexivity.
  - intros [->| ->]; reflexivity.
  - intros [[Hk _] [Hv _]]. rewrite !ContainsByte_app, Hv.
    rewrite (All_ContainsByte ini.isAlnum k "010" Hk); [reflexivity|].
    intros x Hx. destruct (isAlnum_facts x Hx) as [Hs _]. apply (safeChar_facts x Hs).
Qed.

Lemma LoadSources_render items :
  Forall goodItem items ->
  ini.LoadSources (unlines (map render items))
  = Ok (ini.assemble (items ++ [ini.Skip])%list (ini.NewSection ini.DefaultSection)).
Proof.
  intros H. unfold ini.LoadSources.
  rewrite Split_unlines.
  - rewrite (mapM_app ini.classify (map render items) [""] items [ini.Skip]);
      [reflexivity | | reflexivity].
    apply mapM_id. apply Forall_impl with (P := goodItem); [|exact H].
    exact classify_render.
  - apply Forall_map. apply Forall_impl with (P := goodItem); [|exact H].
    exact render_no_LF.
Qed.

Lemma assemble_kvs kvs rest cur :
  ini.assemble (map toKV kvs ++ rest)%list cur = ini.assemble rest (fold_left addKV kvs cur).
Proof.
  revert cur. induction kvs as [|kv kvs IH]; intros cur; [reflexivity|].
  cbn [map app ini.assemble toKV fold_left]. apply IH.
Qed.

Lemma assemble_peers (pss : list (list (string * string))) cur :
  ini.assemble (flat_map peerItems pss ++ [ini.Skip])%list cur
  = cur :: map (sectionOf "Peer") pss.
Proof.
  revert cur. induction pss as [|kvs pss IH]; intros cur; [reflexivity|].
  cbn [flat_map peerItems app ini.assemble].
  rewrite <- app_assoc, assemble_kvs, IH. reflexivity.
Qed.

(** The file a rendered configuration is read as: the default section,
    the interface, and one section for each peer. *)
Lemma assemble_document ikvs pss :
  ini.assemble ((ini.Header "Interface" :: map toKV ikvs ++ flat_map peerItems pss) ++ [ini.Skip])%list
    (ini.NewSection ini.DefaultSection)
  = ini.NewSection ini.DefaultSection :: sectionOf "Interface" ikvs
      :: map (sectionOf "Peer") pss.
Proof.
  cbn [app ini.assemble]. f_equal.
  rewrite <- app_assoc, assemble_kvs, assemble_peers. reflexivity.
Qed.

Lemma sname_sectionOf name kvs :
  ini.sname (sectionOf name kvs) = ini.sname (ini.NewSection name).
Proof.
  unfold sectionOf. generalize (ini.NewSection name) as s.
  induction kvs as [|kv kvs IH]; intros s; [reflexivity|].
  cbn [fold_left]. rewrite IH. reflexivity.
Qed.

Lemma SectionsByName_Interface ikvs pss :
  ini.SectionsByName
    (ini.NewSection ini.DefaultSection :: sectionOf "Interface" ikvs :: map (sectionOf "Peer") pss)
    "Interface" = Ok [sectionOf "Interface" ikvs].
Proof.
  unfold ini.SectionsByName. cbn [filter].
  rewrite sname_sectionOf.
  change (String.eqb (ini.sname (ini.NewSection ini.DefaultSection)) (strings.ToLower "Interface"))
    with false.
  change (String.eqb (ini.sname (ini.NewSection "Interface")) (strings.ToLower "Interface"))
    with true.
  cbv iota.
  replace (filter _ (map (sectionOf "Peer") pss)) with (@nil ini.Section); [reflexivity|].
  induction pss as [|kvs pss IH]; [reflexivity|].
  cbn [map filter]. rewrite sname_sectionOf. exact IH.
Qed.

Lemma SectionsByName_Peer ikvs pss :
  pss <> [] ->
  ini.SectionsByName
    (ini.NewSection ini.DefaultSection :: sectionOf "Interface" ikvs :: map (sectionOf "Peer") pss)
    "Peer" = Ok (map (sectionOf "Peer") pss).
Proof.
  intros Hne. unfold ini.SectionsByName. cbn [filter].
  rewrite sname_sectionOf.
  change (String.eqb (ini.sname (ini.NewSection ini.DefaultSection)) (strings.ToLower "Peer"))
    with false.
  change (String.eqb (ini.sname (ini.NewSection "Interface")) (strings.ToLower "Peer"))
    with false.
  cbv iota.
  replace (filter _ (map (sectionOf "Peer") pss)) with (map (sectionOf "Peer") pss).
  - destruct pss; [congruence | reflexivity].
  - clear Hne. induction pss as [|kvs pss IH]; [reflexivity|].
    cbn [map filter]. rewrite sname_sectionOf.
    change (String.eqb (ini.sname (ini.NewSection "Peer")) (strings.ToLower "Peer")) with true.
    cbv iota. f_equal. exact IH.
Qed.

(** ** Keys *)

Lemma enc_safe i : 0 <= i < 64 -> ini.safeChar (base64.enc i) = true.
Proof.
  intros H. exact (bounded_check (fun i => ini.safeChar (base64.enc i)) 64 eq_refl i H).
Qed.

Lemma base64_safe bs : strings.All ini.safeChar (base64.EncodeToString bs) = true.
Proof.
  induction bs as [|a|a b|a b c l IH] using list_ind3; [reflexivity| | |];
    pose proof (byteZ_range a); try pose proof (byteZ_range b); try pose proof (byteZ_range c);
    cbn [base64.EncodeToString strings.All]; cbv zeta;
    rewrite ?enc_safe by sextet; try rewrite IH; reflexivity.
Qed.

Lemma base64_token bs : bs <> [] -> ini.token (base64.EncodeToString bs) = true.
Proof.
  intros Hne. unfold ini.token.
  pose proof (base64_safe bs) as Hs.
  destruct bs as [|a [|b [|c l]]]; [congruence| | |]; exact Hs.
Qed.

Section Keys.

Context {IP : netip.Ops}.

Lemma hexKey_facts h :
  hexKey h ->
  config.nonEmpty h = true
  /\ config.EncodeHexToBase64 h = Ok (toB64 h)
  /\ config.EncodeBase64ToHex (toB64 h) = Ok h
  /\ ini.token (toB64 h) = true.
Proof.
  intros [bs [Hlen ->]].
  assert (Hne : bs <> []) by (destruct bs; [discriminate | congruence]).
  assert (E : config.EncodeHexToBase64 (hex.EncodeToString bs) = Ok (base64.EncodeToString bs)).
  { unfold config.EncodeHexToBase64. rewrite hex_roundtrip, Hlen. reflexivity. }
  unfold toB64. rewrite E. repeat split.
  - destruct bs; [congruence | reflexivity].
  - unfold config.EncodeBase64ToHex. rewrite base64_roundtrip, Hlen. reflexivity.
  - exact (base64_token bs Hne).
Qed.

Lemma EncodeBase64ToHex_hexKey k h : config.EncodeBase64ToHex k = Ok h -> hexKey h.
Proof.
  unfold config.EncodeBase64ToHex.
  destruct (base64.DecodeString k) as [decoded|]; [|discriminate].
  destruct (Nat.eqb_spec (List.length decoded) 32) as [Hl|]; [|discriminate].
  cbn [negb]. intros H. injection H as <-. exists decoded. split; [exact Hl | reflexivity].
Qed.

Lemma zeroKey_hexKey : hexKey config.zeroKey.
Proof. exists (repeat x00 32). split; reflexivity. Qed.

End Keys.

Lemma Itoa_token z : ini.token (strconv.Itoa z) = true.
Proof.
  assert (Hu : forall n, strings.All ini.safeChar (strconv.utoa n) = true).
  { intros n. apply strAll_impl with (p := strconv.isDigit).
    - intros c Hc. unfold ini.safeChar, ini.isAlnum. unfold strconv.isDigit in Hc.
      rewrite Hc. reflexivity.
    - apply (r_digits _ _ (utoa_rendering n)). }
  unfold strconv.Itoa. destruct (z <? 0).
  - unfold ini.token. cbn [strings.All]. rewrite Hu. reflexivity.
  - destruct (utoa_head (Z.to_N z)) as [c [r [E _]]].
    unfold ini.token. pose proof (Hu (Z.to_N z)) as H. rewrite E in *. exact H.
Qed.

Lemma TrimSpace_token t : ini.token t = true -> strings.TrimSpace t = t.
Proof.
  intros H. destruct (token_soft t H) as [_ [[c [r [-> Hc]]] [l [Hl Hsl]]]].
  destruct (safeChar_facts c Hc) as [Hsp _]. destruct (safeChar_facts l Hsl) as [Hlsp _].
  unfold strings.TrimSpace. cbn [strings.TrimLeft]. rewrite Hsp.
  exact (TrimRight_keep _ _ Hl Hlsp).
Qed.

Lemma mapM_Forall {A B} (f : A -> result B) (P : B -> Prop) l r :
  (forall a b, f a = Ok b -> P b) -> ini.mapM f l = Ok r -> Forall P r.
Proof.
  intros Hf. revert r. induction l as [|a l IH]; intros r H; cbn [ini.mapM] in H.
  - injection H as <-. constructor.
  - destruct (f a) as [b|] eqn:Ea; cbn [bind] in H; [|discriminate].
    destruct (ini.mapM f l) as [bs|]; cbn [bind] in H; [|discriminate].
    injection H as <-. constructor; [exact (Hf a b Ea) | exact (IH bs eq_refl)].
Qed.

Lemma mapM_nonempty {A B} (f : A -> result B) l r :
  l <> [] -> ini.mapM f l = Ok r -> r <> [].
Proof.
  destruct l as [|a l]; [congruence|]. intros _ H. cbn [ini.mapM] in H.
  destruct (f a); cbn [bind] in H; [|discriminate].
  destruct (ini.mapM f l); cbn [bind] in H; [|discriminate].
  injection H as <-. discriminate.
Qed.

(** ** What [String] writes *)

Lemma entries_listValue name ts :
  Forall (fun t => ini.token t = true) ts -> entries name (listValue ts) = ts.
Proof.
  intros H. destruct ts as [|t ts]; [reflexivity|].
  cbn [listValue entries]. apply StringsWithShadows_Join; [exact H | discriminate].
Qed.

Lemma number_intValue z : int64 z -> number (intValue z) = Ok z.
Proof.
  intros H. unfold intValue. destruct (Z.eqb_spec z 0) as [->|_]; [reflexivity|].
  exact (ParseInt0_Itoa z H).
Qed.

Lemma listValue_plain ts v :
  Forall (fun t => ini.token t = true) ts -> listValue ts = Some v -> ini.plainValue v.
Proof.
  intros H E. destruct ts as [|t ts]; [discriminate|].
  cbv beta iota delta [listValue] in E. injection E as <-.
  apply soft_plainValue. apply (Join_soft (t :: ts)); [discriminate | exact H].
Qed.

Lemma intValue_plain z v : intValue z = Some v -> ini.plainValue v.
Proof.
  unfold intValue. destruct (z =? 0); [discriminate|]. intros E. injection E as <-.
  apply soft_plainValue, token_soft, Itoa_token.
Qed.

Section Rendering.

Context {IP : netip.Ops}.

Lemma writeInterface_items b i :
  wfInterface i ->
  config.writeInterface b i
  = Ok (b ++ unlines (map render (ini.Header "Interface" :: map toKV (interfaceKVs i)))).
Proof.
  intros [Hk _]. destruct (hexKey_facts _ Hk) as [Hne [Henc _]].
  unfold config.writeInterface, interfaceKVs, listValue, intValue.
  rewrite Hne, Henc. cbn [bind]. cbv zeta.
  destruct (config.Addresses i) as [|a la], (config.DNS i) as [|d ld],
    (config.MTU i =? 0);
    cbn [List.length Nat.ltb Nat.leb negb optKV app map toKV fst snd render unlines
         concat_str];
    unfold config.LF; rewrite ?append_assoc; cbn [append]; reflexivity.
Qed.

Lemma writePeer_items b p :
  wfPeer p ->
  config.writePeer b p = Ok (b ++ unlines (map render (peerItems (peerKVs p)))).
Proof.
  intros [Hpk [Hpsk _]].
  destruct (hexKey_facts _ Hpsk) as [Hne2 [Henc2 _]].
  unfold config.writePeer, peerKVs, listValue, intValue.
  rewrite Hne2, Henc2. cbn [andb].
  assert (Hpub : config.nonEmpty (config.PublicKey p) = true ->
                 config.EncodeHexToBase64 (config.PublicKey p) = Ok (toB64 (config.PublicKey p))).
  { intros Hn. destruct Hpk as [E|Hh]; [rewrite E in Hn; discriminate|].
    apply (hexKey_facts _ Hh). }
  destruct (config.nonEmpty (config.PublicKey p)); [rewrite (Hpub eq_refl)|];
    destruct (String.eqb (config.PreSharedKey p) config.zeroKey);
    destruct (config.AllowedIPs p) as [|a la];
    destruct (config.nonEmpty (config.Endpoint p));
    destruct (config.KeepAlive p =? 0);
    cbv beta iota zeta delta [bind];
    cbn [List.length Nat.ltb Nat.leb negb optKV app map toKV fst snd render unlines
         concat_str peerItems];
    unfold config.LF; rewrite ?append_assoc; cbn [append]; reflexivity.
Qed.

Lemma writePeers_items ps b :
  Forall wfPeer ps ->
  config.writePeers b ps
  = Ok (b ++ unlines (map render (flat_map (fun p => peerItems (peerKVs p)) ps))).
Proof.
  intros H. revert b. induction H as [|p ps Hp _ IH]; intros b.
  - cbn [config.writePeers flat_map map]. unfold unlines. cbn [map concat_str].
    rewrite append_nil_r. reflexivity.
  - cbn [config.writePeers flat_map]. rewrite (writePeer_items b p Hp). cbn [bind].
    rewrite IH, map_app, unlines_app, append_assoc. reflexivity.
Qed.

Lemma String_items c :
  wf c -> config.String c = Ok (unlines (map render (docItems c))).
Proof.
  intros [Hi [Hp _]]. unfold config.String, docItems.
  rewrite (writeInterface_items "" _ Hi). cbn [bind].
  rewrite (writePeers_items _ _ Hp).
  rewrite app_comm_cons, map_app, unlines_app. reflexivity.
Qed.

End Rendering.

(** ** What the parsers read from a rendered configuration *)

Section Reading.

Context {IP : netip.Ops}.

Lemma ParseInterface_sectionOf key va vd vm pss :
  config.ParseInterface
    (ini.NewSection ini.DefaultSection
     :: sectionOf "Interface"
          ((("PrivateKey", key) :: optKV "Address" va ++ optKV "DNS" vd ++ optKV "MTU" vm)%list)
     :: map (sectionOf "Peer") pss)
  = (do addresses <- ini.mapM config.parseAddress (entries "address" va);
     do privateKeyHex <- config.EncodeBase64ToHex key;
     do dns <- ini.mapM netip.ParseAddr (entries "dns" vd);
     do mtu <- number vm;
     Ok {| config.PrivateKey := privateKeyHex; config.Addresses := addresses;
           config.DNS := dns; config.MTU := mtu; config.FwMark := 0 |}).
Proof.
  unfold config.ParseInterface. rewrite SectionsByName_Interface.
  destruct va, vd, vm; reflexivity.
Qed.

Lemma parsePeer_sectionOf vpk vpsk vips vep vka :
  config.parsePeer
    (sectionOf "Peer"
       (optKV "PublicKey" vpk ++ optKV "PresharedKey" vpsk ++ optKV "AllowedIPs" vips
        ++ optKV "Endpoint" vep ++ optKV "PersistentKeepalive" vka)%list)
  = (do publicKey <- match vpk with Some v => config.EncodeBase64ToHex v | None => Ok "" end;
     do preSharedKey <- match vpsk with
                        | Some v => config.EncodeBase64ToHex v
                        | None => Ok config.zeroKey
                        end;
     do keepAlive <- number vka;
     do allowedIPs <- ini.mapM netip.ParsePrefix (entries "allowedips" vips);
     Ok {| config.PublicKey := publicKey; config.PreSharedKey := preSharedKey;
           config.Endpoint := match vep with Some v => v | None => "" end;
           config.KeepAlive := keepAlive; config.AllowedIPs := allowedIPs |}).
Proof.
  destruct vpk, vpsk, vips, vep, vka; reflexivity.
Qed.

End Reading.

(** ** Rendering and parsing again *)

Section RoundTrip.

Context {IP : netip.Ops}.

Hypothesis laws : netip.Laws IP.

Lemma prefix_tokens l :
  Forall (fun p => netip.Prefix_IsValid p = true) l ->
  Forall (fun t => ini.token t = true) (map netip.Prefix_String l).
Proof.
  intros H. apply Forall_map. eapply Forall_impl; [|exact H].
  intros p Hp. exact (netip.Prefix_String_token IP laws p Hp).
Qed.

Lemma parseAddress_String p :
  netip.Prefix_IsValid p = true -> config.parseAddress (netip.Prefix_String p) = Ok p.
Proof.
  intros Hp. unfold config.parseAddress. cbv zeta.
  rewrite (TrimSpace_token _ (netip.Prefix_String_token IP laws p Hp)).
  rewrite (netip.ParsePrefix_String IP laws p Hp). reflexivity.
Qed.

Lemma ParseInterface_items i pss :
  wfInterface i ->
  Forall (fun a => ini.token (netip.Addr_String a) = true) (config.DNS i) ->
  config.ParseInterface
    (ini.NewSection ini.DefaultSection :: sectionOf "Interface" (interfaceKVs i)
     :: map (sectionOf "Peer") pss)
  = Ok {| config.PrivateKey := config.PrivateKey i; config.Addresses := config.Addresses i;
          config.DNS := config.DNS i; config.MTU := config.MTU i; config.FwMark := 0 |}.
Proof.
  intros [Hk [Ha [Hd Hm]]] Ht. unfold interfaceKVs.
  rewrite ParseInterface_sectionOf.
  destruct (hexKey_facts _ Hk) as [_ [_ [Hdec _]]].
  rewrite (entries_listValue _ _ (prefix_tokens _ Ha)).
  rewrite (mapM_id config.parseAddress netip.Prefix_String).
  2:{ eapply Forall_impl; [|exact Ha]. intros p Hp. exact (parseAddress_String p Hp). }
  cbn [bind]. rewrite Hdec. cbn [bind].
  rewrite entries_listValue by (apply Forall_map; exact Ht).
  rewrite (mapM_id netip.ParseAddr netip.Addr_String).
  2:{ eapply Forall_impl; [|exact Hd]. intros a Hv. exact (netip.ParseAddr_String IP laws a Hv). }
  cbn [bind]. rewrite (number_intValue _ Hm). reflexivity.
Qed.

Lemma parsePeer_items p :
  wfPeer p -> config.parsePeer (sectionOf "Peer" (peerKVs p)) = Ok p.
Proof.
  intros [Hpk [Hpsk [Hka Hips]]]. unfold peerKVs. rewrite parsePeer_sectionOf.
  destruct p as [pk psk ep ka ips]. cbn [config.PublicKey config.PreSharedKey config.Endpoint
    config.KeepAlive config.AllowedIPs] in *.
  assert (E1 : (if config.nonEmpty pk then config.EncodeBase64ToHex (toB64 pk) else Ok "")
               = Ok pk).
  { destruct Hpk as [->|Hh]; [reflexivity|].
    destruct (hexKey_facts _ Hh) as [-> [_ [Hdec _]]]. exact Hdec. }
  assert (E2 : (if String.eqb psk config.zeroKey then Ok config.zeroKey
                else config.EncodeBase64ToHex (toB64 psk)) = Ok psk).
  { destruct (String.eqb_spec psk config.zeroKey) as [->|_]; [reflexivity|].
    apply (hexKey_facts _ Hpsk). }
  destruct (config.nonEmpty pk); destruct (String.eqb psk config.zeroKey);
    rewrite E1, E2; cbn [bind];
    rewrite (number_intValue _ Hka); cbn [bind];
    rewrite (entries_listValue _ _ (prefix_tokens _ Hips));
    (rewrite (mapM_id netip.ParsePrefix netip.Prefix_String);
     [|eapply Forall_impl; [|exact Hips]; intros x Hx;
       exact (netip.ParsePrefix_String IP laws x Hx)]);
    cbn [bind]; destruct ep; reflexivity.
Qed.

Lemma ParsePeers_items ikvs ps :
  Forall wfPeer ps -> ps <> [] ->
  config.ParsePeers
    (ini.NewSection ini.DefaultSection :: sectionOf "Interface" ikvs
     :: map (sectionOf "Peer") (map peerKVs ps))
  = Ok ps.
Proof.
  intros H Hne. unfold config.ParsePeers.
  rewrite SectionsByName_Peer by (destruct ps; [congruence | discriminate]).
  rewrite map_map. apply mapM_id.
  eapply Forall_impl; [|exact H]. intros p Hp. exact (parsePeer_items p Hp).
Qed.

Lemma optKV_good k v :
  keyName k -> (forall x, v = Some x -> ini.plainValue x) ->
  Forall goodItem (map toKV (optKV k v)).
Proof.
  intros Hk Hv. destruct v as [x|]; cbn [optKV map]; constructor; [|constructor].
  split; [exact Hk | exact (Hv x eq_refl)].
Qed.

Lemma token_plainValue t : ini.token t = true -> ini.plainValue t.
Proof. intros H. apply soft_plainValue, token_soft, H. Qed.

Lemma interfaceKVs_good i :
  wfInterface i ->
  Forall (fun a => ini.token (netip.Addr_String a) = true) (config.DNS i) ->
  Forall goodItem (map toKV (interfaceKVs i)).
Proof.
  intros [Hk [Ha _]] Ht. unfold interfaceKVs. cbn [map].
  constructor; [|rewrite !map_app; apply Forall_app; split; [|apply Forall_app; split]].
  - split; [split; [reflexivity | discriminate]|].
    apply token_plainValue, (hexKey_facts _ Hk).
  - apply optKV_good; [split; [reflexivity | discriminate]|].
    intros x. apply listValue_plain, prefix_tokens, Ha.
  - apply optKV_good; [split; [reflexivity | discriminate]|].
    intros x. apply listValue_plain, Forall_map, Ht.
  - apply optKV_good; [split; [reflexivity | discriminate]|].
    intros x. apply intValue_plain.
Qed.

Lemma peerItems_good p :
  wfPeer p -> (config.Endpoint p = "" \/ ini.plainValue (config.Endpoint p)) ->
  Forall goodItem (peerItems (peerKVs p)).
Proof.
  intros [Hpk [Hpsk [_ Hips]]] Hep. unfold peerItems, peerKVs.
  constructor; [exact I|]. constructor; [right; reflexivity|].
  rewrite !map_app; apply Forall_app; split;
    [|apply Forall_app; split; [|apply Forall_app; split; [|apply Forall_app; split]]].
  - apply optKV_good; [split; [reflexivity | discriminate]|].
    intros x Hx. destruct Hpk as [E|Hh]; [rewrite E in Hx; discriminate|].
    destruct (hexKey_facts _ Hh) as [Hne [_ [_ Htok]]]. rewrite Hne in Hx.
    injection Hx as <-. exact (token_plainValue _ Htok).
  - apply optKV_good; [split; [reflexivity | discriminate]|].
    intros x Hx. destruct (String.eqb _ _); [discriminate|]. injection Hx as <-.
    apply token_plainValue, (hexKey_facts _ Hpsk).
  - apply optKV_good; [split; [reflexivity | discriminate]|].
    intros x. apply listValue_plain, prefix_tokens, Hips.
  - apply optKV_good; [split; [reflexivity | discriminate]|].
    intros x Hx. destruct Hep as [E|Hp]; [rewrite E in Hx; discriminate|].
    destruct (config.nonEmpty _); [|discriminate]. injection Hx as <-. exact Hp.
  - apply optKV_good; [split; [reflexivity | discriminate]|].
    intros x. apply intValue_plain.
Qed.

Lemma docItems_good c : wf c -> Plain c -> Forall goodItem (docItems c).
Proof.
  intros [Hi [Hp _]] [Hd He]. unfold docItems.
  constructor; [left; reflexivity|]. apply Forall_app. split.
  - exact (interfaceKVs_good _ Hi Hd).
  - apply Forall_flat_map. rewrite Forall_forall in *. intros p Hin.
    exact (peerItems_good p (Hp p Hin) (He p Hin)).
Qed.

(** The text [String] writes is read back as the same configuration
    with the mark reset. *)
Lemma ParseConfig_items c :
  wf c -> Plain c ->
  config.ParseConfig (unlines (map render (docItems c))) = Ok (config.setFwMark c 0).
Proof.
  intros Hw Hp. unfold config.ParseConfig.
  rewrite (LoadSources_render _ (docItems_good c Hw Hp)). cbn [bind].
  unfold docItems. rewrite flat_map_concat_map.
  rewrite <- (map_map peerKVs peerItems), <- flat_map_concat_map.
  rewrite assemble_document.
  destruct Hw as [Hi [Hps Hne]]. destruct Hp as [Hd _].
  rewrite (ParseInterface_items _ _ Hi Hd). cbn [bind].
  rewrite (ParsePeers_items _ _ Hps Hne). reflexivity.
Qed.

Lemma parseAddress_valid str p :
  config.parseAddress str = Ok p -> netip.Prefix_IsValid p = true.
Proof.
  unfold config.parseAddress. cbv zeta.
  destruct (netip.ParsePrefix _) as [q|] eqn:Eq.
  - intros H. injection H as <-. exact (netip.ParsePrefix_valid IP laws _ _ Eq).
  - destruct (netip.ParseAddr _) as [a|] eqn:Ea; [|discriminate].
    pose proof (netip.PrefixFrom_valid IP laws a (netip.ParseAddr_valid IP laws _ _ Ea)) as Hv.
    destruct (netip.Addr_Is4 a); intros H; injection H as <-; exact Hv.
Qed.

Lemma int64_0 : int64 0.
Proof. unfold int64. lia. Qed.

Lemma ParseInterface_wf cfg i : config.ParseInterface cfg = Ok i -> wfInterface i.
Proof.
  unfold config.ParseInterface.
  destruct (ini.SectionsByName cfg "Interface") as [[|iface [|]]|]; try discriminate.
  cbv zeta.
  destruct (ini.mapM config.parseAddress _) as [addresses|] eqn:Ea; cbn [bind]; [|discriminate].
  destruct (config.EncodeBase64ToHex _) as [pk|] eqn:Ek; cbn [bind]; [|discriminate].
  destruct (match ini.GetKey iface "DNS" with Ok _ => _ | Err _ => _ end)
    as [dns|] eqn:Ed; cbn [bind]; [|discriminate].
  destruct (match ini.GetKey iface "MTU" with Ok _ => _ | Err _ => _ end)
    as [mtu|] eqn:Em; cbn [bind]; [|discriminate].
  destruct (match ini.GetKey iface "FwMark" with Ok _ => _ | Err _ => _ end)
    as [fwmark|]; cbn [bind]; [|discriminate].
  intros H. injection H as <-. unfold wfInterface.
  cbn [config.PrivateKey config.Addresses config.DNS config.MTU]. repeat split.
  - exact (EncodeBase64ToHex_hexKey _ _ Ek).
  - exact (mapM_Forall _ _ _ _ parseAddress_valid Ea).
  - destruct (ini.GetKey iface "DNS").
    + exact (mapM_Forall _ _ _ _ (netip.ParseAddr_valid IP laws) Ed).
    + injection Ed as <-. constructor.
  - destruct (ini.GetKey iface "MTU").
    + exact (proj1 (ParseInt0_int64 _ _ Em)).
    + injection Em as <-. apply int64_0.
  - destruct (ini.GetKey iface "MTU").
    + exact (proj2 (ParseInt0_int64 _ _ Em)).
    + injection Em as <-. apply int64_0.
Qed.

Lemma parsePeer_wf section p : config.parsePeer section = Ok p -> wfPeer p.
Proof.
  unfold config.parsePeer.
  destruct (match ini.GetKey section "PublicKey" with Ok _ => _ | Err _ => _ end)
    as [pk|] eqn:Epk; cbn [bind]; [|discriminate].
  destruct (match ini.GetKey section "PreSharedKey" with Ok _ => _ | Err _ => _ end)
    as [psk|] eqn:Epsk; cbn [bind]; [|discriminate].
  destruct (match ini.GetKey section "PersistentKeepalive" with Ok _ => _ | Err _ => _ end)
    as [ka|] eqn:Eka; cbn [bind]; [|discriminate].
  destruct (match ini.GetKey section "AllowedIPs" with Ok _ => _ | Err _ => _ end)
    as [ips|] eqn:Eips; cbn [bind]; [|discriminate].
  cbv zeta. intros H. injection H as <-. unfold wfPeer.
  cbn [config.PublicKey config.PreSharedKey config.KeepAlive config.AllowedIPs].
  split; [|split; [|split]].
  - destruct (ini.GetKey section "PublicKey").
    + right. exact (EncodeBase64ToHex_hexKey _ _ Epk).
    + left. injection Epk as <-. reflexivity.
  - destruct (ini.GetKey section "PreSharedKey").
    + exact (EncodeBase64ToHex_hexKey _ _ Epsk).
    + injection Epsk as <-. exact zeroKey_hexKey.
  - destruct (ini.GetKey section "PersistentKeepalive").
    + exact (ParseInt0_int64 _ _ Eka).
    + injection Eka as <-. apply int64_0.
  - destruct (ini.GetKey section "AllowedIPs").
    + exact (mapM_Forall _ _ _ _ (netip.ParsePrefix_valid IP laws) Eips).
    + injection Eips as <-. constructor.
Qed.

Lemma SectionsByName_nonempty cfg name l : ini.SectionsByName cfg name = Ok l -> l <> [].
Proof.
  unfold ini.SectionsByName. destruct (filter _ cfg); [discriminate|].
  intros H. injection H as <-. discriminate.
Qed.

(** What [ParseConfig] accepts is well formed. *)
Lemma ParseConfig_wf content c : config.ParseConfig content = Ok c -> wf c.
Proof.
  unfold config.ParseConfig.
  destruct (ini.LoadSources content) as [cfg|]; cbn [bind]; [|discriminate].
  destruct (config.ParseInterface cfg) as [iface|] eqn:Ei; cbn [bind]; [|discriminate].
  destruct (config.ParsePeers cfg) as [peers|] eqn:Ep; cbn [bind]; [|discriminate].
  intros H. injection H as <-. unfold wf. cbn [config.Interface config.Peers].
  split; [exact (ParseInterface_wf _ _ Ei)|].
  unfold config.ParsePeers in Ep.
  destruct (ini.SectionsByName cfg "Peer") as [sections|] eqn:Es; [|discriminate].
  split.
  - exact (mapM_Forall _ _ _ _ parsePeer_wf Ep).
  - exact (mapM_nonempty _ _ _ (SectionsByName_nonempty _ _ _ Es) Ep).
Qed.

(** What [String] writes for an accepted configuration is read back as
    that configuration without its mark. *)
Lemma String_then_ParseConfig c :
  Accepted c -> Plain c ->
  exists text,
    config.String c = Ok text
    /\ config.ParseConfig text = Ok (config.setFwMark c 0).
Proof.
  intros [content Hc] Hp. pose proof (ParseConfig_wf content c Hc) as Hw.
  exists (unlines (map render (docItems c))). split.
  - exact (String_items c Hw).
  - exact (ParseConfig_items c Hw Hp).
Qed.


End RoundTrip.

(** ** The IPv4 implementation satisfies the laws *)

Lemma isDigit_facts c :
  strconv.isDigit c = true ->
  ini.safeChar c = true /\ Ascii.eqb c "." = false /\ Ascii.eqb c "/" = false.
Proof. by_bits c. Qed.

Lemma utoa_no (sep : ascii) n :
  (forall c, strconv.isDigit c = true -> Ascii.eqb c sep = false) ->
  strings.ContainsByte (strconv.utoa n) sep = false.
Proof.
  intros H. apply All_ContainsByte with (p := strconv.isDigit); [|exact H].
  apply (r_digits _ _ (utoa_rendering n)).
Qed.

Lemma utoa_safe n : strings.All ini.safeChar (strconv.utoa n) = true.
Proof.
  apply strAll_impl with (p := strconv.isDigit).
  - intros c Hc. apply (isDigit_facts c Hc).
  - apply (r_digits _ _ (utoa_rendering n)).
Qed.

Lemma octet_utoa b : ipv4.octet (strconv.utoa (Byte.to_N b)) = Some b.
Proof.
  unfold ipv4.octet. pose proof (byteZ_range b) as Hb. unfold byteZ in Hb.
  rewrite (plainDecimal_utoa 3 (Byte.to_N b)); [|lia|change (10 ^ Z.of_nat 3) with 1000; lia].
  destruct (Z.leb_spec (Z.of_N (Byte.to_N b)) 255) as [_|Hgt]; [|lia].
  f_equal. exact (mkbyte_byteZ b).
Qed.

Lemma ipv4_ParseAddr_String a : ipv4.ParseAddr (ipv4.Addr_String a) = Ok a.
Proof.
  destruct a as [a b c d]. unfold ipv4.ParseAddr, ipv4.Addr_String, net.string4.
  cbn [ipv4.o0 ipv4.o1 ipv4.o2 ipv4.o3 append].
  assert (Hdot : forall n, strings.ContainsByte (strconv.utoa n) "." = false).
  { intros n. apply utoa_no. intros x Hx. apply (isDigit_facts x Hx). }
  rewrite !Split_first, Split_whole by apply Hdot.
  rewrite !octet_utoa. reflexivity.
Qed.

Lemma cutLast_none c s : strings.ContainsByte s c = false -> strings.cutLast c s = None.
Proof.
  induction s as [|a r IH]; [reflexivity|]. cbn [strings.ContainsByte strings.cutLast].
  intros H. apply orb_false_iff in H as [H1 H2]. rewrite (IH H2), H1. reflexivity.
Qed.

Lemma cutLast_app c x y :
  strings.ContainsByte y c = false -> strings.cutLast c (x ++ String c y) = Some (x, y).
Proof.
  intros Hy. induction x as [|a r IH]; cbn [append strings.cutLast].
  - rewrite (cutLast_none c y Hy), Ascii.eqb_refl. reflexivity.
  - rewrite IH. reflexivity.
Qed.

Lemma plainDecimal_nonneg m s v : strconv.plainDecimal m s = Some v -> 0 <= v.
Proof.
  unfold strconv.plainDecimal. destruct s as [|c r]; [discriminate|].
  destruct (_ && _); [discriminate|]. destruct (Nat.leb _ _); [|discriminate].
  intros H. apply (decimal_ge _ 0 v H). lia.
Qed.

Lemma ipv4_laws : netip.Laws ipv4.ops.
Proof.
  constructor; cbn [netip.ParsePrefix netip.ParseAddr netip.Prefix_IsValid netip.Addr_IsValid
    netip.PrefixFrom netip.Addr_Is4 netip.Prefix_String netip.Addr_String ipv4.ops].
  - intros s p. unfold ipv4.ParsePrefix.
    destruct (strings.cutLast "/" s) as [[ip bitsStr]|]; [|discriminate].
    destruct (ipv4.ParseAddr ip) as [a|]; cbn [bind]; [|discriminate].
    destruct (strconv.plainDecimal 3 bitsStr) as [b|] eqn:Eb; [|discriminate].
    pose proof (plainDecimal_nonneg _ _ _ Eb) as H0.
    destruct (Z.ltb_spec 32 b) as [|Hle]; [discriminate|].
    intros H. injection H as <-. unfold ipv4.PrefixFrom, ipv4.Prefix_IsValid.
    cbn [ipv4.bits].
    destruct (Z.leb_spec 0 b); [|lia]. destruct (Z.leb_spec b 32); [|lia]. cbn [andb].
    destruct (Z.leb_spec 0 b); [|lia]. destruct (Z.leb_spec b 32); [|lia]. reflexivity.
  - reflexivity.
  - reflexivity.
  - intros [a b] Hv. unfold ipv4.Prefix_String, ipv4.ParsePrefix. rewrite Hv.
    unfold ipv4.Prefix_IsValid in Hv. cbn [ipv4.paddr ipv4.bits] in *.
    apply andb_true_iff in Hv as [H0 H32]. apply Z.leb_le in H0, H32.
    assert (EI : strconv.Itoa b = strconv.utoa (Z.to_N b)).
    { unfold strconv.Itoa. destruct (Z.ltb_spec b 0); [lia | reflexivity]. }
    rewrite EI. cbn [append].
    rewrite cutLast_app by (apply utoa_no; intros x Hx; apply (isDigit_facts x Hx)).
    rewrite ipv4_ParseAddr_String. cbn [bind].
    rewrite (plainDecimal_utoa 3 (Z.to_N b));
      [|lia|change (10 ^ Z.of_nat 3) with 1000; lia].
    rewrite Z2N.id by lia.
    destruct (Z.ltb_spec 32 b); [lia|]. unfold ipv4.PrefixFrom.
    destruct (Z.leb_spec 0 b); [|lia]. destruct (Z.leb_spec b 32); [|lia]. reflexivity.
  - intros a _. exact (ipv4_ParseAddr_String a).
  - intros [[a b c d] n] Hv. unfold ipv4.Prefix_String. rewrite Hv.
    unfold ipv4.Addr_String, net.string4. cbn [ipv4.paddr ipv4.bits ipv4.o0 ipv4.o1 ipv4.o2 ipv4.o3].
    assert (Hall : strings.All ini.safeChar
              ((strconv.utoa (Byte.to_N a) ++ "." ++ strconv.utoa (Byte.to_N b) ++ "."
                ++ strconv.utoa (Byte.to_N c) ++ "." ++ strconv.utoa (Byte.to_N d))
               ++ "/" ++ strconv.Itoa n) = true).
    { rewrite !strAll_app, !utoa_safe.
      pose proof (Itoa_token n) as Ht. unfold ini.token in Ht.
      destruct (strconv.Itoa n); [discriminate|]. rewrite Ht. reflexivity. }
    unfold ini.token.
    destruct (utoa_head (Byte.to_N a)) as [x [r [E _]]]. rewrite E in *.
    exact Hall.
Qed.

(** ** A configuration file and what it is parsed to *)

Lemma sampleConfig_Accepted : Accepted sampleConfig.
Proof. exists sampleText. reflexivity. Qed.

Lemma sampleConfig_Plain : Plain sampleConfig.
Proof.
  split.
  - repeat constructor.
  - constructor; [|constructor]. right. repeat split; reflexivity.
Qed.

Lemma markedConfig_Accepted : Accepted markedConfig.
Proof. exists markedText. reflexivity. Qed.

Lemma markedConfig_Plain : Plain markedConfig.
Proof.
  split.
  - repeat constructor.
  - constructor; [|constructor]. right. repeat split; reflexivity.
Qed.



(** ** The IPC document *)

Section Device.

Context {IP : netip.Ops}.

Lemma wireguard_writePeers_lines peers request :
  Forall (fun p => (8 <= String.length (config.PublicKey p))%nat) peers ->
  wireguard.writePeers request peers
  = Ok (request ++ concat_str (map wireguard.peerLines peers)).
Proof.
  intros H. revert request. induction H as [|p ps Hp _ IH]; intros request.
  - cbn [wireguard.writePeers map concat_str]. rewrite append_nil_r. reflexivity.
  - cbn [wireguard.writePeers map concat_str]. unfold wireguard.first8.
    apply Nat.leb_le in Hp. rewrite Hp. cbn [bind].
    rewrite IH, append_assoc. reflexivity.
Qed.

(** C5.  When the keys are long enough for the debug lines, the IPC
    document is the [private_key] line followed by the document the
    specification describes, which itself starts with that line: the key
    is written twice, not exactly once. *)
Theorem ipcRequest_writes_key_twice conf fwmark :
  (8 <= String.length (config.PrivateKey (config.Interface conf)))%nat ->
  Forall (fun p => (8 <= String.length (config.PublicKey p))%nat) (config.Peers conf) ->
  wireguard.ipcRequest conf fwmark
  = Ok (wireguard.keyLine conf ++ wireguard.specRequest conf fwmark).
Proof.
  intros Hk Hp. unfold wireguard.ipcRequest, wireguard.first8.
  apply Nat.leb_le in Hk. rewrite Hk. cbn [bind]. cbv zeta.
  rewrite (wireguard_writePeers_lines _ _ Hp). unfold wireguard.specRequest.
  destruct (negb (fwmark =? 0)); rewrite ?append_assoc; cbn [append];
    rewrite ?append_assoc; reflexivity.
Qed.

End Device.

Lemma ipcRequest_writes_key_twice_witness :
  (8 <= String.length (config.PrivateKey (config.Interface sampleConfig)))%nat
  /\ Forall (fun p => (8 <= String.length (config.PublicKey p))%nat) (config.Peers sampleConfig)
  /\ wireguard.ipcRequest sampleConfig 0
     = Ok (wireguard.keyLine sampleConfig ++ wireguard.specRequest sampleConfig 0)
  /\ List.length (wireguard.linesFor "private_key"
                    (wireguard.keyLine sampleConfig ++ wireguard.specRequest sampleConfig 0))
     = 2%nat.
Proof.
  assert (Hk : (8 <= String.length (config.PrivateKey (config.Interface sampleConfig)))%nat)
    by (cbn; lia).
  assert (Hp : Forall (fun p => (8 <= String.length (config.PublicKey p))%nat)
                 (config.Peers sampleConfig))
    by (constructor; [cbn; lia | constructor]).
  split; [exact Hk|]. split; [exact Hp|]. split.
  - exact (ipcRequest_writes_key_twice sampleConfig 0 Hk Hp).
  - reflexivity.
Defined.

(** ** The peers [Run] hands to the device *)

Section Run.

Context {IP : netip.Ops}.

Variable ParseResolveAddressPort : string -> bool -> string -> result string.

(** C6.  Whatever keepalive the peers were parsed with, every peer of
    the configuration [Run] builds has the keepalive 5: a value of at
    least 5 is not kept. *)
Theorem prepare_overrides_KeepAlive conf conf' :
  app.prepare ParseResolveAddressPort conf = Ok conf' ->
  Forall (fun p => config.KeepAlive p = 5) (config.Peers conf')
  /\ List.length (config.Peers conf') = List.length (config.Peers conf).
Proof.
  unfold app.prepare. destruct (netip.ParseAddr app.resolver); [|discriminate].
  intros H. injection H as <-. cbn [config.Peers]. split.
  - apply Forall_map. apply Forall_forall. intros p _. reflexivity.
  - apply length_map.
Qed.

End Run.

Lemma prepare_overrides_KeepAlive_witness :
  map config.KeepAlive (config.Peers sampleConfig) = [25]
  /\ exists conf',
       app.prepare noResolver sampleConfig = Ok conf'
       /\ Forall (fun p => config.KeepAlive p = 5) (config.Peers conf')
       /\ List.length (config.Peers conf') = List.length (config.Peers sampleConfig).
Proof.
  split; [reflexivity|].
  exists {| config.Interface :=
              @config.mkInterface ipv4.ops
                (config.PrivateKey (config.Interface sampleConfig))
                (config.Addresses (config.Interface sampleConfig))
                [ipv4.mkAddr4 x01 x01 x01 x01] 1330 0;
            config.Peers := map (app.preparePeer noResolver) (config.Peers sampleConfig) |}.
  split; [reflexivity|].
  exact (prepare_overrides_KeepAlive noResolver sampleConfig _ eq_refl).
Defined.

(** ** A peer without a public key *)

(** C9.  A file whose [[Peer]] section has no [PublicKey] line is
    accepted, not refused: the peer comes back with the empty string as
    its public key, which is not the hex of 32 bytes, and the device set-up
    then fails on slicing that key. *)
Theorem ParseConfig_accepts_peer_without_PublicKey :
  config.ParseConfig keylessText = Ok keylessConfig
  /\ map config.PublicKey (config.Peers keylessConfig) = [""]
  /\ map (fun p => String.length (config.PublicKey p)) (config.Peers keylessConfig) = [0%nat]
  /\ wireguard.ipcRequest keylessConfig 0 = Err (Panic "slice bounds out of range").
Proof. repeat split; reflexivity. Qed.

(** * Further properties of the code *)

(** ** SOCKS4 requests *)

Lemma readUntilNull_from_sound r : forall buf bs rest,
  socks4.readUntilNull_from r buf = Ok (bs, rest) ->
  exists s, bs = (buf ++ s)%list /\ r = (s ++ x00 :: rest)%list
            /\ Forall (fun b => b <> x00) s.
Proof.
  induction r as [|b r IH]; intros buf bs rest H; cbn [socks4.readUntilNull_from] in H;
    [discriminate|].
  destruct (Byte.eqb b x00) eqn:E.
  - injection H as <- <-. apply Byte.byte_dec_bl in E. subst b.
    exists []. rewrite app_nil_r. repeat split. constructor.
  - destruct (IH _ _ _ H) as [s [-> [-> Hs]]].
    exists (b :: s). rewrite <- app_assoc. repeat split.
    constructor; [|exact Hs]. intros ->. discriminate.
Qed.

Lemma readUntilNull_from_eof r : forall buf,
  Forall (fun b => b <> x00) r -> socks4.readUntilNull_from r buf = Err EOF.
Proof.
  induction r as [|b r IH]; intros buf H; [reflexivity|].
  inversion H as [|? ? Hb Hr]; subst. cbn [socks4.readUntilNull_from].
  destruct (Byte.eqb b x00) eqn:E; [apply Byte.byte_dec_bl in E; contradiction|].
  apply IH, Hr.
Qed.

(** X1.  [readUntilNull] returns the bytes before the first NUL and
    leaves what follows it; whenever it succeeds its input has that
    shape; and on a stream without a NUL it fails with [io.EOF]. *)
Theorem readUntilNull_spec :
  (forall s rest, Forall (fun b => b <> x00) s ->
     socks4.readUntilNull (s ++ x00 :: rest)%list = Ok (s, rest))
  /\ (forall r bs rest, socks4.readUntilNull r = Ok (bs, rest) ->
        r = (bs ++ x00 :: rest)%list /\ Forall (fun b => b <> x00) bs)
  /\ (forall r, Forall (fun b => b <> x00) r -> socks4.readUntilNull r = Err EOF).
Proof.
  split; [|split].
  - intros s rest H. exact (readUntilNull_from_app s rest [] H).
  - intros r bs rest H. destruct (readUntilNull_from_sound r [] bs rest H) as [s [-> [-> Hs]]].
    split; [reflexivity | exact Hs].
  - intros r H. exact (readUntilNull_from_eof r [] H).
Qed.

Lemma readUntilNull_spec_witness :
  Forall (fun b => b <> x00) [x72; x6f; x6f; x74]
  /\ socks4.readUntilNull [x72; x6f; x6f; x74; x00; x68; x69] = Ok ([x72; x6f; x6f; x74], [x68; x69])
  /\ socks4.readUntilNull [x72; x6f; x6f; x74] = Err EOF.
Proof.
  assert (H : Forall (fun b => b <> x00) [x72; x6f; x6f; x74])
    by (repeat constructor; discriminate).
  split; [exact H|]. split.
  - exact (proj1 readUntilNull_spec [x72; x6f; x6f; x74] [x68; x69] H).
  - exact (proj2 (proj2 readUntilNull_spec) [x72; x6f; x6f; x74] H).
Defined.

Lemma NewRequest_requestBytes cmd p0 p1 a b c d user rest :
  Forall (fun x => x <> x00) user ->
  socks4.NewRequest (socks4_server.requestBytes cmd p0 p1 a b c d user ++ rest)%list
  = Ok ({| socks4.Version := socks4.Socks4Version; socks4.Cmd := cmd;
           socks4.DestAddr := {| socks4.Name := ""; socks4.IP := net.IPv4 a b c d;
                                 socks4.Port := socks4.Uint16 p0 p1 |};
           socks4.User := string_of_bytes user |}, rest).
Proof.
  intros Hu. unfold socks4.NewRequest, socks4_server.requestBytes.
  cbn [app].
  change (ReadFull 2 (socks4.Socks4Version :: cmd :: ?x)) with (Ok ([socks4.Socks4Version; cmd], x)).
  cbn [bind]. rewrite Byte_eqb_refl. cbn [negb].
  change (ReadFull 6 (p0 :: p1 :: a :: b :: c :: d :: ?x)) with (Ok ([p0; p1; a; b; c; d], x)).
  cbn [bind]. unfold socks4.readUntilNull.
  rewrite <- app_assoc. cbn [app].
  rewrite (readUntilNull_from_app user rest [] Hu). cbn [bind app].
  rewrite isSocks4a_IPv4. cbn [bind]. reflexivity.
Qed.

Lemma Uint16_value p0 p1 : socks4.Uint16 p0 p1 = byteZ p0 * 256 + byteZ p1.
Proof.
  unfold socks4.Uint16. pose proof (byteZ_range p0). pose proof (byteZ_range p1).
  rewrite Z.shiftl_mul_pow2 by lia. change (2 ^ 8) with 256.
  assert (Hl : Z.land (byteZ p0 * 256) (byteZ p1) = 0);
    [|rewrite <- (Z.lxor_lor _ _ Hl), <- (Z.add_nocarry_lxor _ _ Hl); reflexivity].
  apply Z.bits_inj'. intros n Hn. rewrite Z.land_spec, Z.bits_0.
  destruct (Z.ltb_spec n 8).
  - change 256 with (2 ^ 8).
    rewrite Z.mul_pow2_bits_low with (a := byteZ p0) (n := 8) (m := n) by lia. reflexivity.
  - rewrite (Z.bits_above_log2 (byteZ p1) n); [apply andb_false_r|lia|].
    destruct (Z.eq_dec (byteZ p1) 0) as [->|Hne]; [simpl; lia|].
    apply Z.log2_lt_pow2; [lia|]. apply Z.lt_le_trans with (2 ^ 8); [simpl; lia|].
    apply Z.pow_le_mono_r; lia.
Qed.

(** X2.  A request [0x04 | cmd | port | ip | user | 0] is accepted
    whatever follows it: the command, the big-endian port, the address
    and the user come back as sent, the destination has no name, and the
    bytes after the NUL of the user are left in the stream. *)
Theorem NewRequest_decodes cmd p0 p1 a b c d user rest :
  Forall (fun x => x <> x00) user ->
  exists req,
    socks4.NewRequest (socks4_server.requestBytes cmd p0 p1 a b c d user ++ rest)%list
    = Ok (req, rest)
    /\ socks4.Version req = x04 /\ socks4.Cmd req = cmd
    /\ socks4.User req = string_of_bytes user
    /\ socks4.Name (socks4.DestAddr req) = ""
    /\ net.To4 (socks4.IP (socks4.DestAddr req)) = Some [a; b; c; d]
    /\ socks4.Port (socks4.DestAddr req) = byteZ p0 * 256 + byteZ p1.
Proof.
  intros Hu. eexists. split; [exact (NewRequest_requestBytes cmd p0 p1 a b c d user rest Hu)|].
  cbn [socks4.Version socks4.Cmd socks4.User socks4.DestAddr socks4.Name socks4.IP socks4.Port].
  repeat split.
  apply Uint16_value.
Qed.

Lemma NewRequest_decodes_witness :
  Forall (fun x => x <> x00) [x6a; x6f]
  /\ exists req,
       socks4.NewRequest [x04; x01; x01; xbb; x5d; xb8; xd8; x22; x6a; x6f; x00; x47; x45]
       = Ok (req, [x47; x45])
       /\ socks4.Version req = x04 /\ socks4.Cmd req = x01
       /\ socks4.User req = "jo"
       /\ socks4.Name (socks4.DestAddr req) = ""
       /\ net.To4 (socks4.IP (socks4.DestAddr req)) = Some [x5d; xb8; xd8; x22]
       /\ socks4.Port (socks4.DestAddr req) = 443.
Proof.
  assert (H : Forall (fun x => x <> x00) [x6a; x6f]) by (repeat constructor; discriminate).
  split; [exact H|].
  exact (NewRequest_decodes x01 x01 xbb x5d xb8 xd8 x22 [x6a; x6f] [x47; x45] H).
Defined.

Lemma ReadFull_sound n r bs rest :
  ReadFull n r = Ok (bs, rest) -> r = (bs ++ rest)%list /\ List.length bs = n.
Proof.
  unfold ReadFull. destruct (Nat.leb_spec n (List.length r)) as [Hle|Hgt].
  - intros H. injection H as <- <-. split.
    + symmetry. apply firstn_skipn.
    + apply firstn_length_le. exact Hle.
  - destruct r; discriminate.
Qed.

(** X3.  Whatever [NewRequest] accepts has the SOCKS4 shape: the input
    is [0x04 | cmd | port | ip | user | 0] followed by the bytes left
    unread, so it holds at least nine bytes; the user holds no NUL; the
    request carries exactly these fields; the port is below 65536 and the
    destination never has a name. *)
Theorem NewRequest_sound r req rest :
  socks4.NewRequest r = Ok (req, rest) ->
  exists cmd p0 p1 a b c d user,
    r = (socks4_server.requestBytes cmd p0 p1 a b c d user ++ rest)%list
    /\ Forall (fun x => x <> x00) user
    /\ req = {| socks4.Version := x04; socks4.Cmd := cmd;
                socks4.DestAddr := {| socks4.Name := ""; socks4.IP := net.IPv4 a b c d;
                                      socks4.Port := byteZ p0 * 256 + byteZ p1 |};
                socks4.User := string_of_bytes user |}
    /\ 0 <= socks4.Port (socks4.DestAddr req) < 65536
    /\ (9 <= List.length r)%nat.
Proof.
  unfold socks4.NewRequest. intros H.
  destruct (ReadFull 2 r) as [[header r1]|] eqn:E1; cbn [bind] in H; [|discriminate].
  destruct (ReadFull_sound _ _ _ _ E1) as [-> _].
  destruct header as [|version [|command [|]]]; try discriminate.
  destruct (Byte.eqb version socks4.Socks4Version) eqn:Ev; cbn [negb] in H; [|discriminate].
  apply Byte.byte_dec_bl in Ev. subst version.
  destruct (ReadFull 6 r1) as [[addr r2]|] eqn:E2; cbn [bind] in H; [|discriminate].
  destruct (ReadFull_sound _ _ _ _ E2) as [-> _].
  destruct addr as [|p0 [|p1 [|a [|b [|c [|d [|]]]]]]]; try discriminate.
  destruct (socks4.readUntilNull r2) as [[user r3]|] eqn:E3; cbn [bind] in H; [|discriminate].
  destruct (readUntilNull_from_sound r2 [] user r3 E3) as [s [Hs [-> Hnz]]].
  cbn [app] in Hs. subst user.
  rewrite isSocks4a_IPv4 in H. cbn [bind] in H. injection H as <- <-.
  exists command, p0, p1, a, b, c, d, s.
  pose proof (byteZ_range p0). pose proof (byteZ_range p1).
  split; [|split; [exact Hnz|split; [|split]]].
  - unfold socks4_server.requestBytes. cbn [app]. rewrite <- app_assoc. reflexivity.
  - rewrite Uint16_value. reflexivity.
  - cbn [socks4.Port socks4.DestAddr]. rewrite Uint16_value. lia.
  - cbn [app List.length]. rewrite List.length_app. cbn [List.length]. lia.
Qed.

Lemma NewRequest_sound_witness :
  exists cmd p0 p1 a b c d user,
    [x04; x02; x00; x50; x0a; x00; x00; x01; x00]
    = (socks4_server.requestBytes cmd p0 p1 a b c d user ++ [])%list
    /\ Forall (fun x => x <> x00) user
    /\ {| socks4.Version := x04; socks4.Cmd := x02;
          socks4.DestAddr := {| socks4.Name := ""; socks4.IP := net.IPv4 x0a x00 x00 x01;
                                socks4.Port := 80 |};
          socks4.User := "" |}
       = {| socks4.Version := x04; socks4.Cmd := cmd;
            socks4.DestAddr := {| socks4.Name := ""; socks4.IP := net.IPv4 a b c d;
                                  socks4.Port := byteZ p0 * 256 + byteZ p1 |};
            socks4.User := string_of_bytes user |}
    /\ 0 <= 80 < 65536
    /\ (9 <= 9)%nat.
Proof.
  exact (NewRequest_sound [x04; x02; x00; x50; x0a; x00; x00; x01; x00] _ [] eq_refl).
Defined.

(** X4.  A stream whose first byte is not 4 is refused with the error
    that names the version, whatever the second byte and the rest are;
    the empty stream gives [io.EOF] and a single byte
    [io.ErrUnexpectedEOF]. *)
Theorem NewRequest_rejects_version :
  (forall v cmd rest, v <> x04 ->
     socks4.NewRequest (v :: cmd :: rest)
     = Err (Errorf ("unsupported SOCKS version: " ++ strconv.Itoa (byteZ v))))
  /\ socks4.NewRequest [] = Err EOF
  /\ (forall v, socks4.NewRequest [v] = Err ErrUnexpectedEOF).
Proof.
  split; [|split; [reflexivity | reflexivity]].
  intros v cmd rest Hv. unfold socks4.NewRequest.
  change (ReadFull 2 (v :: cmd :: rest)) with (Ok ([v; cmd], rest)). cbn [bind].
  destruct (Byte.eqb v socks4.Socks4Version) eqn:E; [|reflexivity].
  apply Byte.byte_dec_bl in E. contradiction.
Qed.

Lemma NewRequest_rejects_version_witness :
  x05 <> x04
  /\ socks4.NewRequest [x05; x01; x00]
     = Err (Errorf "unsupported SOCKS version: 5").
Proof.
  split; [discriminate|].
  exact (proj1 NewRequest_rejects_version x05 x01 [x00] ltac:(discriminate)).
Defined.

(** ** SOCKS4 replies and dispatch *)

Lemma PutUint16_Uint16 v :
  0 <= v < 65536 ->
  exists p0 p1, socks4_server.PutUint16 v = [p0; p1] /\ socks4.Uint16 p0 p1 = v.
Proof.
  intros Hv. exists (mkbyte (Z.shiftr v 8)), (mkbyte (Z.land v 255)).
  split; [reflexivity|]. rewrite Uint16_value.
  rewrite Z.shiftr_div_pow2 by lia. change (2 ^ 8) with 256.
  change 255 with (Z.ones 8). rewrite Z.land_ones by lia. change (2 ^ 8) with 256.
  rewrite !byteZ_mkbyte.
  - pose proof (Z.div_mod v 256). lia.
  - apply Z.mod_pos_bound. lia.
  - split; [apply Z.div_pos; lia | apply Z.div_lt_upper_bound; lia].
Qed.

Lemma To4_length ip b4 : net.To4 ip = Some b4 -> List.length b4 = 4%nat.
Proof.
  unfold net.To4.
  destruct ip as [|z0 [|z1 [|z2 [|z3 [|z4 [|z5 [|z6 [|z7 [|z8 [|z9 [|f0 [|f1 [|a [|b [|c [|d [|]]]]]]]]]]]]]]]]];
    try discriminate.
  - intros H. injection H as <-. reflexivity.
  - destruct (_ && _); [|discriminate]. intros H. injection H as <-. reflexivity.
Qed.

(** X5.  [WriteReply] always hands eight bytes to the writer: the
    version byte 0, the reply code, the port in big-endian order reduced
    modulo 65536, and the four bytes of the IPv4 form of the address; a
    nil address, a nil IP and an address that has no IPv4 form all give
    four zero bytes. *)
Theorem WriteReply_layout (reply : socks4_server.Reply) (addr : option socks4.Address) :
  exists p0 p1 a b c d,
    socks4_server.WriteReply reply addr = [x00; reply; p0; p1; a; b; c; d]
    /\ socks4.Uint16 p0 p1
       = (match addr with Some x => socks4.Port x | None => 0 end) mod 65536
    /\ [a; b; c; d]
       = match addr with
         | Some x => match net.To4 (socks4.IP x) with
                     | Some b4 => b4
                     | None => [x00; x00; x00; x00]
                     end
         | None => [x00; x00; x00; x00]
         end.
Proof.
  unfold socks4_server.WriteReply, socks4_server.uint16.
  set (port := match addr with Some x => socks4.Port x | None => 0 end).
  assert (Hp : socks4.Port match addr with
                           | Some a => a
                           | None => {| socks4.Name := ""; socks4.IP := []; socks4.Port := 0 |}
                           end = port) by (destruct addr; reflexivity).
  rewrite Hp.
  destruct (PutUint16_Uint16 (port mod 65536)) as [p0 [p1 [E1 E2]]];
    [apply Z.mod_pos_bound; lia|].
  rewrite E1.
  assert (Hq : exists a b c d,
             match net.To4 match socks4.IP match addr with
                                            | Some a => a
                                            | None => {| socks4.Name := ""; socks4.IP := [];
                                                         socks4.Port := 0 |}
                                            end with
                           | [] => socks4_server.IPv4zero
                           | x :: l => x :: l
                           end with
             | Some b4 => b4
             | None => [x00; x00; x00; x00]
             end = [a; b; c; d]
             /\ [a; b; c; d]
                = match addr with
                  | Some x => match net.To4 (socks4.IP x) with
                              | Some b4 => b4
                              | None => [x00; x00; x00; x00]
                              end
                  | None => [x00; x00; x00; x00]
                  end).
  { destruct addr as [x|]; [|exists x00, x00, x00, x00; split; reflexivity].
    destruct (socks4.IP x) as [|i0 ip] eqn:Ei.
    - exists x00, x00, x00, x00. split; reflexivity.
    - destruct (net.To4 (i0 :: ip)) as [b4|] eqn:E4.
      + pose proof (To4_length _ _ E4) as Hl.
        destruct b4 as [|a [|b [|c [|d [|]]]]]; try discriminate.
        exists a, b, c, d. split; reflexivity.
      + exists x00, x00, x00, x00. split; reflexivity. }
  destruct Hq as [a [b [c [d [E3 E4]]]]]. rewrite E3.
  exists p0, p1, a, b, c, d. split; [reflexivity|]. split; [exact E2 | exact E4].
Qed.

Section Socks4Dispatch.

Variable handleConnect : socks4.Request -> Reader -> option error.
Variable handleBind : socks4.Request -> Reader -> option error.

(** X6.  [ServeConn] hands a CONNECT request to the connect handler and
    a BIND request to the bind handler, each with the bytes after the
    request still unread and a destination that prints as a dotted quad
    with the port; any other command is refused with the error that names
    it, and no handler runs. *)
Theorem ServeConn_dispatch cmd p0 p1 a b c d user rest :
  Forall (fun x => x <> x00) user ->
  exists req,
    socks4.NewRequest (socks4_server.requestBytes cmd p0 p1 a b c d user ++ rest)%list
    = Ok (req, rest)
    /\ socks4.Address_String (Some (socks4.DestAddr req))
       = net.string4 a b c d ++ ":" ++ strconv.Itoa (byteZ p0 * 256 + byteZ p1)
    /\ socks4_server.ServeConn handleConnect handleBind
         (socks4_server.requestBytes cmd p0 p1 a b c d user ++ rest)%list
       = if Byte.eqb cmd x01 then handleConnect req rest
         else if Byte.eqb cmd x02 then handleBind req rest
         else Some (Errorf ("unsupported command: Unknown("
                            ++ strconv.Itoa (byteZ cmd) ++ ")")).
Proof.
  intros Hu. eexists. split; [exact (NewRequest_requestBytes cmd p0 p1 a b c d user rest Hu)|].
  split.
  - cbn [socks4.DestAddr]. rewrite Address_String_IPv4, Uint16_value. reflexivity.
  - unfold socks4_server.ServeConn.
    rewrite (NewRequest_requestBytes cmd p0 p1 a b c d user rest Hu).
    cbn [socks4.Cmd]. unfold socks4_server.Command_String.
    change socks4.ConnectCommand with x01. change socks4.BindCommand with x02.
    destruct (Byte.eqb cmd x01); [reflexivity|].
    destruct (Byte.eqb cmd x02); reflexivity.
Qed.

End Socks4Dispatch.

Lemma ServeConn_dispatch_witness :
  Forall (fun x => x <> x00) (@nil byte)
  /\ exists req,
       socks4.NewRequest [x04; x03; x00; x50; x0a; x00; x00; x01; x00] = Ok (req, [])
       /\ socks4.Address_String (Some (socks4.DestAddr req)) = "10.0.0.1:80"
       /\ socks4_server.ServeConn (fun _ _ => None) (fun _ _ => None)
            [x04; x03; x00; x50; x0a; x00; x00; x01; x00]
          = Some (Errorf "unsupported command: Unknown(3)").
Proof.
  split; [constructor|].
  exact (ServeConn_dispatch (fun _ _ => None) (fun _ _ => None)
           x03 x00 x50 x0a x00 x00 x01 [] [] (Forall_nil _)).
Defined.

(** ** SOCKS5: the password sub-negotiation and serving *)

Lemma readByte_ok (c : socks5.Conn) b rest :
  socks5.input c = b :: rest ->
  socks5.readByte c
  = ({| socks5.input := rest; socks5.output := socks5.output c;
        socks5.wfail := socks5.wfail c |}, Ok b).
Proof.
  intros Hi. unfold socks5.readByte, socks5.mbind, socks5.readFull. rewrite Hi.
  change (ReadFull 1 (b :: rest)) with (Ok ([b], rest)). reflexivity.
Qed.

Lemma length_byte n :
  (n < 256)%nat -> N.to_nat (Byte.to_N (mkbyte (Z.of_nat n))) = n.
Proof.
  intros H. assert (E : byteZ (mkbyte (Z.of_nat n)) = Z.of_nat n)
    by (apply byteZ_mkbyte; lia).
  unfold byteZ in E. lia.
Qed.

Lemma password_verdict (s : socks5.Server) (c : socks5.Conn) valid user pass rest :
  socks5.Credentials s = Some valid ->
  socks5.input c = (socks5_server.credentialBytes user pass ++ rest)%list ->
  (List.length user < 256)%nat -> (List.length pass < 256)%nat ->
  socks5.wfail c = None ->
  socks5.handleUsernamePasswordAuth s c
  = if valid (string_of_bytes user) (string_of_bytes pass)
    then ({| socks5.input := rest; socks5.output := (socks5.output c ++ [x01; x00])%list;
             socks5.wfail := None |}, Ok tt)
    else ({| socks5.input := rest; socks5.output := (socks5.output c ++ [x01; x01])%list;
             socks5.wfail := None |}, Err (Errorf "invalid username or password")).
Proof.
  intros Hs Hi Hu Hp Hw.
  unfold socks5_server.credentialBytes in Hi. cbn [app] in Hi.
  unfold socks5.handleUsernamePasswordAuth, socks5.mbind at 1.
  rewrite (readByte_ok c x01 _ Hi). cbn [Byte.eqb negb].
  change (Byte.eqb x01 x01) with true. cbn [negb].
  unfold socks5.mbind at 1.
  rewrite (readBytes_ok _ (mkbyte (Z.of_nat (List.length user))) user
             (mkbyte (Z.of_nat (List.length pass)) :: pass ++ rest)%list);
    [|cbn [socks5.input]; rewrite <- app_assoc; reflexivity | apply length_byte, Hu].
  unfold socks5.mbind at 1.
  rewrite (readBytes_ok _ (mkbyte (Z.of_nat (List.length pass))) pass rest);
    [|reflexivity | apply length_byte, Hp].
  cbn [socks5.output socks5.wfail]. rewrite Hs.
  destruct (valid (string_of_bytes user) (string_of_bytes pass)).
  - rewrite Write_ok by exact Hw. reflexivity.
  - unfold socks5.mbind. rewrite Write_ok by exact Hw. reflexivity.
Qed.

(** X7.  The sub-negotiation [0x01 | ULEN | UNAME | PLEN | PASSWD] is
    answered by what the credential store says of the two strings: with
    [0x01 0x00] and success when it accepts them, with [0x01 0x01] and
    the error [invalid username or password] when it does not; the bytes
    after the password stay unread.  A first byte other than 1 is refused
    with the error that names it and nothing is written. *)
Theorem handleUsernamePasswordAuth_verdict (s : socks5.Server) (c : socks5.Conn) :
  (forall valid user pass rest,
      socks5.Credentials s = Some valid ->
      socks5.input c = (socks5_server.credentialBytes user pass ++ rest)%list ->
      (List.length user < 256)%nat -> (List.length pass < 256)%nat ->
      socks5.wfail c = None ->
      socks5.handleUsernamePasswordAuth s c
      = if valid (string_of_bytes user) (string_of_bytes pass)
        then ({| socks5.input := rest; socks5.output := (socks5.output c ++ [x01; x00])%list;
                 socks5.wfail := None |}, Ok tt)
        else ({| socks5.input := rest; socks5.output := (socks5.output c ++ [x01; x01])%list;
                 socks5.wfail := None |}, Err (Errorf "invalid username or password")))
  /\ (forall v rest,
        socks5.input c = v :: rest -> v <> x01 ->
        socks5.handleUsernamePasswordAuth s c
        = ({| socks5.input := rest; socks5.output := socks5.output c;
              socks5.wfail := socks5.wfail c |},
           Err (Errorf ("unsupported auth version: " ++ strconv.Itoa (byteZ v))))).
Proof.
  split.
  - intros valid user pass rest. apply password_verdict.
  - intros v rest Hi Hv.
    unfold socks5.handleUsernamePasswordAuth, socks5.mbind at 1.
    rewrite (readByte_ok c v rest Hi).
    destruct (Byte.eqb v x01) eqn:E; [apply Byte.byte_dec_bl in E; contradiction|].
    reflexivity.
Qed.

Lemma handleUsernamePasswordAuth_verdict_witness :
  socks5.handleUsernamePasswordAuth joServer
    (pending [x01; x02; x6a; x6f; x02; x70; x77; x05] [x05; x02])
  = (pending [x05] [x05; x02; x01; x00], Ok tt)
  /\ socks5.handleUsernamePasswordAuth joServer
       (pending [x01; x02; x6a; x6f; x02; x70; x78; x05] [x05; x02])
     = (pending [x05] [x05; x02; x01; x01], Err (Errorf "invalid username or password"))
  /\ socks5.handleUsernamePasswordAuth joServer (pending [x05; x01] [])
     = (pending [x01] [], Err (Errorf "unsupported auth version: 5")).
Proof.
  split; [|split].
  - exact (proj1 (handleUsernamePasswordAuth_verdict joServer
                    (pending [x01; x02; x6a; x6f; x02; x70; x77; x05] [x05; x02]))
             (socks5.StaticCredentials_Valid [("jo", "pw")])
             [x6a; x6f] [x70; x77] [x05] eq_refl eq_refl
             ltac:(cbn; lia) ltac:(cbn; lia) eq_refl).
  - exact (proj1 (handleUsernamePasswordAuth_verdict joServer
                    (pending [x01; x02; x6a; x6f; x02; x70; x78; x05] [x05; x02]))
             (socks5.StaticCredentials_Valid [("jo", "pw")])
             [x6a; x6f] [x70; x78] [x05] eq_refl eq_refl
             ltac:(cbn; lia) ltac:(cbn; lia) eq_refl).
  - exact (proj2 (handleUsernamePasswordAuth_verdict joServer (pending [x05; x01] []))
             x05 [x01] eq_refl ltac:(discriminate)).
Defined.

(** X8.  Configured credentials are not enforced: when the client offers
    no-auth and neither GSSAPI nor username/password, every server, with
    or without a credential store, answers [0x05 0x00] and succeeds
    without reading anything more. *)
Theorem authenticate_accepts_noauth (s : socks5.Server) (c : socks5.Conn) n methods rest :
  socks5.input c = n :: (methods ++ rest)%list ->
  N.to_nat (Byte.to_N n) = List.length methods ->
  socks5.wfail c = None ->
  In x00 methods -> ~ In x01 methods -> ~ In x02 methods ->
  socks5.authenticate s c
  = ({| socks5.input := rest; socks5.output := (socks5.output c ++ [x05; x00])%list;
        socks5.wfail := None |}, Ok tt).
Proof.
  intros Hi Hn Hw H0 H1 H2.
  assert (Hex : forall m, existsb (Byte.eqb m) methods = true <-> In m methods).
  { intros m. rewrite existsb_exists. split.
    - intros [x [Hx E]]. apply Byte.byte_dec_bl in E. subst x. exact Hx.
    - intros Hm. exists m. split; [exact Hm | apply Byte_eqb_refl]. }
  assert (Hno : forall m, ~ In m methods -> existsb (Byte.eqb m) methods = false).
  { intros m Hm. destruct (existsb (Byte.eqb m) methods) eqn:E; [|reflexivity].
    apply Hex in E. contradiction. }
  unfold socks5.authenticate, socks5.mbind at 1.
  rewrite (readBytes_ok c n methods rest Hi Hn), !has_existsb.
  change socks5.gssapiAuth with x01. change socks5.usernamePasswordAuth with x02.
  change socks5.noAuth with x00.
  rewrite (Hno x01 H1), (Hno x02 H2), (proj2 (Hex x00) H0), andb_false_r.
  rewrite Write_ok by exact Hw. reflexivity.
Qed.

Lemma authenticate_accepts_noauth_witness :
  socks5.authenticate joServer (pending [x01; x00; x05; x01] [])
  = (pending [x05; x01] [x05; x00], Ok tt).
Proof.
  refine (authenticate_accepts_noauth joServer (pending [x01; x00; x05; x01] [])
            x01 [x00] [x05; x01] eq_refl eq_refl eq_refl _ _ _).
  - left. reflexivity.
  - intros [H|[]]. discriminate H.
  - intros [H|[]]. discriminate H.
Defined.

Section Socks5Serve.

Variable handleRequest : socks5.M unit.

(** X9.  On a server with credentials, a client that offers
    username/password (and not GSSAPI) and then sends a pair the store
    refuses gets [0x05 0x02 0x01 0x01], and the connection is served no
    further: the request handler does not run.  With a pair the store
    accepts, the handler runs on the bytes after the password once
    [0x05 0x02 0x01 0x00] is written. *)
Theorem ServeConn_password (s : socks5.Server) (c : socks5.Conn) valid n methods user pass rest :
  socks5.Credentials s = Some valid ->
  socks5.input c = x05 :: n :: (methods ++ socks5_server.credentialBytes user pass ++ rest)%list ->
  N.to_nat (Byte.to_N n) = List.length methods ->
  In x02 methods -> ~ In x01 methods ->
  (List.length user < 256)%nat -> (List.length pass < 256)%nat ->
  socks5.wfail c = None ->
  socks5_server.ServeConn handleRequest s c
  = if valid (string_of_bytes user) (string_of_bytes pass)
    then handleRequest
           {| socks5.input := rest;
              socks5.output := (socks5.output c ++ [x05; x02; x01; x00])%list;
              socks5.wfail := None |}
    else ({| socks5.input := rest;
             socks5.output := (socks5.output c ++ [x05; x02; x01; x01])%list;
             socks5.wfail := None |}, Err (Errorf "invalid username or password")).
Proof.
  intros Hs Hi Hn H2 H1 Hu Hp Hw.
  unfold socks5_server.ServeConn, socks5.mbind at 1.
  rewrite (readByte_ok c x05 _ Hi).
  change (Byte.eqb x05 socks5.socks5Version) with true. cbn [negb].
  unfold socks5.mbind at 1.
  unfold socks5.authenticate, socks5.mbind at 1.
  rewrite (readBytes_ok _ n methods (socks5_server.credentialBytes user pass ++ rest)%list);
    [|reflexivity | exact Hn].
  rewrite !has_existsb. change socks5.gssapiAuth with x01.
  change socks5.usernamePasswordAuth with x02.
  assert (E1 : existsb (Byte.eqb x01) methods = false).
  { destruct (existsb (Byte.eqb x01) methods) eqn:E; [|reflexivity].
    apply existsb_exists in E as [x [Hx E]]. apply Byte.byte_dec_bl in E. subst x.
    contradiction. }
  assert (E2 : existsb (Byte.eqb x02) methods = true).
  { apply existsb_exists. exists x02. split; [exact H2 | reflexivity]. }
  rewrite E1, E2, Hs. cbn [socks5.isSome andb socks5.output socks5.wfail].
  unfold socks5.mbind at 1. rewrite Write_ok by exact Hw.
  cbn [socks5.input socks5.output].
  erewrite password_verdict; [|exact Hs | reflexivity | exact Hu | exact Hp | reflexivity].
  cbn [socks5.output]. rewrite <- !app_assoc. cbn [app].
  destruct (valid (string_of_bytes user) (string_of_bytes pass)); reflexivity.
Qed.

(** X10.  A connection whose first byte is not 5 is refused with the
    error that names the version: nothing is written, and neither the
    negotiation nor the request handler runs. *)
Theorem ServeConn_rejects_version (s : socks5.Server) (c : socks5.Conn) v rest :
  socks5.input c = v :: rest -> v <> x05 ->
  socks5_server.ServeConn handleRequest s c
  = ({| socks5.input := rest; socks5.output := socks5.output c;
        socks5.wfail := socks5.wfail c |},
     Err (Errorf ("unsupported SOCKS version: " ++ strconv.Itoa (byteZ v)))).
Proof.
  intros Hi Hv. unfold socks5_server.ServeConn, socks5.mbind at 1.
  rewrite (readByte_ok c v rest Hi).
  destruct (Byte.eqb v socks5.socks5Version) eqn:E; [|reflexivity].
  apply Byte.byte_dec_bl in E. contradiction.
Qed.

End Socks5Serve.

Lemma ServeConn_password_witness :
  socks5_server.ServeConn (socks5.ret tt) joServer
    (pending [x05; x01; x02; x01; x02; x6a; x6f; x02; x70; x78; x05; x01] [])
  = (pending [x05; x01] [x05; x02; x01; x01], Err (Errorf "invalid username or password")).
Proof.
  refine (ServeConn_password (socks5.ret tt) joServer
            (pending [x05; x01; x02; x01; x02; x6a; x6f; x02; x70; x78; x05; x01] [])
            (socks5.StaticCredentials_Valid [("jo", "pw")])
            x01 [x02] [x6a; x6f] [x70; x78] [x05; x01]
            eq_refl eq_refl eq_refl _ _ _ _ eq_refl).
  - left. reflexivity.
  - intros [H|[]]. discriminate H.
  - cbn. lia.
  - cbn. lia.
Defined.

Lemma ServeConn_rejects_version_witness :
  socks5_server.ServeConn (socks5.ret tt) joServer (pending [x04; x01; x00; x50] [])
  = (pending [x01; x00; x50] [], Err (Errorf "unsupported SOCKS version: 4")).
Proof.
  exact (ServeConn_rejects_version (socks5.ret tt) joServer (pending [x04; x01; x00; x50] [])
           x04 [x01; x00; x50] eq_refl ltac:(discriminate)).
Defined.

(** ** The UDP relay: who is written to *)

Section RelayEndpoints.

Variable NetAddr : Type.
Variable NetAddr_String : NetAddr -> string.
Variable readAddr : list byte -> result (socks5.address * list byte).
Variable address_String : socks5.address -> string.
Variable writeAddrWithStr : string -> result (list byte).
Variable maxUdpPacket : nat.

Local Abbreviation state := (socks5.state NetAddr).
Local Abbreviation step := (socks5.step NetAddr NetAddr_String readAddr address_String
                    writeAddrWithStr maxUdpPacket).
Local Abbreviation relay := (socks5.relay NetAddr NetAddr_String readAddr address_String
                     writeAddrWithStr maxUdpPacket).

Ltac relay_cases :=
  repeat (cbn [socks5.sourceAddr socks5.wantSource socks5.targetAddr socks5.wantTarget
               socks5.replyPrefix socks5.buf socks5.setBuf socks5.setSource
               socks5.setTarget socks5.setPrefix socks5.isSome andb];
          match goal with
          | |- context [if ?b then _ else _] => destruct b
          | |- context [match ?x with _ => _ end] => destruct x
          end).

Lemma step_endpoints (st : state) data from wres :
  let src := match socks5.sourceAddr NetAddr st with Some a => a | None => from end in
  (forall st', snd (step st data from wres) = socks5.Continue NetAddr st' ->
     socks5.sourceAddr NetAddr st' = Some src
     /\ (forall t, socks5.targetAddr NetAddr st = Some t ->
                   socks5.targetAddr NetAddr st' = Some t))
  /\ (forall w, In w (fst (step st data from wres)) ->
        match socks5.to NetAddr w with
        | socks5.ToTarget _ ip port =>
            (forall t, socks5.targetAddr NetAddr st = Some t -> t = (ip, port))
            /\ (forall st', snd (step st data from wres) = socks5.Continue NetAddr st' ->
                  socks5.targetAddr NetAddr st' = Some (ip, port))
        | socks5.ToSource _ a => a = src
        end).
Proof.
  destruct st as [sa wsrc ta wtgt rp bf].
  unfold socks5.step, socks5.after. cbv zeta.
  cbn [socks5.sourceAddr socks5.wantSource socks5.targetAddr socks5.wantTarget
       socks5.replyPrefix socks5.buf socks5.setBuf].
  destruct sa as [a0|]; destruct ta as [[ip0 port0]|];
    cbn [socks5.sourceAddr socks5.wantSource socks5.targetAddr socks5.wantTarget
         socks5.replyPrefix socks5.buf socks5.setBuf socks5.setSource socks5.setTarget
         socks5.setPrefix socks5.isSome andb];
    (destruct rp as [p|]; [|try destruct (writeAddrWithStr _) as [bs|e0]]);
    relay_cases;
    cbn [fst snd In socks5.after socks5.to socks5.sourceAddr socks5.targetAddr
         socks5.setBuf socks5.setSource socks5.setTarget socks5.setPrefix];
    (split;
     [ intros st' E;
       first [ discriminate E
             | injection E as <-; cbn [socks5.sourceAddr socks5.targetAddr]; split;
               [reflexivity | intros t Ht; first [exact Ht | discriminate Ht]] ]
     | intros w Hw;
       first [ contradiction
             | destruct Hw as [<-|[]]; cbn [socks5.to];
               first [ reflexivity
                     | split;
                       [ intros t Ht;
                         first [injection Ht as <-; reflexivity | discriminate Ht]
                       | intros st' E;
                         first [discriminate E | injection E as <-; reflexivity] ] ] ] ]).
Qed.

Lemma step_one_write (st : state) data from wres :
  (List.length (fst (step st data from wres)) <= 1)%nat.
Proof.
  destruct st as [sa wsrc ta wtgt rp bf].
  unfold socks5.step, socks5.after. cbv zeta.
  destruct sa as [a0|]; destruct ta as [[ip0 port0]|];
    cbn [socks5.sourceAddr socks5.wantSource socks5.targetAddr socks5.wantTarget
         socks5.replyPrefix socks5.buf socks5.setBuf socks5.setSource socks5.setTarget
         socks5.setPrefix socks5.isSome andb];
    (destruct rp as [p|]; [|try destruct (writeAddrWithStr _) as [bs|e0]]);
    relay_cases; cbn [fst List.length]; lia.
Qed.

(** Once the loop has an address for the target or for the client,
    every later write for that side goes there. *)
Lemma relay_pinned evs : forall (st : state) e,
  In e (fst (relay st evs)) ->
  (forall t t', socks5.targetAddr NetAddr st = Some t ->
                toTarget NetAddr (snd e) = Some t' -> t' = t)
  /\ (forall a a', socks5.sourceAddr NetAddr st = Some a ->
                  toSource NetAddr (snd e) = Some a' -> a' = a).
Proof.
  induction evs as [|ev rest IH]; intros st e He; [contradiction|].
  destruct ev as [data from wres|err]; [|contradiction].
  cbn [socks5.relay] in He.
  destruct (step_endpoints st data from wres) as [Hn Hw].
  destruct (step st data from wres) as [ws nx]. cbn [fst snd] in Hn, Hw.
  assert (Hhere : forall w, In w ws ->
            (forall t t', socks5.targetAddr NetAddr st = Some t ->
                          toTarget NetAddr w = Some t' -> t' = t)
            /\ (forall a a', socks5.sourceAddr NetAddr st = Some a ->
                            toSource NetAddr w = Some a' -> a' = a)).
  { intros w Hin. specialize (Hw w Hin). unfold toTarget, toSource.
    destruct (socks5.to NetAddr w) as [ip port|a1].
    - split; [|discriminate]. intros t t' Ht E. injection E as <-.
      symmetry. apply (proj1 Hw), Ht.
    - split; [discriminate|]. intros a a' Ha E. injection E as <-.
      rewrite Hw, Ha. reflexivity. }
  destruct nx as [st'|err].
  - destruct (relay st' rest) as [ws' r] eqn:Er. cbn [fst] in He.
    apply in_app_or in He as [He|He].
    + apply in_map_iff in He as [w [<- Hin]]. exact (Hhere w Hin).
    + destruct (Hn st' eq_refl) as [Hs Ht].
      assert (He' : In e (fst (relay st' rest))) by (rewrite Er; exact He).
      destruct (IH st' e He') as [I1 I2]. split.
      * intros t t' Hst. apply I1, Ht, Hst.
      * intros a a' Ha. apply I2. rewrite Hs, Ha. reflexivity.
  - cbn [fst] in He. apply in_map_iff in He as [w [<- Hin]]. exact (Hhere w Hin).
Qed.

Lemma relay_targets_agree evs : forall (st : state) e1 e2 t1 t2,
  In e1 (fst (relay st evs)) -> In e2 (fst (relay st evs)) ->
  toTarget NetAddr (snd e1) = Some t1 -> toTarget NetAddr (snd e2) = Some t2 ->
  t1 = t2.
Proof.
  induction evs as [|ev rest IH]; intros st e1 e2 t1 t2 H1 H2 E1 E2; [contradiction|].
  destruct ev as [data from wres|err]; [|contradiction].
  cbn [socks5.relay] in H1, H2.
  destruct (step_endpoints st data from wres) as [Hn Hw].
  pose proof (step_one_write st data from wres) as Hone.
  destruct (step st data from wres) as [ws nx]. cbn [fst snd] in Hn, Hw, Hone.
  assert (Hsame : forall w1 w2, In w1 ws -> In w2 ws -> w1 = w2).
  { destruct ws as [|w [|w' ws0]]; [contradiction| |cbn in Hone; lia].
    intros w1 w2 [<-|[]] [<-|[]]. reflexivity. }
  assert (Hlater : forall w st' e, In w ws -> nx = socks5.Continue NetAddr st' ->
            In e (fst (relay st' rest)) ->
            forall t t', toTarget NetAddr w = Some t ->
                         toTarget NetAddr (snd e) = Some t' -> t' = t).
  { intros w st' e Hin -> He t t' Et Et'.
    specialize (Hw w Hin). unfold toTarget in Et.
    destruct (socks5.to NetAddr w) as [ip port|]; [|discriminate]. injection Et as <-.
    destruct (relay_pinned rest st' e He) as [I1 _].
    apply (I1 (ip, port) t'); [apply (proj2 Hw); reflexivity | exact Et']. }
  destruct nx as [st'|err].
  - destruct (relay st' rest) as [ws' r] eqn:Er. cbn [fst] in H1, H2.
    assert (Hin : forall e, In e ws' -> In e (fst (relay st' rest)))
      by (intros e He; rewrite Er; exact He).
    apply in_app_or in H1 as [H1|H1]; apply in_app_or in H2 as [H2|H2].
    + apply in_map_iff in H1 as [w1 [<- Hi1]]. apply in_map_iff in H2 as [w2 [<- Hi2]].
      cbn [snd] in E1, E2. rewrite (Hsame w1 w2 Hi1 Hi2) in E1. congruence.
    + apply in_map_iff in H1 as [w1 [<- Hi1]]. cbn [snd] in E1.
      symmetry. exact (Hlater w1 st' e2 Hi1 eq_refl (Hin e2 H2) t1 t2 E1 E2).
    + apply in_map_iff in H2 as [w2 [<- Hi2]]. cbn [snd] in E2.
      exact (Hlater w2 st' e1 Hi2 eq_refl (Hin e1 H1) t2 t1 E2 E1).
    + exact (IH st' e1 e2 t1 t2 (Hin e1 H1) (Hin e2 H2) E1 E2).
  - cbn [fst] in H1, H2.
    apply in_map_iff in H1 as [w1 [<- Hi1]]. apply in_map_iff in H2 as [w2 [<- Hi2]].
    cbn [snd] in E1, E2. rewrite (Hsame w1 w2 Hi1 Hi2) in E1. congruence.
Qed.

(** X11.  In a run of the embedded relay all the datagrams written to a
    target go to one and the same address: the target, once fixed, never
    changes. *)
Theorem relay_one_target (evs : list (socks5.event NetAddr)) e1 e2 t1 t2 :
  In e1 (fst (socks5.embedHandleAssociate NetAddr NetAddr_String readAddr
                address_String writeAddrWithStr maxUdpPacket evs)) ->
  In e2 (fst (socks5.embedHandleAssociate NetAddr NetAddr_String readAddr
                address_String writeAddrWithStr maxUdpPacket evs)) ->
  toTarget NetAddr (snd e1) = Some t1 ->
  toTarget NetAddr (snd e2) = Some t2 ->
  t1 = t2.
Proof. apply relay_targets_agree. Qed.

(** X12.  The client of an association is whoever sends the first
    datagram: every datagram the relay writes back goes to the sender of
    the first datagram it received, whatever that datagram held and
    whoever sends later. *)
Theorem relay_answers_first_sender data from wres (rest : list (socks5.event NetAddr)) e a :
  In e (fst (socks5.embedHandleAssociate NetAddr NetAddr_String readAddr
               address_String writeAddrWithStr maxUdpPacket
               (socks5.Datagram NetAddr data from wres :: rest))) ->
  toSource NetAddr (snd e) = Some a ->
  a = from.
Proof.
  unfold socks5.embedHandleAssociate. cbn [socks5.relay]. intros He Ea.
  destruct (step_endpoints (socks5.initial NetAddr maxUdpPacket) data from wres) as [Hn Hw].
  destruct (step (socks5.initial NetAddr maxUdpPacket) data from wres) as [ws nx].
  cbn [fst snd socks5.initial socks5.sourceAddr] in Hn, Hw.
  assert (Hhere : forall w, In w ws -> toSource NetAddr w = Some a -> a = from).
  { intros w Hin E. specialize (Hw w Hin). unfold toSource in E.
    destruct (socks5.to NetAddr w); [discriminate|]. injection E as <-. exact Hw. }
  destruct nx as [st'|err].
  - destruct (relay st' rest) as [ws' r] eqn:Er. cbn [fst] in He.
    apply in_app_or in He as [He|He].
    + apply in_map_iff in He as [w [<- Hin]]. exact (Hhere w Hin Ea).
    + assert (He' : In e (fst (relay st' rest))) by (rewrite Er; exact He).
      destruct (relay_pinned rest st' e He') as [_ I2].
      apply (I2 from a); [apply (Hn st' eq_refl) | exact Ea].
  - cbn [fst] in He. apply in_map_iff in He as [w [<- Hin]]. exact (Hhere w Hin Ea).
Qed.

Lemma relay_then_error evs : forall (st : state) log e rest,
  relay st evs = (log, None) ->
  relay st (evs ++ socks5.ReadError NetAddr e :: rest)%list = (log, Some e).
Proof.
  induction evs as [|ev evs IH]; intros st log e rest H.
  - cbn [socks5.relay] in H. injection H as <-. reflexivity.
  - destruct ev as [data from wres|err]; [|discriminate H].
    cbn [app socks5.relay] in *.
    destruct (step st data from wres) as [ws [st'|err]]; [|discriminate H].
    destruct (relay st' evs) as [ws' r] eqn:Er.
    injection H as <- ->. rewrite (IH st' ws' e rest Er). reflexivity.
Qed.

(** X26.  The relay ends when reading from the UDP endpoint fails: if it
    is still running after some datagrams, a read error that comes next
    is what it returns, with the writes made so far and without looking
    at anything that follows. *)
Theorem relay_returns_read_error (evs : list (socks5.event NetAddr)) log e rest :
  socks5.embedHandleAssociate NetAddr NetAddr_String readAddr address_String
    writeAddrWithStr maxUdpPacket evs = (log, None) ->
  socks5.embedHandleAssociate NetAddr NetAddr_String readAddr address_String
    writeAddrWithStr maxUdpPacket (evs ++ socks5.ReadError NetAddr e :: rest)%list
  = (log, Some e).
Proof. apply relay_then_error. Qed.

(** X13.  What the loop drops without a word to anyone: a datagram
    from a sender that is neither the client nor the target, and a
    datagram of the client shorter than three bytes.  In both cases
    nothing is written, the loop goes on, and its addresses and prefix
    are as before. *)
Theorem step_drops (st : state) data from wres a :
  socks5.sourceAddr NetAddr st = Some a ->
  (socks5.wantSource NetAddr st <> NetAddr_String from ->
   (socks5.targetAddr NetAddr st = None
    \/ socks5.wantTarget NetAddr st <> NetAddr_String from) ->
   fst (step st data from wres) = []
   /\ socks5.locals NetAddr (snd (step st data from wres))
      = socks5.Continue NetAddr (socks5.setBuf NetAddr st []))
  /\ (socks5.wantSource NetAddr st = NetAddr_String from ->
      (List.length data < 3)%nat ->
      fst (step st data from wres) = []
      /\ socks5.locals NetAddr (snd (step st data from wres))
         = socks5.Continue NetAddr (socks5.setBuf NetAddr st [])).
Proof.
  intros Ha. destruct st as [sa wsrc ta wtgt rp bf].
  cbn [socks5.sourceAddr socks5.wantSource socks5.targetAddr socks5.wantTarget] in *.
  subst sa. unfold socks5.step. cbv zeta.
  cbn [socks5.sourceAddr socks5.wantSource socks5.targetAddr socks5.wantTarget
       socks5.replyPrefix socks5.buf socks5.setBuf].
  split.
  - intros Hs Ht. apply String.eqb_neq in Hs. rewrite Hs.
    assert (E : socks5.isSome ta && String.eqb wtgt (NetAddr_String from) = false).
    { destruct Ht as [->|Ht]; [reflexivity|]. apply String.eqb_neq in Ht. rewrite Ht.
      apply andb_false_r. }
    rewrite E. split; reflexivity.
  - intros Hs Hl. rewrite Hs, String.eqb_refl.
    assert (E : Nat.ltb (List.length (firstn maxUdpPacket data)) 3 = true).
    { apply Nat.ltb_lt. rewrite length_firstn. lia. }
    rewrite E. split; reflexivity.
Qed.

(** X14.  The first datagram of the client that [readAddr] can read
    fixes the target even when it is not forwarded: if its address does
    not print the way the UDP address made of its IP and port does (as
    for a domain name, whose IP is nil), nothing is written, and the
    target is from then on the address made of that IP and port. *)
Theorem step_fixes_target_without_forwarding (st : state) data from wres addr unread :
  socks5.fromClient NetAddr NetAddr_String st from = true ->
  socks5.targetAddr NetAddr st = None ->
  (3 <= List.length data <= maxUdpPacket)%nat ->
  List.length (socks5.buf NetAddr st) = maxUdpPacket ->
  readAddr (skipn 3 data) = Ok (addr, unread) ->
  address_String addr <> socks5.UDPAddr_String (socks5.IP addr) (socks5.Port addr) ->
  exists st',
    step st data from wres = ([], socks5.Continue NetAddr st')
    /\ socks5.targetAddr NetAddr st' = Some (socks5.IP addr, socks5.Port addr)
    /\ socks5.wantTarget NetAddr st'
       = socks5.UDPAddr_String (socks5.IP addr) (socks5.Port addr).
Proof.
  intros Hc Ht Hl Hb Hr Hne. destruct st as [sa wsrc ta wtgt rp bf].
  cbn [socks5.targetAddr socks5.buf] in Ht, Hb. subst ta.
  unfold socks5.fromClient in Hc. cbn [socks5.sourceAddr socks5.wantSource] in Hc.
  assert (Hd : firstn maxUdpPacket data = data) by (apply firstn_all2; lia).
  assert (Hf : firstn (List.length data) (socks5.copyAt bf 0 data) = data)
    by apply firstn_copyAt0.
  assert (Hn : Nat.ltb (List.length data) 3 = false) by (apply Nat.ltb_ge; lia).
  apply String.eqb_neq in Hne.
  unfold socks5.step. cbv zeta. rewrite Hd.
  cbn [socks5.sourceAddr socks5.wantSource socks5.targetAddr socks5.wantTarget
       socks5.replyPrefix socks5.buf socks5.setBuf].
  destruct sa as [a0|];
    cbn [socks5.sourceAddr socks5.wantSource socks5.targetAddr socks5.wantTarget
         socks5.replyPrefix socks5.buf socks5.setBuf socks5.setSource];
    rewrite ?Hc, ?String.eqb_refl, Hn, Hf, Hr;
    cbn [socks5.sourceAddr socks5.wantSource socks5.targetAddr socks5.wantTarget
         socks5.replyPrefix socks5.buf socks5.setBuf socks5.setSource socks5.setTarget];
    rewrite Hne; cbn [negb];
    eexists; (split; [reflexivity|]); split; reflexivity.
Qed.

End RelayEndpoints.

Lemma relay_one_target_witness :
  exists e1 e2 t1 t2,
    In e1 sampleLog /\ In e2 sampleLog
    /\ toTarget string (snd e1) = Some t1 /\ toTarget string (snd e2) = Some t2
    /\ socks5.payload string (snd e1) = [xde; xad]
    /\ socks5.payload string (snd e2) = [xca; xfe]
    /\ t1 = t2.
Proof.
  pose (e1 := (wire.query,
               socks5.WriteTo string [xde; xad]
                 (socks5.ToTarget string [x08; x08; x08; x08] 53))).
  pose (e2 := ([x00; x00; x00; x01; x08; x08; x08; x08; x00; x35; xca; xfe],
               socks5.WriteTo string [xca; xfe]
                 (socks5.ToTarget string [x08; x08; x08; x08] 53))).
  assert (H1 : In e1 sampleLog) by (vm_compute; left; reflexivity).
  assert (H2 : In e2 sampleLog) by (vm_compute; right; right; left; reflexivity).
  exists e1, e2, ([x08; x08; x08; x08], 53), ([x08; x08; x08; x08], 53).
  split; [exact H1|]. split; [exact H2|]. repeat (split; [reflexivity|]).
  exact (relay_one_target string (fun a => a) wire.readAddr wire.address_String
           wire.writeAddrWithStr 2048 sampleRun e1 e2 _ _ H1 H2 eq_refl eq_refl).
Defined.

Lemma relay_answers_first_sender_witness :
  exists e,
    In e sampleLog
    /\ toSource string (snd e) = Some wire.client
    /\ fst e = [xbe; xef]
    /\ wire.client = wire.client.
Proof.
  pose (e := ([xbe; xef],
              socks5.WriteTo string
                [x00; x00; x00; x01; x08; x08; x08; x08; x00; x35; xbe; xef]
                (socks5.ToSource string wire.client))).
  assert (H : In e sampleLog) by (vm_compute; right; left; reflexivity).
  exists e. split; [exact H|]. split; [reflexivity|]. split; [reflexivity|].
  exact (relay_answers_first_sender string (fun a => a) wire.readAddr wire.address_String
           wire.writeAddrWithStr 2048 wire.query wire.client None (tl sampleRun)
           e wire.client H eq_refl).
Defined.

Lemma step_drops_witness :
  socks5.sourceAddr string busy = Some wire.client
  /\ fst (wire.step 2048 busy wire.query "10.0.0.9:4000" None) = []
  /\ socks5.locals string (snd (wire.step 2048 busy wire.query "10.0.0.9:4000" None))
     = socks5.Continue string (socks5.setBuf string busy [])
  /\ fst (wire.step 2048 busy [x00; x00] wire.client None) = []
  /\ socks5.locals string (snd (wire.step 2048 busy [x00; x00] wire.client None))
     = socks5.Continue string (socks5.setBuf string busy []).
Proof.
  assert (Ha : socks5.sourceAddr string busy = Some wire.client) by reflexivity.
  split; [exact Ha|].
  assert (H1 : socks5.wantSource string busy <> "10.0.0.9:4000")
    by (intros H; vm_compute in H; discriminate H).
  assert (H2 : socks5.wantTarget string busy <> "10.0.0.9:4000")
    by (intros H; vm_compute in H; discriminate H).
  pose proof (proj1 (step_drops string (fun a => a) wire.readAddr wire.address_String
                       wire.writeAddrWithStr 2048 busy wire.query "10.0.0.9:4000" None
                       wire.client Ha) H1 (or_intror H2)) as [D1 D2].
  pose proof (proj2 (step_drops string (fun a => a) wire.readAddr wire.address_String
                       wire.writeAddrWithStr 2048 busy [x00; x00] wire.client None
                       wire.client Ha) eq_refl ltac:(cbn; lia)) as [D3 D4].
  split; [exact D1|]. split; [exact D2|]. split; [exact D3 | exact D4].
Defined.

Lemma step_fixes_target_without_forwarding_witness :
  wire.readAddr (skipn 3 nameQuery) = Ok (socks5.mkAddr "ex.com" [] 53, [xde; xad])
  /\ wire.address_String (socks5.mkAddr "ex.com" [] 53) = "ex.com:53"
  /\ exists st',
       wire.step 2048 (socks5.initial string 2048) nameQuery wire.client None
       = ([], socks5.Continue string st')
       /\ socks5.targetAddr string st' = Some ([], 53)
       /\ socks5.wantTarget string st' = ":53".
Proof.
  split; [reflexivity|]. split; [reflexivity|].
  refine (step_fixes_target_without_forwarding string (fun a => a) wire.readAddr
            wire.address_String wire.writeAddrWithStr 2048
            (socks5.initial string 2048) nameQuery wire.client None
            (socks5.mkAddr "ex.com" [] 53) [xde; xad] eq_refl eq_refl _ _ eq_refl _).
  - cbn. lia.
  - apply repeat_length.
  - intros H. vm_compute in H. discriminate H.
Defined.

(** ** The byte pump: what is counted *)

Lemma copyIteration_count it w :
  0 <= w ->
  match vtun.copyIteration it w with
  | inl w' => w <= w' <= w + vtun.moved it
  | inr (w', _) => w <= w' <= w + vtun.moved it
  end.
Proof.
  intros Hw. unfold vtun.copyIteration, vtun.moved.
  destruct (vtun.deadlineErr it); [lia|].
  destruct (Z.ltb_spec 0 (vtun.nr it)) as [Hpos|Hnon].
  - destruct (Z.ltb_spec (vtun.nw it) 0) as [Hneg|Hnn]; cbn [orb].
    + destruct (vtun.ew it); lia.
    + destruct (Z.ltb_spec (vtun.nr it) (vtun.nw it)) as [Hover|Hle].
      * destruct (vtun.ew it); lia.
      * destruct (vtun.ew it); [lia|].
        destruct (negb (vtun.nr it =? vtun.nw it)); [lia|].
        destruct (vtun.er it) as [e|]; [destruct (error_eqb e EOF)|]; lia.
  - destruct (vtun.er it) as [e|]; [destruct (error_eqb e EOF)|]; lia.
Qed.

Lemma total_nonneg its : 0 <= vtun.total its.
Proof.
  induction its as [|it its IH]; [reflexivity|]. cbn [vtun.total fold_right].
  fold (vtun.total its). unfold vtun.moved. lia.
Qed.

Lemma copyLoop_count script : forall w w' e,
  0 <= w -> vtun.copyLoop script w = vtun.Returned w' e ->
  w <= w' <= w + vtun.total script.
Proof.
  induction script as [|it rest IH]; intros w w' e Hw H; cbn [vtun.copyLoop] in H;
    [discriminate|].
  pose proof (copyIteration_count it w Hw) as Hc.
  pose proof (total_nonneg rest) as Ht.
  cbn [vtun.total fold_right]. fold (vtun.total rest).
  destruct (vtun.copyIteration it w) as [w1|[w1 e1]].
  - assert (H1 : 0 <= w1) by lia. pose proof (IH w1 w' e H1 H). lia.
  - injection H as <- <-. lia.
Qed.

(** X15.  The count [copyConnTimeout] returns is never negative and
    never more than the bytes the reads delivered, whatever the writes
    report: a write that claims more bytes than it was given, or fewer
    than none, adds nothing. *)
Theorem copyConnTimeout_count buflen timeout script written err :
  vtun.copyConnTimeout buflen timeout script = vtun.Returned written err ->
  0 <= written <= vtun.total script.
Proof.
  unfold vtun.copyConnTimeout. intros H.
  assert (Hl : vtun.copyLoop script 0 = vtun.Returned written err).
  { destruct buflen as [[| |]|]; first [exact H | discriminate H]. }
  pose proof (copyLoop_count script 0 written err (Z.le_refl 0) Hl). lia.
Qed.

Lemma copyConnTimeout_count_witness :
  vtun.copyConnTimeout (Some vtun.BuffSize) 0
    [vtun.mkIter None 5 None 5 None; vtun.mkIter None 4 None 9 None]
  = vtun.Returned 5 (Some vtun.errInvalidWrite)
  /\ 0 <= 5 <= vtun.total [vtun.mkIter None 5 None 5 None; vtun.mkIter None 4 None 9 None].
Proof.
  split; [reflexivity|].
  exact (copyConnTimeout_count (Some vtun.BuffSize) 0
           [vtun.mkIter None 5 None 5 None; vtun.mkIter None 4 None 9 None]
           5 (Some vtun.errInvalidWrite) eq_refl).
Defined.

(** X16.  How a failing write ends the copy, after iterations that
    moved their data in full: a write that reports an error returns that
    error, and a write of fewer bytes than were read with no error returns
    [io.ErrShortWrite]; in both cases the bytes that write did move are
    counted.  A write whose count is negative or larger than what it was
    given returns its error, or [invalid write result] when it reports
    none, and counts nothing. *)
Theorem copyConnTimeout_write_failure buflen timeout pre it post :
  buflen <> Some 0 ->
  Forall vtun.continues pre ->
  vtun.deadlineErr it = None ->
  0 < vtun.nr it ->
  (forall e, vtun.ew it = Some e -> 0 <= vtun.nw it <= vtun.nr it ->
     vtun.copyConnTimeout buflen timeout (pre ++ it :: post)%list
     = vtun.Returned (vtun.total pre + vtun.nw it) (Some e))
  /\ (vtun.ew it = None -> 0 <= vtun.nw it < vtun.nr it ->
      vtun.copyConnTimeout buflen timeout (pre ++ it :: post)%list
      = vtun.Returned (vtun.total pre + vtun.nw it) (Some ErrShortWrite))
  /\ (vtun.nw it < 0 \/ vtun.nr it < vtun.nw it ->
      vtun.copyConnTimeout buflen timeout (pre ++ it :: post)%list
      = vtun.Returned (vtun.total pre)
          (Some (match vtun.ew it with Some e => e | None => vtun.errInvalidWrite end))).
Proof.
  intros Hb Hpre Hd Hnr.
  assert (Hc : vtun.copyConnTimeout buflen timeout (pre ++ it :: post)%list
               = match vtun.copyIteration it (vtun.total pre) with
                 | inl w => vtun.copyLoop post w
                 | inr (w, e) => vtun.Returned w e
                 end).
  { unfold vtun.copyConnTimeout.
    assert (E : vtun.copyLoop (pre ++ it :: post)%list 0
                = match vtun.copyIteration it (vtun.total pre) with
                  | inl w => vtun.copyLoop post w
                  | inr (w, e) => vtun.Returned w e
                  end)
      by (rewrite (copyLoop_continues pre (it :: post) 0 Hpre); reflexivity).
    destruct buflen as [[| |]|]; first [exact E | congruence]. }
  rewrite Hc. unfold vtun.copyIteration. rewrite Hd.
  destruct (Z.ltb_spec 0 (vtun.nr it)) as [_|]; [|lia].
  split; [|split].
  - intros e He Hn. rewrite He.
    destruct (Z.ltb_spec (vtun.nw it) 0); [lia|].
    destruct (Z.ltb_spec (vtun.nr it) (vtun.nw it)); [lia|]. reflexivity.
  - intros He Hn. rewrite He.
    destruct (Z.ltb_spec (vtun.nw it) 0); [lia|].
    destruct (Z.ltb_spec (vtun.nr it) (vtun.nw it)); [lia|]. cbn [orb].
    destruct (Z.eqb_spec (vtun.nr it) (vtun.nw it)); [lia|]. reflexivity.
  - intros Hn.
    assert (E : (vtun.nw it <? 0) || (vtun.nr it <? vtun.nw it) = true).
    { apply orb_true_iff. destruct Hn; [left; apply Z.ltb_lt | right; apply Z.ltb_lt]; lia. }
    rewrite E, Z.add_0_r. destruct (vtun.ew it); reflexivity.
Qed.

Lemma copyConnTimeout_write_failure_witness :
  vtun.copyConnTimeout (Some vtun.BuffSize) 15
    [vtun.mkIter None 5 None 5 None; vtun.mkIter None 8 None 3 None]
  = vtun.Returned 8 (Some ErrShortWrite).
Proof.
  refine (proj1 (proj2 (copyConnTimeout_write_failure (Some vtun.BuffSize) 15
                          [vtun.mkIter None 5 None 5 None]
                          (vtun.mkIter None 8 None 3 None) [] _ _ eq_refl _))
            eq_refl _).
  - discriminate.
  - constructor; [|constructor]. repeat split. right. split; reflexivity.
  - reflexivity.
  - cbn. lia.
Defined.

(** ** The forwarding handler: what it reports *)



(** ** Keys and sections of a configuration *)

Section KeyFacts.

Context {IP : netip.Ops}.

(** X18.  [EncodeBase64ToHex] turns the standard base64 text of 32
    bytes into the 64 lower-case hex digits of these bytes; whatever it
    returns is the hex text of some 32 bytes, 64 characters long; and the
    base64 text of any other number of bytes is refused with
    [key should be 32 bytes]. *)
Theorem EncodeBase64ToHex_spec :
  (forall bs, List.length bs = 32%nat ->
     config.EncodeBase64ToHex (base64.EncodeToString bs) = Ok (hex.EncodeToString bs))
  /\ (forall key h, config.EncodeBase64ToHex key = Ok h ->
        String.length h = 64%nat
        /\ exists bs, List.length bs = 32%nat /\ h = hex.EncodeToString bs
                      /\ base64.DecodeString key = Ok bs)
  /\ (forall bs, List.length bs <> 32%nat ->
        config.EncodeBase64ToHex (base64.EncodeToString bs)
        = Err (Errorf ("key should be 32 bytes: " ++ base64.EncodeToString bs))).
Proof.
  split; [|split].
  - intros bs Hl. unfold config.EncodeBase64ToHex. rewrite base64_roundtrip, Hl. reflexivity.
  - intros key h. unfold config.EncodeBase64ToHex.
    destruct (base64.DecodeString key) as [decoded|]; [|discriminate].
    destruct (Nat.eqb_spec (List.length decoded) 32) as [Hl|]; [|discriminate].
    cbn [negb]. intros H. injection H as <-. split.
    + rewrite hex_length, Hl. reflexivity.
    + exists decoded. repeat split. exact Hl.
  - intros bs Hl. unfold config.EncodeBase64ToHex. rewrite base64_roundtrip.
    destruct (Nat.eqb_spec (List.length bs) 32) as [|_]; [contradiction | reflexivity].
Qed.

(** X19.  [ParseInterface] refuses a file that has no [[Interface]]
    section or more than one, and [ParsePeers] a file without a
    [[Peer]] section, each with its own error. *)
Theorem sections_required (cfg : ini.File) :
  (List.length (filter (fun s => String.eqb (ini.sname s) "interface") cfg) <> 1%nat ->
   config.ParseInterface cfg = Err (Errorf "only one [Interface] is expected"))
  /\ (filter (fun s => String.eqb (ini.sname s) "peer") cfg = [] ->
      config.ParsePeers cfg = Err (Errorf "at least one [Peer] is expected")).
Proof.
  split.
  - intros H. unfold config.ParseInterface, ini.SectionsByName.
    change (strings.ToLower "Interface") with "interface".
    destruct (filter (fun s => String.eqb (ini.sname s) "interface") cfg) as [|s [|s' l]];
      [reflexivity | cbn in H; congruence | reflexivity].
  - intros H. unfold config.ParsePeers, ini.SectionsByName.
    change (strings.ToLower "Peer") with "peer". rewrite H. reflexivity.
Qed.

(** X20.  An interface is accepted only with a [PrivateKey] line: when
    [ParseInterface] succeeds, the one [[Interface]] section has that
    key, and the private key of the result is the hex of the 32 bytes its
    value decodes to.  (A missing key is read as the empty text, which
    decodes to no bytes.) *)
Theorem ParseInterface_requires_PrivateKey (cfg : ini.File) i :
  config.ParseInterface cfg = Ok i ->
  exists iface key,
    ini.SectionsByName cfg "Interface" = Ok [iface]
    /\ ini.GetKey iface "PrivateKey" = Ok key
    /\ config.EncodeBase64ToHex (ini.Key_String key) = Ok (config.PrivateKey i).
Proof.
  unfold config.ParseInterface.
  destruct (ini.SectionsByName cfg "Interface") as [[|iface [|]]|]; try discriminate.
  cbv zeta.
  destruct (ini.mapM config.parseAddress _) as [addresses|]; cbn [bind]; [|discriminate].
  destruct (config.EncodeBase64ToHex _) as [pk|] eqn:Ek; cbn [bind]; [|discriminate].
  destruct (match ini.GetKey iface "DNS" with Ok _ => _ | Err _ => _ end)
    as [dns|]; cbn [bind]; [|discriminate].
  destruct (match ini.GetKey iface "MTU" with Ok _ => _ | Err _ => _ end)
    as [mtu|]; cbn [bind]; [|discriminate].
  destruct (match ini.GetKey iface "FwMark" with Ok _ => _ | Err _ => _ end)
    as [fwmark|]; cbn [bind]; [|discriminate].
  intros H. injection H as <-. cbn [config.PrivateKey].
  unfold ini.GetOrNew in Ek.
  destruct (ini.GetKey iface "PrivateKey") as [key|] eqn:Eg.
  - exists iface, key. split; [reflexivity | split; [exact Eg | exact Ek]].
  - discriminate Ek.
Qed.

End KeyFacts.

Lemma sections_required_witness :
  List.length (filter (fun s => String.eqb (ini.sname s) "interface") doubledFile) = 2%nat
  /\ @config.ParseInterface ipv4.ops doubledFile
     = Err (Errorf "only one [Interface] is expected")
  /\ filter (fun s => String.eqb (ini.sname s) "peer") [ini.NewSection ini.DefaultSection] = []
  /\ @config.ParsePeers ipv4.ops [ini.NewSection ini.DefaultSection]
     = Err (Errorf "at least one [Peer] is expected").
Proof.
  split; [reflexivity|]. split.
  - apply (proj1 (sections_required (IP := ipv4.ops) doubledFile)).
    intros H. vm_compute in H. discriminate H.
  - split; [reflexivity|].
    exact (proj2 (sections_required (IP := ipv4.ops) [ini.NewSection ini.DefaultSection])
             eq_refl).
Defined.

Lemma ParseInterface_requires_PrivateKey_witness :
  exists iface key,
    ini.SectionsByName sampleFile "Interface" = Ok [iface]
    /\ ini.GetKey iface "PrivateKey" = Ok key
    /\ config.EncodeBase64ToHex (ini.Key_String key)
       = Ok (config.PrivateKey (sampleInterface 0)).
Proof.
  exact (ParseInterface_requires_PrivateKey (IP := ipv4.ops) sampleFile (sampleInterface 0)
           eq_refl).
Defined.

Section Accepted.

Context {IP : netip.Ops}.

Hypothesis laws : netip.Laws IP.

Lemma ParseInterface_FwMark cfg i :
  config.ParseInterface cfg = Ok i -> 0 <= config.FwMark i < 4294967296.
Proof.
  unfold config.ParseInterface.
  destruct (ini.SectionsByName cfg "Interface") as [[|iface [|]]|]; try discriminate.
  cbv zeta.
  destruct (ini.mapM config.parseAddress _) as [addresses|]; cbn [bind]; [|discriminate].
  destruct (config.EncodeBase64ToHex _) as [pk|]; cbn [bind]; [|discriminate].
  destruct (match ini.GetKey iface "DNS" with Ok _ => _ | Err _ => _ end)
    as [dns|]; cbn [bind]; [|discriminate].
  destruct (match ini.GetKey iface "MTU" with Ok _ => _ | Err _ => _ end)
    as [mtu|]; cbn [bind]; [|discriminate].
  destruct (match ini.GetKey iface "FwMark" with Ok _ => _ | Err _ => _ end)
    as [fwmark|] eqn:Ef; cbn [bind]; [|discriminate].
  intros H. injection H as <-. cbn [config.FwMark].
  destruct (ini.GetKey iface "FwMark") as [sectionKey|].
  - destruct (ini.Key_Int sectionKey); cbn [bind] in Ef; [|discriminate].
    injection Ef as <-. unfold config.uint32. apply Z.mod_pos_bound. lia.
  - injection Ef as <-. lia.
Qed.

(** X21.  What [ParseConfig] accepts is well formed: the private key
    and every preshared key are the hex of 32 bytes, every public key is
    that or empty, there is at least one peer, the MTU and the keepalives
    fit 64 bits, the mark fits 32 bits, and every address and prefix is
    valid. *)
Theorem ParseConfig_wellformed content c :
  config.ParseConfig content = Ok c ->
  wf c /\ 0 <= config.FwMark (config.Interface c) < 4294967296.
Proof.
  intros H. split; [exact (ParseConfig_wf laws content c H)|].
  unfold config.ParseConfig in H.
  destruct (ini.LoadSources content) as [cfg|]; cbn [bind] in H; [|discriminate].
  destruct (config.ParseInterface cfg) as [iface|] eqn:Ei; cbn [bind] in H; [|discriminate].
  destruct (config.ParsePeers cfg) as [peers|]; cbn [bind] in H; [|discriminate].
  injection H as <-. exact (ParseInterface_FwMark cfg iface Ei).
Qed.


End Accepted.


Lemma ParseConfig_wellformed_witness :
  config.ParseConfig markedText = Ok markedConfig
  /\ wf markedConfig
  /\ 0 <= config.FwMark (config.Interface markedConfig) < 4294967296.
Proof.
  split; [reflexivity|].
  exact (ParseConfig_wellformed ipv4_laws markedText markedConfig eq_refl).
Defined.

(** ** The device set-up and [Run] *)

Section DeviceFacts.

Context {IP : netip.Ops}.

Lemma wireguard_writePeers_short peers :
  Exists (fun p => (String.length (config.PublicKey p) < 8)%nat) peers ->
  forall request, wireguard.writePeers request peers = Err panicSlice.
Proof.
  intros H. induction H as [p ps Hp|p ps _ IH]; intros request;
    cbn [wireguard.writePeers]; unfold wireguard.first8.
  - apply Nat.leb_gt in Hp. rewrite Hp. reflexivity.
  - destruct (Nat.leb 8 (String.length (config.PublicKey p))); [|reflexivity].
    cbn [bind]. apply IH.
Qed.

(** X22.  Building the IPC document panics on a short key: when the
    private key, or the public key of any peer, has fewer than eight
    characters (an empty key included), [establishWireguard] fails on
    slicing it for the debug line and hands nothing to the device. *)
Theorem ipcRequest_panics_on_short_key (conf : config.Configuration) fwmark :
  (String.length (config.PrivateKey (config.Interface conf)) < 8)%nat
  \/ Exists (fun p => (String.length (config.PublicKey p) < 8)%nat) (config.Peers conf) ->
  wireguard.ipcRequest conf fwmark = Err panicSlice.
Proof.
  intros H. unfold wireguard.ipcRequest, wireguard.first8.
  destruct (Nat.leb_spec 8 (String.length (config.PrivateKey (config.Interface conf))))
    as [Hk|Hk]; [|reflexivity].
  cbn [bind]. cbv zeta. destruct H as [H|H]; [lia|].
  apply wireguard_writePeers_short, H.
Qed.

Variable ParseResolveAddressPort : string -> bool -> string -> result string.

(** X23.  What [Run] keeps of a configuration and what it replaces: the
    MTU becomes 1330 and the name servers the one server [1.1.1.1],
    whatever was configured; the private key, the addresses and the
    mark stay; and every peer keeps its keys and allowed prefixes, while
    its endpoint becomes the resolved one, or stays when resolving
    fails. *)
Theorem prepare_frame (conf conf' : config.Configuration) :
  app.prepare ParseResolveAddressPort conf = Ok conf' ->
  config.MTU (config.Interface conf') = 1330
  /\ (exists dns, netip.ParseAddr "1.1.1.1" = Ok dns
                  /\ config.DNS (config.Interface conf') = [dns])
  /\ config.PrivateKey (config.Interface conf') = config.PrivateKey (config.Interface conf)
  /\ config.Addresses (config.Interface conf') = config.Addresses (config.Interface conf)
  /\ config.FwMark (config.Interface conf') = config.FwMark (config.Interface conf)
  /\ Forall2 (fun p p' =>
                config.PublicKey p' = config.PublicKey p
                /\ config.PreSharedKey p' = config.PreSharedKey p
                /\ config.AllowedIPs p' = config.AllowedIPs p
                /\ config.Endpoint p'
                   = match ParseResolveAddressPort (config.Endpoint p) true "1.1.1.1" with
                     | Ok addr => addr
                     | Err _ => config.Endpoint p
                     end)
       (config.Peers conf) (config.Peers conf').
Proof.
  unfold app.prepare. change app.resolver with "1.1.1.1".
  destruct (netip.ParseAddr "1.1.1.1") as [dns|]; [|discriminate].
  intros H. injection H as <-.
  cbn [config.Interface config.Peers config.MTU config.DNS config.PrivateKey
       config.Addresses config.FwMark].
  split; [reflexivity|]. split; [exists dns; split; reflexivity|].
  repeat (split; [reflexivity|]).
  induction (config.Peers conf) as [|p ps IH]; cbn [map]; constructor; [|exact IH].
  repeat split.
Qed.

End DeviceFacts.

Lemma ipcRequest_panics_on_short_key_witness :
  Exists (fun p => (String.length (config.PublicKey p) < 8)%nat) (config.Peers keylessConfig)
  /\ wireguard.ipcRequest keylessConfig 0 = Err panicSlice.
Proof.
  assert (H : Exists (fun p => (String.length (config.PublicKey p) < 8)%nat)
                (config.Peers keylessConfig))
    by (left; cbn; lia).
  split; [exact H|].
  exact (ipcRequest_panics_on_short_key keylessConfig 0 (or_intror H)).
Defined.

Lemma prepare_frame_witness :
  exists conf',
    app.prepare noResolver sampleConfig = Ok conf'
    /\ config.MTU (config.Interface sampleConfig) = 1280
    /\ config.MTU (config.Interface conf') = 1330
    /\ map config.Endpoint (config.Peers conf') = ["162.159.192.1:2408"].
Proof.
  exists {| config.Interface :=
              @config.mkInterface ipv4.ops
                (config.PrivateKey (config.Interface sampleConfig))
                (config.Addresses (config.Interface sampleConfig))
                [ipv4.mkAddr4 x01 x01 x01 x01] 1330 0;
            config.Peers := map (app.preparePeer noResolver) (config.Peers sampleConfig) |}.
  split; [reflexivity|]. split; [reflexivity|].
  split; [exact (proj1 (prepare_frame noResolver sampleConfig _ eq_refl)) | reflexivity].
Defined.

(** ** Starting the proxy servers *)

Section ProxyStart.

Variable AddrPort : Type.
Variable AddrPort_String : AddrPort -> string.
Variable Listener : Type.
Variable Listen : string -> result Listener.

Local Abbreviation Start := (proxy.Start AddrPort AddrPort_String Listener Listen).

(** X24.  When [Start] returns an error no proxy was started and no
    listener is left open: the SOCKS listener that was opened before the
    HTTP one failed has been closed.  With no address configured the
    error is [no proxy listeners configured]. *)
Theorem Start_error_leaves_nothing_open (opts : proxy.ProxyOptions AddrPort) s err :
  Start opts = (s, Some err) ->
  proxy.socksProxy Listener s = false
  /\ proxy.httpProxy Listener s = false
  /\ (forall ln, In ln (proxy.open Listener s) -> In ln (proxy.closed Listener s))
  /\ (proxy.SocksBindAddress AddrPort opts = None ->
      proxy.HttpBindAddress AddrPort opts = None ->
      err = Errorf "no proxy listeners configured").
Proof.
  unfold proxy.Start. cbv zeta.
  destruct (proxy.SocksBindAddress AddrPort opts) as [sa|];
    destruct (proxy.HttpBindAddress AddrPort opts) as [ha|];
    repeat match goal with
           | |- context [Listen ?a] => destruct (Listen a)
           end;
    cbn [bind proxy.isSome negb andb]; intros H; try discriminate H;
    injection H as <- <-;
    cbn [proxy.socksProxy proxy.httpProxy proxy.open proxy.closed proxy.socksLn proxy.httpLn
         app];
    (split; [reflexivity|]); (split; [reflexivity|]);
    (split; [intros ln Hin; exact Hin | intros; first [reflexivity | discriminate]]).
Qed.

(** X25.  When [Start] succeeds, a listener is open for exactly the
    addresses that were configured, at least one of them, each with its
    proxy started, and nothing was closed. *)
Theorem Start_success (opts : proxy.ProxyOptions AddrPort) s :
  Start opts = (s, None) ->
  proxy.open Listener s <> []
  /\ proxy.closed Listener s = []
  /\ proxy.socksProxy Listener s = proxy.isSome (proxy.socksLn Listener s)
  /\ proxy.httpProxy Listener s = proxy.isSome (proxy.httpLn Listener s)
  /\ proxy.isSome (proxy.socksLn Listener s) = proxy.isSome (proxy.SocksBindAddress AddrPort opts)
  /\ proxy.isSome (proxy.httpLn Listener s) = proxy.isSome (proxy.HttpBindAddress AddrPort opts)
  /\ (forall a ln, proxy.SocksBindAddress AddrPort opts = Some a ->
                   proxy.socksLn Listener s = Some ln -> Listen (AddrPort_String a) = Ok ln)
  /\ (forall a ln, proxy.HttpBindAddress AddrPort opts = Some a ->
                   proxy.httpLn Listener s = Some ln -> Listen (AddrPort_String a) = Ok ln).
Proof.
  unfold proxy.Start. cbv zeta.
  destruct (proxy.SocksBindAddress AddrPort opts) as [sa|];
    destruct (proxy.HttpBindAddress AddrPort opts) as [ha|];
    repeat match goal with
           | |- context [Listen ?a] => destruct (Listen a) eqn:?
           end;
    cbn [bind proxy.isSome negb andb]; intros H; try discriminate H;
    injection H as <-;
    cbn [proxy.socksProxy proxy.httpProxy proxy.open proxy.closed proxy.socksLn proxy.httpLn
         proxy.isSome app];
    (split; [discriminate|]); repeat (split; [reflexivity|]);
    split; intros addr0 ln0 Ha Hl; congruence.
Qed.

End ProxyStart.

Lemma Start_error_leaves_nothing_open_witness :
  proxy.Start string (fun a => a) string listenButBusy
    (proxy.mkProxyOptions string (Some "127.0.0.1:1080") (Some "127.0.0.1:8118"))
  = (proxy.mkProxyServer string (Some "127.0.0.1:1080") None ["127.0.0.1:1080"] false false,
     Some (Errorf "address already in use"))
  /\ forall ln,
       In ln (proxy.open string
                (proxy.mkProxyServer string (Some "127.0.0.1:1080") None
                   ["127.0.0.1:1080"] false false)) ->
       In ln ["127.0.0.1:1080"].
Proof.
  split; [reflexivity|].
  exact (proj1 (proj2 (proj2
           (Start_error_leaves_nothing_open string (fun a => a) string listenButBusy
              (proxy.mkProxyOptions string (Some "127.0.0.1:1080") (Some "127.0.0.1:8118"))
              _ (Errorf "address already in use") eq_refl)))).
Defined.

Lemma Start_success_witness :
  proxy.Start string (fun a => a) string listenButBusy
    (proxy.mkProxyOptions string (Some "127.0.0.1:1080") None)
  = (proxy.mkProxyServer string (Some "127.0.0.1:1080") None [] true false, None)
  /\ proxy.open string
       (proxy.mkProxyServer string (Some "127.0.0.1:1080") None [] true false) <> [].
Proof.
  split; [reflexivity|].
  exact (proj1 (Start_success string (fun a => a) string listenButBusy
                  (proxy.mkProxyOptions string (Some "127.0.0.1:1080") None) _ eq_refl)).
Defined.

Lemma relay_returns_read_error_witness :
  snd (wire.embedHandleAssociate 2048 sampleRun) = None
  /\ wire.embedHandleAssociate 2048
       (sampleRun ++ [socks5.ReadError string ECONNRESET;
                      socks5.Datagram string wire.query wire.client None])%list
     = (sampleLog, Some ECONNRESET).
Proof.
  split; [vm_compute; reflexivity|].
  refine (relay_returns_read_error string (fun a => a) wire.readAddr wire.address_String
            wire.writeAddrWithStr 2048 sampleRun sampleLog ECONNRESET
            [socks5.Datagram string wire.query wire.client None] _).
  vm_compute. reflexivity.
Defined.
